(** * The crypto-exchange form: a shallow embedding and its specification

    The repository is a single client-side form that converts between two
    mock assets (ETH and USDT).  This development embeds

    - [src/utils/input-validation.ts]: [isNumericInput], [isWithinBalance],
      [ERROR_MESSAGES];
    - [src/components/crypto-exchange.tsx]: [CURRENCIES], [RATES],
      [calculateTransactionMinutes], [calculateExchangeAmount],
      [validateAmount], [updateTransactionMinutes], the change handlers,
      [handleSwap], [handleConfirm], the three [useEffect] hooks, the
      confirm button's [disabled] property and the reset button, and
      what the render derives for display: [formatNumberWithCommas],
      the formatted amounts, the USD equivalents and the rate; also
      the earlier [CryptoExchange] component that the file keeps after
      the first (module [Legacy]).

    JavaScript strings are modelled as [string] (one [ascii] per code unit
    in the range U+0000..U+00FF), JavaScript numbers as IEEE-754 binary64
    values ([spec_float] of the Standard Library, with every operation
    defined as the exact rational result rounded to nearest, ties to even),
    and the component's [useState]/[useRef] cells as one record that the
    handlers transform. *)

From Stdlib Require Import ZArith QArith Qround Qabs Qpower Bool List Lia Lqa.
From Stdlib Require Import Ascii String.
From Stdlib Require Import Floats.SpecFloat.
Import ListNotations.

Local Open Scope string_scope.
Local Open Scope Z_scope.

(* ================================================================== *)
(** * Strings and regular expressions *)
(* ================================================================== *)

Module Str.

(** JavaScript truthiness of a string: only the empty string is falsy. *)
Definition truthy (s : string) : bool :=
  match s with EmptyString => false | String _ _ => true end.

Definition is_digit (c : ascii) : bool :=
  let n := nat_of_ascii c in (48 <=? n)%nat && (n <=? 57)%nat.

Definition is_dot (c : ascii) : bool := Ascii.eqb c ".".
Definition is_comma (c : ascii) : bool := Ascii.eqb c ",".

Fixpoint all (p : ascii -> bool) (s : string) : bool :=
  match s with
  | EmptyString => true
  | String c s' => p c && all p s'
  end.

Fixpoint count (p : ascii -> bool) (s : string) : nat :=
  match s with
  | EmptyString => O
  | String c s' => ((if p c then 1 else 0) + count p s')%nat
  end.

Fixpoint exists_ (p : ascii -> bool) (s : string) : bool :=
  match s with
  | EmptyString => false
  | String c s' => p c || exists_ p s'
  end.

(** [s.replace(/c/g, '')] for a one-character class: every occurrence
    is deleted. *)
Fixpoint remove (p : ascii -> bool) (s : string) : string :=
  match s with
  | EmptyString => EmptyString
  | String c s' => if p c then remove p s' else String c (remove p s')
  end.

(** Longest prefix of characters satisfying [p], and the rest. *)
Fixpoint span (p : ascii -> bool) (s : string) : string * string :=
  match s with
  | EmptyString => (EmptyString, EmptyString)
  | String c s' =>
      if p c then let '(a, b) := span p s' in (String c a, b)
      else (EmptyString, s)
  end.

Fixpoint repeat (c : ascii) (n : nat) : string :=
  match n with
  | O => EmptyString
  | S n' => String c (repeat c n')
  end.

End Str.

(** The fragment of JavaScript regular expressions that the sources use:
    character classes, concatenation, [?] and [*].  A pattern anchored
    with [^] and [$] (no flags) must match the whole subject. *)
Module Regex.

Inductive t : Type :=
| Empty : t                          (* matches nothing *)
| Eps : t                            (* matches the empty string *)
| Class : (ascii -> bool) -> t       (* one character of a class *)
| Cat : t -> t -> t
| Alt : t -> t -> t
| Star : t -> t.

Definition Opt (r : t) : t := Alt r Eps.

(** The language of a pattern. *)
Inductive Matches : t -> string -> Prop :=
| MEps : Matches Eps ""
| MClass p c : p c = true -> Matches (Class p) (String c "")
| MCat r1 r2 s1 s2 :
    Matches r1 s1 -> Matches r2 s2 -> Matches (Cat r1 r2) (s1 ++ s2)
| MAltL r1 r2 s : Matches r1 s -> Matches (Alt r1 r2) s
| MAltR r1 r2 s : Matches r2 s -> Matches (Alt r1 r2) s
| MStar0 r : Matches (Star r) ""
| MStarS r s1 s2 :
    Matches r s1 -> Matches (Star r) s2 -> Matches (Star r) (s1 ++ s2).

Fixpoint nullable (r : t) : bool :=
  match r with
  | Empty => false
  | Eps => true
  | Class _ => false
  | Cat r1 r2 => nullable r1 && nullable r2
  | Alt r1 r2 => nullable r1 || nullable r2
  | Star _ => true
  end.

(** Brzozowski derivative of a pattern by one character. *)
Fixpoint deriv (c : ascii) (r : t) : t :=
  match r with
  | Empty => Empty
  | Eps => Empty
  | Class p => if p c then Eps else Empty
  | Cat r1 r2 =>
      if nullable r1
      then Alt (Cat (deriv c r1) r2) (deriv c r2)
      else Cat (deriv c r1) r2
  | Alt r1 r2 => Alt (deriv c r1) (deriv c r2)
  | Star r1 => Cat (deriv c r1) (Star r1)
  end.

(** [/^r$/.test(s)] *)
Fixpoint test (r : t) (s : string) : bool :=
  match s with
  | EmptyString => nullable r
  | String c s' => test (deriv c r) s'
  end.

End Regex.

(* ================================================================== *)
(** * JavaScript numbers: IEEE-754 binary64 *)
(* ================================================================== *)

Module Num.

Definition number := spec_float.

Definition prec : Z := 53.
Definition emax : Z := 1024.
(** Exponent of the least significant bit of subnormal numbers. *)
Definition emin : Z := -1074.

Definition NaN : number := S754_nan.
Definition Infinity : number := S754_infinity false.

Definition isNaN (x : number) : bool :=
  match x with S754_nan => true | _ => false end.

Definition is_finite (x : number) : bool :=
  match x with S754_zero _ | S754_finite _ _ _ => true | _ => false end.

(** [2^e] as a rational, for any integer [e]. *)
Definition pow2 (e : Z) : Q :=
  match e with
  | Z0 => 1%Q
  | Zpos p => inject_Z (2 ^ Zpos p)
  | Zneg p => (1 # (2 ^ p))%Q
  end.

(** The real number denoted by a finite number (zero for the others). *)
Definition val (x : number) : Q :=
  match x with
  | S754_finite s m e =>
      ((if s then inject_Z (Zneg m) else inject_Z (Zpos m)) * pow2 e)%Q
  | _ => 0%Q
  end.

(** [p / (d * 2^e)] as a numerator and a denominator. *)
Definition scaled (p d e : Z) : Z * Z :=
  if 0 <=? e then (p, d * 2 ^ e) else (p * 2 ^ (- e), d).

Definition scaled_floor (p d e : Z) : Z :=
  let '(n, m) := scaled p d e in n / m.

(** The exponent [e] with [2^52 <= p / (d * 2^e) < 2^53], not below
    [emin]. *)
Definition exponent_of (p d : Z) : Z :=
  let e0 := Z.log2 p - Z.log2 d - 52 in
  let e1 := if scaled_floor p d e0 <? 2 ^ 52 then e0 - 1 else e0 in
  Z.max e1 emin.

(** The integer nearest to [n / m], ties to the even one. *)
Definition div_nearest_even (n m : Z) : Z :=
  let q := n / m in
  let r := n mod m in
  match 2 * r ?= m with
  | Lt => q
  | Gt => q + 1
  | Eq => if Z.even q then q else q + 1
  end.

(** The binary64 value nearest to [p / d], with sign [s]
    ([p] and [d] positive). *)
Definition round_pos (s : bool) (p d : positive) : number :=
  let e := exponent_of (Zpos p) (Zpos d) in
  let '(n, m) := scaled (Zpos p) (Zpos d) e in
  let k := div_nearest_even n m in
  let '(k', e') := if k =? 2 ^ 53 then (2 ^ 52, e + 1) else (k, e) in
  match k' with
  | Zpos mant =>
      if e' <=? emax - prec then S754_finite s mant e' else S754_infinity s
  | _ => S754_zero s
  end.

(** The Number value for a rational: round to nearest, ties to even;
    an exact zero is [+0]. *)
Definition of_Q (q : Q) : number :=
  let r := Qred q in
  match Qnum r with
  | Z0 => S754_zero false
  | Zpos p => round_pos false p (Qden r)
  | Zneg p => round_pos true p (Qden r)
  end.

Definition of_Z (n : Z) : number := of_Q (inject_Z n).

Definition sign_of (x : number) : bool :=
  match x with
  | S754_zero s | S754_infinity s | S754_finite s _ _ => s
  | S754_nan => false
  end.

Definition with_sign (s : bool) (x : number) : number :=
  match x with
  | S754_zero _ => S754_zero s
  | S754_infinity _ => S754_infinity s
  | S754_finite _ m e => S754_finite s m e
  | S754_nan => S754_nan
  end.

(** [x * y] *)
Definition mul (x y : number) : number :=
  match x, y with
  | S754_nan, _ | _, S754_nan => S754_nan
  | S754_infinity _, S754_zero _ | S754_zero _, S754_infinity _ => S754_nan
  | S754_infinity sx, _ => S754_infinity (xorb sx (sign_of y))
  | _, S754_infinity sy => S754_infinity (xorb (sign_of x) sy)
  | S754_zero sx, _ => S754_zero (xorb sx (sign_of y))
  | _, S754_zero sy => S754_zero (xorb (sign_of x) sy)
  | S754_finite _ _ _, S754_finite _ _ _ => of_Q (val x * val y)
  end.

(** [x / y] *)
Definition div (x y : number) : number :=
  match x, y with
  | S754_nan, _ | _, S754_nan => S754_nan
  | S754_infinity _, S754_infinity _ | S754_zero _, S754_zero _ => S754_nan
  | S754_infinity sx, _ => S754_infinity (xorb sx (sign_of y))
  | _, S754_infinity sy => S754_zero (xorb (sign_of x) sy)
  | S754_zero sx, _ => S754_zero (xorb sx (sign_of y))
  | _, S754_zero sy => S754_infinity (xorb (sign_of x) sy)
  | S754_finite _ _ _, S754_finite _ _ _ => of_Q (val x / val y)
  end.

(** [x + y] *)
Definition add (x y : number) : number :=
  match x, y with
  | S754_nan, _ | _, S754_nan => S754_nan
  | S754_infinity sx, S754_infinity sy =>
      if Bool.eqb sx sy then x else S754_nan
  | S754_infinity _, _ => x
  | _, S754_infinity _ => y
  | S754_zero sx, S754_zero sy => S754_zero (sx && sy)
  | S754_zero _, _ => y
  | _, S754_zero _ => x
  | S754_finite _ _ _, S754_finite _ _ _ => of_Q (val x + val y)
  end.

(** Numeric comparison: [None] when an operand is NaN; [-0] and [+0]
    are equal. *)
Definition compare (x y : number) : option comparison :=
  match x, y with
  | S754_nan, _ | _, S754_nan => None
  | S754_infinity sx, S754_infinity sy =>
      Some (if Bool.eqb sx sy then Eq else if sx then Lt else Gt)
  | S754_infinity sx, _ => Some (if sx then Lt else Gt)
  | _, S754_infinity sy => Some (if sy then Gt else Lt)
  | _, _ => Some (val x ?= val y)%Q
  end.

(** [x < y] *)
Definition ltb (x y : number) : bool :=
  match compare x y with Some Lt => true | _ => false end.

(** [x <= y] *)
Definition leb (x y : number) : bool :=
  match compare x y with Some Lt | Some Eq => true | _ => false end.

(** [x > y] *)
Definition gtb (x y : number) : bool := ltb y x.

(** [Math.max(x, y)]: NaN if either is NaN, and [+0] is larger than
    [-0]. *)
Definition max (x y : number) : number :=
  match compare x y with
  | None => S754_nan
  | Some Lt => y
  | Some Gt => x
  | Some Eq => if sign_of x then y else x
  end.

(** [Math.min(x, y)] *)
Definition min (x y : number) : number :=
  match compare x y with
  | None => S754_nan
  | Some Lt => x
  | Some Gt => y
  | Some Eq => if sign_of x then x else y
  end.

(** [Math.round(x)]: the nearest integer, ties towards [+Infinity];
    a result of zero keeps the sign of [x]. *)
Definition round (x : number) : number :=
  match x with
  | S754_finite s m e =>
      if 0 <=? e then x
      else
        let n := Qfloor (val x + (1 # 2)) in
        if n =? 0 then S754_zero s else of_Z n
  | _ => x
  end.

End Num.

(* ================================================================== *)
(** * Conversions between strings and numbers *)
(* ================================================================== *)

Module Conv.

Import Num.

Definition digit_val (c : ascii) : Z := Z.of_nat (nat_of_ascii c) - 48.

Definition digit_char (d : Z) : ascii := ascii_of_nat (Z.to_nat (48 + d)).

(** Value of a string of decimal digits, most significant first. *)
Fixpoint digits_val_acc (acc : Z) (s : string) : Z :=
  match s with
  | EmptyString => acc
  | String c s' => digits_val_acc (10 * acc + digit_val c) s'
  end.

Definition digits_val (s : string) : Z := digits_val_acc 0 s.

Fixpoint digits_of_acc (fuel : nat) (n : Z) (acc : string) : string :=
  let acc' := String (digit_char (n mod 10)) acc in
  match fuel with
  | O => acc'
  | S fuel' => if n / 10 =? 0 then acc' else digits_of_acc fuel' (n / 10) acc'
  end.

(** The decimal digits of a non-negative integer (["0"] for zero). *)
Definition digits_of (n : Z) : string :=
  digits_of_acc (Z.to_nat (Z.log2 n)) n "".

(** [m * 10^k] as a rational, for any integer [k]. *)
Definition scale10 (m k : Z) : Q :=
  match k with
  | Z0 => inject_Z m
  | Zpos p => inject_Z (m * 10 ^ Zpos p)
  | Zneg p => (m # (10 ^ p))%Q
  end.

(** ** [Number.parseFloat] *)

(** White space and line terminators among the code units below
    U+0100: TAB, LF, VT, FF, CR, SP, NBSP. *)
Definition is_white (c : ascii) : bool :=
  let n := nat_of_ascii c in
  ((9 <=? n) && (n <=? 13) || (n =? 32) || (n =? 160))%nat.

Fixpoint trim_start (s : string) : string :=
  match s with
  | String c s' => if is_white c then trim_start s' else s
  | EmptyString => s
  end.

Fixpoint strip_prefix (pre s : string) : option string :=
  match pre, s with
  | EmptyString, _ => Some s
  | String a pre', String b s' =>
      if Ascii.eqb a b then strip_prefix pre' s' else None
  | String _ _, EmptyString => None
  end.

(** The mathematical value of a [StrUnsignedDecimalLiteral]. *)
Inductive mv : Type :=
| MVinfinity : mv
| MVrational : Q -> mv.

(** [ExponentPart]: [e] or [E], an optional sign, at least one digit;
    anything else is not part of the literal and counts as exponent
    zero. *)
Definition parse_exponent (s : string) : Z :=
  match s with
  | String c s' =>
      if Ascii.eqb c "e" || Ascii.eqb c "E" then
        let '(neg, s'') :=
          match s' with
          | String "+" t => (false, t)
          | String "-" t => (true, t)
          | _ => (false, s')
          end in
        let '(ds, _) := Str.span Str.is_digit s'' in
        if Str.truthy ds
        then (if neg then - digits_val ds else digits_val ds)
        else 0
      else 0
  | EmptyString => 0
  end.

(** The longest prefix that is a [StrUnsignedDecimalLiteral], if any,
    and its value. *)
Definition parse_unsigned (s : string) : option mv :=
  match strip_prefix "Infinity" s with
  | Some _ => Some MVinfinity
  | None =>
      let '(ip, r1) := Str.span Str.is_digit s in
      let '(fp, r2) :=
        match r1 with
        | String "." r1' =>
            let '(fp, r2) := Str.span Str.is_digit r1' in
            if Str.truthy ip || Str.truthy fp then (fp, r2)
            else (EmptyString, r1)
        | _ => (EmptyString, r1)
        end in
      if Str.truthy ip || Str.truthy fp then
        Some (MVrational
                (scale10 (digits_val (ip ++ fp))
                         (parse_exponent r2 - Z.of_nat (String.length fp))))
      else None
  end.

Definition parseFloat (s : string) : number :=
  let t := trim_start s in
  let '(neg, u) :=
    match t with
    | String "+" u => (false, u)
    | String "-" u => (true, u)
    | _ => (false, t)
    end in
  match parse_unsigned u with
  | None => NaN
  | Some MVinfinity => S754_infinity neg
  | Some (MVrational q) =>
      let x := of_Q q in if neg then with_sign true x else x
  end.

(** ** [Number.prototype.toString] for values of magnitude at least
    [10^21] *)

Definition same_value (x y : number) : bool :=
  match compare x y with Some Eq => true | _ => false end.

(** Search for the least number [k] of significant digits for which
    some [n * 10^(D-k)] with [k] digits converts back to [x]; of two
    such [n] the one closer to [X] (the exact value of [x], which has
    [D] decimal digits) is taken.  Returns the digits and the decimal
    exponent. *)
Fixpoint shortest_digits (fuel : nat) (k : Z) (X D : Z) (x : number)
  : Z * Z :=
  let t := D - k in
  let n0 := X / 10 ^ t in
  let lo := same_value (of_Z (n0 * 10 ^ t)) x in
  let hi := same_value (of_Z ((n0 + 1) * 10 ^ t)) x in
  let up := if n0 + 1 =? 10 ^ k then (1, D) else (n0 + 1, D - 1) in
  match fuel with
  | O => (n0, D - 1)
  | S fuel' =>
      match lo, hi with
      | true, true =>
          match X - n0 * 10 ^ t ?= (n0 + 1) * 10 ^ t - X with
          | Lt => (n0, D - 1)
          | Gt => up
          | Eq => if Z.even n0 then (n0, D - 1) else up
          end
      | true, false => (n0, D - 1)
      | false, true => up
      | false, false => shortest_digits fuel' (k + 1) X D x
      end
  end.

(** [x] finite, positive, at least [10^21]: exponential notation. *)
Definition toString_large (x : number) : string :=
  let X := Qfloor (val x) in
  let D := Z.of_nat (String.length (digits_of X)) in
  let '(n, e) := shortest_digits 17 1 X D x in
  let d := digits_of n in
  match d with
  | String c EmptyString => String c ("e+" ++ digits_of e)
  | String c rest => String c ("." ++ rest ++ "e+" ++ digits_of e)
  | EmptyString => EmptyString
  end.

(** ** [Number.prototype.toFixed] *)

Definition toFixed (x : number) (f : nat) : string :=
  match x with
  | S754_nan => "NaN"
  | S754_infinity s => if s then "-Infinity" else "Infinity"
  | _ =>
      let v := val x in
      let neg := Qlt_le_dec v 0 in
      let a := Qabs v in
      let m :=
        if Qle_bool (inject_Z (10 ^ 21)) a
        then toString_large (with_sign false x)
        else
          let n := Qfloor (a * inject_Z (10 ^ Z.of_nat f) + (1 # 2)) in
          let m := digits_of n in
          match f with
          | O => m
          | _ =>
              let k := String.length m in
              let m' :=
                if (k <=? f)%nat then Str.repeat "0" (f + 1 - k) ++ m
                else m in
              let k' := String.length m' in
              substring 0 (k' - f) m' ++ "." ++ substring (k' - f) f m'
          end in
      if neg then "-" ++ m else m
  end.

End Conv.

(* ================================================================== *)
(** * [src/utils/input-validation.ts] *)
(* ================================================================== *)

Import Num Conv.

(** [/^\d*\.?\d*$/] *)
Definition numericPattern : Regex.t :=
  Regex.Cat (Regex.Star (Regex.Class Str.is_digit))
    (Regex.Cat (Regex.Opt (Regex.Class Str.is_dot))
       (Regex.Star (Regex.Class Str.is_digit))).

Definition isNumericInput (value : string) : bool :=
  if negb (Str.truthy value) then true
  else Regex.test numericPattern value.

Definition isWithinBalance (amount : string) (maxBalance : number) : bool :=
  if negb (Str.truthy amount) then true
  else
    let numValue := parseFloat amount in
    negb (isNaN numValue) && leb numValue maxBalance
    && gtb numValue (of_Z 0).

Module ERROR_MESSAGES.
Definition NUMBERS_ONLY : string := "Please enter numbers only".
Definition INSUFFICIENT_ETH : string := "Insufficient ETH balance".
Definition INSUFFICIENT_USDT : string := "Insufficient USDT balance".
End ERROR_MESSAGES.

(* ================================================================== *)
(** * [src/components/crypto-exchange.tsx]: constants and pure functions *)
(* ================================================================== *)

Inductive CurrencyKey : Type := ETH | USDT.

Definition CurrencyKey_eqb (a b : CurrencyKey) : bool :=
  match a, b with
  | ETH, ETH | USDT, USDT => true
  | _, _ => false
  end.

Record Currency : Type := mkCurrency {
  name : string;
  symbol : string;
  icon : string;
  balance : number;
  precision : nat
}.

(** A decimal literal of the source text is the Number value for its
    mathematical value. *)
Definition literal (q : Q) : number := of_Q q.

Definition CURRENCIES (k : CurrencyKey) : Currency :=
  match k with
  | ETH =>
      {| name := "Ethereum"; symbol := "ETH"; icon := "/crypto-icons/eth.png";
         balance := literal (298 # 100); precision := 4 |}
  | USDT =>
      {| name := "USDT"; symbol := "USDT"; icon := "/crypto-icons/usdt.png";
         balance := literal 10000; precision := 2 |}
  end.

Module RATES.
Definition ETH_TO_USDT : number := literal (218433 # 100).
Definition USDT_TO_ETH : number := div (literal 1) (literal (218433 # 100)).
End RATES.

Inductive ExchangeDirection : Type := SEND | RECEIVE.

(** [calculateTransactionMinutes(value)]; [random] is the value that the
    call of [Math.random()] returns. *)
Definition calculateTransactionMinutes (value random : number) : number :=
  let baseTime := literal 10 in
  let scaleFactor := literal (5 # 100) in
  let valueEffect := mul value scaleFactor in
  let randomFactor := add (literal (7 # 10)) (mul random (literal (6 # 10))) in
  max (literal 5)
    (min (literal 30) (round (mul (add baseTime valueEffect) randomFactor))).

(** The conversion factor that [calculateExchangeAmount] selects. *)
Definition rate (fromCurrency toCurrency : CurrencyKey) : number :=
  if CurrencyKey_eqb fromCurrency ETH && CurrencyKey_eqb toCurrency USDT
  then RATES.ETH_TO_USDT
  else if CurrencyKey_eqb fromCurrency USDT && CurrencyKey_eqb toCurrency ETH
       then RATES.USDT_TO_ETH
       else literal 1.

Definition calculateExchangeAmount
  (amount : string) (fromCurrency toCurrency : CurrencyKey) : string :=
  if negb (Str.truthy amount) then ""
  else
    let numAmount := parseFloat amount in
    if isNaN numAmount then ""
    else
      toFixed (mul numAmount (rate fromCurrency toCurrency))
        (precision (CURRENCIES toCurrency)).

Definition validateAmount (amount : string) (currency : CurrencyKey)
  : string :=
  if negb (isNumericInput amount) then ERROR_MESSAGES.NUMBERS_ONLY
  else if Str.truthy amount
          && negb (isWithinBalance amount (balance (CURRENCIES currency)))
       then match currency with
            | ETH => ERROR_MESSAGES.INSUFFICIENT_ETH
            | USDT => ERROR_MESSAGES.INSUFFICIENT_USDT
            end
       else "".

(** [v || "0"] *)
Definition orZero (v : string) : string := if Str.truthy v then v else "0".

(* ================================================================== *)
(** * The component's state and its event handlers *)
(* ================================================================== *)

(** One field per [useState] and [useRef] cell of [CryptoExchange].  The
    two counters only ever hold small integers, which binary64
    represents exactly, and are kept as [nat]. *)
Record State : Type := mkState {
  sendAmount : string;
  receiveAmount : string;
  sendCurrency : CurrencyKey;
  receiveCurrency : CurrencyKey;
  sendError : string;
  receiveError : string;
  focused : option ExchangeDirection;
  transactionMinutes : number;
  isLoading : bool;
  isSuccess : bool;
  sendErrorCount : nat;
  receiveErrorCount : nat;
  shakeSendError : bool;
  shakeReceiveError : bool;
  prevSendErrorRef : string;
  prevReceiveErrorRef : string
}.

Definition initialState : State :=
  {| sendAmount := "1.00";
     receiveAmount := "2184.33";
     sendCurrency := ETH;
     receiveCurrency := USDT;
     sendError := "";
     receiveError := "";
     focused := None;
     transactionMinutes := literal 15;
     isLoading := false;
     isSuccess := false;
     sendErrorCount := 0;
     receiveErrorCount := 0;
     shakeSendError := false;
     shakeReceiveError := false;
     prevSendErrorRef := "";
     prevReceiveErrorRef := "" |}.

(** The value that [updateTransactionMinutes(sendVal, receiveVal)] passes
    to [setTransactionMinutes].  The currencies are those of the render
    whose closure the caller runs in. *)
Definition updateTransactionMinutes
  (st : State) (sendVal receiveVal : string) (random : number) : number :=
  let sendUsdVal :=
    match sendCurrency st with
    | USDT => parseFloat (orZero sendVal)
    | ETH => mul (parseFloat (orZero sendVal)) RATES.ETH_TO_USDT
    end in
  let receiveUsdVal :=
    match receiveCurrency st with
    | USDT => parseFloat (orZero receiveVal)
    | ETH => mul (parseFloat (orZero receiveVal)) RATES.ETH_TO_USDT
    end in
  let transactionValue := max sendUsdVal receiveUsdVal in
  calculateTransactionMinutes transactionValue random.

(** [e.target.value.replace(/,/g, '')] *)
Definition stripCommas (value : string) : string :=
  Str.remove Str.is_comma value.

(** The repeat counter and the shake flag after an error [error] was
    computed for a field whose previous error is [prev], whose counter
    is [cnt] and whose shake flag is [shake]. *)
Definition trackError (error prev : string) (cnt : nat) (shake : bool)
  : nat * bool :=
  if Str.truthy error && String.eqb error prev
  then (S cnt, if (2 <=? cnt)%nat then true else shake)
  else (O, shake).

Definition handleSendAmountChange
  (st : State) (value : string) (random : number) : State :=
  let rawValue := stripCommas value in
  let error := validateAmount rawValue (sendCurrency st) in
  let '(cnt, shake) :=
    trackError error (prevSendErrorRef st) (sendErrorCount st)
      (shakeSendError st) in
  if negb (String.eqb error ERROR_MESSAGES.NUMBERS_ONLY) then
    let newReceiveAmount :=
      calculateExchangeAmount rawValue (sendCurrency st)
        (receiveCurrency st) in
    {| sendAmount := rawValue;
       receiveAmount := newReceiveAmount;
       sendCurrency := sendCurrency st;
       receiveCurrency := receiveCurrency st;
       sendError := error;
       receiveError := "";
       focused := focused st;
       transactionMinutes :=
         updateTransactionMinutes st rawValue newReceiveAmount random;
       isLoading := isLoading st;
       isSuccess := isSuccess st;
       sendErrorCount := cnt;
       receiveErrorCount := 0;
       shakeSendError := shake;
       shakeReceiveError := shakeReceiveError st;
       prevSendErrorRef := error;
       prevReceiveErrorRef := "" |}
  else
    {| sendAmount := sendAmount st;
       receiveAmount := receiveAmount st;
       sendCurrency := sendCurrency st;
       receiveCurrency := receiveCurrency st;
       sendError := error;
       receiveError := receiveError st;
       focused := focused st;
       transactionMinutes := transactionMinutes st;
       isLoading := isLoading st;
       isSuccess := isSuccess st;
       sendErrorCount := cnt;
       receiveErrorCount := receiveErrorCount st;
       shakeSendError := shake;
       shakeReceiveError := shakeReceiveError st;
       prevSendErrorRef := error;
       prevReceiveErrorRef := prevReceiveErrorRef st |}.

Definition handleReceiveAmountChange
  (st : State) (value : string) (random : number) : State :=
  let rawValue := stripCommas value in
  if negb (isNumericInput rawValue) then
    let error := ERROR_MESSAGES.NUMBERS_ONLY in
    let '(cnt, shake) :=
      if String.eqb error (prevReceiveErrorRef st)
      then (S (receiveErrorCount st),
            if (2 <=? receiveErrorCount st)%nat then true
            else shakeReceiveError st)
      else (O, shakeReceiveError st) in
    {| sendAmount := sendAmount st;
       receiveAmount := receiveAmount st;
       sendCurrency := sendCurrency st;
       receiveCurrency := receiveCurrency st;
       sendError := sendError st;
       receiveError := error;
       focused := focused st;
       transactionMinutes := transactionMinutes st;
       isLoading := isLoading st;
       isSuccess := isSuccess st;
       sendErrorCount := sendErrorCount st;
       receiveErrorCount := cnt;
       shakeSendError := shakeSendError st;
       shakeReceiveError := shake;
       prevSendErrorRef := prevSendErrorRef st;
       prevReceiveErrorRef := error |}
  else if Str.truthy rawValue then
    let calculatedSendAmount :=
      calculateExchangeAmount rawValue (receiveCurrency st)
        (sendCurrency st) in
    let sendError' := validateAmount calculatedSendAmount (sendCurrency st) in
    let '(cnt, shake) :=
      trackError sendError' (prevSendErrorRef st) (sendErrorCount st)
        (shakeSendError st) in
    {| sendAmount := calculatedSendAmount;
       receiveAmount := rawValue;
       sendCurrency := sendCurrency st;
       receiveCurrency := receiveCurrency st;
       sendError := sendError';
       receiveError := "";
       focused := focused st;
       transactionMinutes :=
         updateTransactionMinutes st calculatedSendAmount rawValue random;
       isLoading := isLoading st;
       isSuccess := isSuccess st;
       sendErrorCount := cnt;
       receiveErrorCount := 0;
       shakeSendError := shake;
       shakeReceiveError := shakeReceiveError st;
       prevSendErrorRef := sendError';
       prevReceiveErrorRef := "" |}
  else
    {| sendAmount := "";
       receiveAmount := rawValue;
       sendCurrency := sendCurrency st;
       receiveCurrency := receiveCurrency st;
       sendError := "";
       receiveError := "";
       focused := focused st;
       transactionMinutes := updateTransactionMinutes st "0" "0" random;
       isLoading := isLoading st;
       isSuccess := isSuccess st;
       sendErrorCount := 0;
       receiveErrorCount := 0;
       shakeSendError := shakeSendError st;
       shakeReceiveError := shakeReceiveError st;
       prevSendErrorRef := "";
       prevReceiveErrorRef := "" |}.

Definition handleSwap (st : State) (random : number) : State :=
  if String.eqb (sendError st) ERROR_MESSAGES.NUMBERS_ONLY
     || String.eqb (receiveError st) ERROR_MESSAGES.NUMBERS_ONLY
  then st
  else
    let newSendAmount := receiveAmount st in
    let newSendCurrency := receiveCurrency st in
    let newReceiveAmount := sendAmount st in
    let newReceiveCurrency := sendCurrency st in
    let newSendError := validateAmount newSendAmount newSendCurrency in
    {| sendAmount := newSendAmount;
       receiveAmount := newReceiveAmount;
       sendCurrency := newSendCurrency;
       receiveCurrency := newReceiveCurrency;
       sendError := newSendError;
       receiveError := "";
       focused := focused st;
       transactionMinutes :=
         updateTransactionMinutes st newSendAmount newReceiveAmount random;
       isLoading := isLoading st;
       isSuccess := isSuccess st;
       sendErrorCount := sendErrorCount st;
       receiveErrorCount := receiveErrorCount st;
       shakeSendError := shakeSendError st;
       shakeReceiveError := shakeReceiveError st;
       prevSendErrorRef := prevSendErrorRef st;
       prevReceiveErrorRef := prevReceiveErrorRef st |}.

(** [handleConfirm], up to the call of [setTimeout]. *)
Definition handleConfirm (st : State) : State :=
  {| sendAmount := sendAmount st;
     receiveAmount := receiveAmount st;
     sendCurrency := sendCurrency st;
     receiveCurrency := receiveCurrency st;
     sendError := sendError st;
     receiveError := receiveError st;
     focused := focused st;
     transactionMinutes := transactionMinutes st;
     isLoading := true;
     isSuccess := isSuccess st;
     sendErrorCount := sendErrorCount st;
     receiveErrorCount := receiveErrorCount st;
     shakeSendError := shakeSendError st;
     shakeReceiveError := shakeReceiveError st;
     prevSendErrorRef := prevSendErrorRef st;
     prevReceiveErrorRef := prevReceiveErrorRef st |}.

(** The callback that [handleConfirm] schedules. *)
Definition confirmTimeout (st : State) : State :=
  {| sendAmount := sendAmount st;
     receiveAmount := receiveAmount st;
     sendCurrency := sendCurrency st;
     receiveCurrency := receiveCurrency st;
     sendError := sendError st;
     receiveError := receiveError st;
     focused := focused st;
     transactionMinutes := transactionMinutes st;
     isLoading := false;
     isSuccess := true;
     sendErrorCount := sendErrorCount st;
     receiveErrorCount := receiveErrorCount st;
     shakeSendError := shakeSendError st;
     shakeReceiveError := shakeReceiveError st;
     prevSendErrorRef := prevSendErrorRef st;
     prevReceiveErrorRef := prevReceiveErrorRef st |}.

(** The [onClick] of the "New Exchange" button of the success panel. *)
Definition handleNewExchange (st : State) : State :=
  {| sendAmount := "1.00";
     receiveAmount :=
       calculateExchangeAmount "1.00" (sendCurrency st) (receiveCurrency st);
     sendCurrency := sendCurrency st;
     receiveCurrency := receiveCurrency st;
     sendError := sendError st;
     receiveError := receiveError st;
     focused := focused st;
     transactionMinutes := transactionMinutes st;
     isLoading := isLoading st;
     isSuccess := false;
     sendErrorCount := sendErrorCount st;
     receiveErrorCount := receiveErrorCount st;
     shakeSendError := shakeSendError st;
     shakeReceiveError := shakeReceiveError st;
     prevSendErrorRef := prevSendErrorRef st;
     prevReceiveErrorRef := prevReceiveErrorRef st |}.

(** [handleInputFocus] and [handleInputBlur]. *)
Definition setFocused (st : State) (f : option ExchangeDirection) : State :=
  {| sendAmount := sendAmount st;
     receiveAmount := receiveAmount st;
     sendCurrency := sendCurrency st;
     receiveCurrency := receiveCurrency st;
     sendError := sendError st;
     receiveError := receiveError st;
     focused := f;
     transactionMinutes := transactionMinutes st;
     isLoading := isLoading st;
     isSuccess := isSuccess st;
     sendErrorCount := sendErrorCount st;
     receiveErrorCount := receiveErrorCount st;
     shakeSendError := shakeSendError st;
     shakeReceiveError := shakeReceiveError st;
     prevSendErrorRef := prevSendErrorRef st;
     prevReceiveErrorRef := prevReceiveErrorRef st |}.

(** The callbacks scheduled when a shake starts:
    [setShakeSendError(false)] and [setShakeReceiveError(false)]. *)
Definition shakeTimeout (st : State) (d : ExchangeDirection) : State :=
  {| sendAmount := sendAmount st;
     receiveAmount := receiveAmount st;
     sendCurrency := sendCurrency st;
     receiveCurrency := receiveCurrency st;
     sendError := sendError st;
     receiveError := receiveError st;
     focused := focused st;
     transactionMinutes := transactionMinutes st;
     isLoading := isLoading st;
     isSuccess := isSuccess st;
     sendErrorCount := sendErrorCount st;
     receiveErrorCount := receiveErrorCount st;
     shakeSendError :=
       match d with SEND => false | RECEIVE => shakeSendError st end;
     shakeReceiveError :=
       match d with RECEIVE => false | SEND => shakeReceiveError st end;
     prevSendErrorRef := prevSendErrorRef st;
     prevReceiveErrorRef := prevReceiveErrorRef st |}.

(** What an effect does when it finds a send error that differs from the
    rendered one: [setSendError], the ref, and [setSendErrorCount(0)]. *)
Definition resetSendError (st : State) (error : string) : State :=
  {| sendAmount := sendAmount st;
     receiveAmount := receiveAmount st;
     sendCurrency := sendCurrency st;
     receiveCurrency := receiveCurrency st;
     sendError := error;
     receiveError := receiveError st;
     focused := focused st;
     transactionMinutes := transactionMinutes st;
     isLoading := isLoading st;
     isSuccess := isSuccess st;
     sendErrorCount := 0;
     receiveErrorCount := receiveErrorCount st;
     shakeSendError := shakeSendError st;
     shakeReceiveError := shakeReceiveError st;
     prevSendErrorRef := error;
     prevReceiveErrorRef := prevReceiveErrorRef st |}.

(** The effect on [[sendAmount, sendCurrency]], run in the closure of the
    render of [st]; [acc] collects the queued updates. *)
Definition sendEffect (st acc : State) : State :=
  if Str.truthy (sendAmount st) then
    let error := validateAmount (sendAmount st) (sendCurrency st) in
    if negb (String.eqb error (sendError st)) then resetSendError acc error
    else acc
  else acc.

(** The effect on [[receiveAmount, receiveCurrency, sendCurrency]]. *)
Definition receiveEffect (st acc : State) : State :=
  let isInitialRender :=
    String.eqb (receiveAmount st) "2184.33"
    && String.eqb (sendAmount st) "1.00" in
  if isInitialRender then acc
  else if Str.truthy (receiveAmount st) then
    let calculatedSendAmount :=
      calculateExchangeAmount (receiveAmount st) (receiveCurrency st)
        (sendCurrency st) in
    let newSendError := validateAmount calculatedSendAmount (sendCurrency st) in
    if negb (String.eqb newSendError (sendError st))
    then resetSendError acc newSendError
    else acc
  else acc.

(** The effects that React runs after the render of [next] when the
    previous render was of [prev]: an effect runs when one of its
    dependencies changed.  Their updates touch no dependency, so the
    render that follows runs no effect. *)
Definition runEffects (prev next : State) : State :=
  let sendChanged :=
    negb (String.eqb (sendAmount prev) (sendAmount next))
    || negb (CurrencyKey_eqb (sendCurrency prev) (sendCurrency next)) in
  let receiveChanged :=
    negb (String.eqb (receiveAmount prev) (receiveAmount next))
    || negb (CurrencyKey_eqb (receiveCurrency prev) (receiveCurrency next))
    || negb (CurrencyKey_eqb (sendCurrency prev) (sendCurrency next)) in
  let acc1 := if sendChanged then sendEffect next next else next in
  if receiveChanged then receiveEffect next acc1 else acc1.

(** The first render: every effect runs once, the first of them being
    [updateTransactionMinutes(sendAmount, receiveAmount)]. *)
Definition mount (random : number) : State :=
  let st := initialState in
  let acc0 :=
    {| sendAmount := sendAmount st;
       receiveAmount := receiveAmount st;
       sendCurrency := sendCurrency st;
       receiveCurrency := receiveCurrency st;
       sendError := sendError st;
       receiveError := receiveError st;
       focused := focused st;
       transactionMinutes :=
         updateTransactionMinutes st (sendAmount st) (receiveAmount st) random;
       isLoading := isLoading st;
       isSuccess := isSuccess st;
       sendErrorCount := sendErrorCount st;
       receiveErrorCount := receiveErrorCount st;
       shakeSendError := shakeSendError st;
       shakeReceiveError := shakeReceiveError st;
       prevSendErrorRef := prevSendErrorRef st;
       prevReceiveErrorRef := prevReceiveErrorRef st |} in
  receiveEffect st (sendEffect st acc0).

(** The [disabled] property of the confirm button. *)
Definition confirmDisabled (st : State) : bool :=
  Str.truthy (sendError st) || Str.truthy (receiveError st) || isLoading st.

(** ** Events *)

(** What can happen to the mounted component.  The events that call
    [updateTransactionMinutes] carry the value that [Math.random()]
    returns. *)
Inductive Event : Type :=
| ChangeSend (value : string) (random : number)
| ChangeReceive (value : string) (random : number)
| ClickSwap (random : number)
| ClickConfirm
| ConfirmTimeout
| ClickNewExchange
| Focus (d : ExchangeDirection)
| Blur
| ShakeTimeout (d : ExchangeDirection).

(** [Math.random()] returns a number in [[0, 1)]. *)
Definition isRandom (r : number) : bool :=
  is_finite r && leb (of_Z 0) r && ltb r (of_Z 1).

(** The form is rendered unless [isSuccess]; then the success panel is.
    A disabled button fires no click, and the confirmation timer is
    pending exactly while [isLoading]. *)
Definition enabled (st : State) (ev : Event) : bool :=
  match ev with
  | ChangeSend _ r | ChangeReceive _ r | ClickSwap r =>
      negb (isSuccess st) && isRandom r
  | ClickConfirm => negb (isSuccess st) && negb (confirmDisabled st)
  | ConfirmTimeout => isLoading st
  | ClickNewExchange => isSuccess st
  | Focus _ | Blur => negb (isSuccess st)
  | ShakeTimeout _ => true
  end.

Definition handle (st : State) (ev : Event) : State :=
  match ev with
  | ChangeSend v r => handleSendAmountChange st v r
  | ChangeReceive v r => handleReceiveAmountChange st v r
  | ClickSwap r => handleSwap st r
  | ClickConfirm => handleConfirm st
  | ConfirmTimeout => confirmTimeout st
  | ClickNewExchange => handleNewExchange st
  | Focus d => setFocused st (Some d)
  | Blur => setFocused st None
  | ShakeTimeout d => shakeTimeout st d
  end.

(** One event: its handler, the render, and the effects of that render. *)
Definition step (st : State) (ev : Event) : State :=
  runEffects st (handle st ev).

Fixpoint run (st : State) (evs : list Event) : State :=
  match evs with
  | [] => st
  | ev :: evs' => run (step st ev) evs'
  end.

Inductive Reachable : State -> Prop :=
| ReachMount r : isRandom r = true -> Reachable (mount r)
| ReachStep st ev :
    Reachable st -> enabled st ev = true -> Reachable (step st ev).

(* ================================================================== *)
(** * [src/components/crypto-exchange.tsx]: what the form displays *)
(* ================================================================== *)

(** ** [formatNumberWithCommas] *)

(** [\w] of a regular expression without flags: a letter, a digit or
    the underscore. *)
Definition is_word (c : ascii) : bool :=
  let n := nat_of_ascii c in
  Str.is_digit c
  || ((65 <=? n)%nat && (n <=? 90)%nat)
  || ((97 <=? n)%nat && (n <=? 122)%nat)
  || (n =? 95)%nat.

(** [\B] at the position between [prev] and [next] ([None] at either
    end of the subject): the two sides are both word characters or both
    not. *)
Definition not_word_boundary (prev next : option ascii) : bool :=
  Bool.eqb
    (match prev with Some c => is_word c | None => false end)
    (match next with Some c => is_word c | None => false end).

Definition first_char (s : string) : option ascii :=
  match s with
  | EmptyString => None
  | String c _ => Some c
  end.

(** [(?!\d)] at the start of [s]. *)
Definition not_followed_by_digit (s : string) : bool :=
  match s with
  | EmptyString => true
  | String c _ => negb (Str.is_digit c)
  end.

(** [(\d{3})+(?!\d)] matches at the start of [s]: some number of groups
    of three digits, at least one, after which no digit follows. *)
Fixpoint groups_of_three (s : string) : bool :=
  match s with
  | String a (String b (String c r)) =>
      Str.is_digit a && Str.is_digit b && Str.is_digit c
      && (not_followed_by_digit r || groups_of_three r)
  | _ => false
  end.

(** [s.replace(/\B(?=(\d{3})+(?!\d))/g, ',')].  The pattern matches the
    empty string only, so every position of the subject is tried once
    and a comma is put where the pattern matches; [prev] is the
    character before the position. *)
Fixpoint insertSeparators (prev : option ascii) (s : string) : string :=
  let here :=
    if not_word_boundary prev (first_char s) && groups_of_three s
    then "," else "" in
  match s with
  | EmptyString => here
  | String c s' => here ++ String c (insertSeparators (Some c) s')
  end.

(** [s.split('.')] *)
Fixpoint split_dot (s : string) : list string :=
  match s with
  | EmptyString => [""]
  | String c s' =>
      if Str.is_dot c then "" :: split_dot s'
      else
        match split_dot s' with
        | p :: ps => String c p :: ps
        | [] => [String c ""]
        end
  end.

(** [formatNumberWithCommas(value, precision)], for a [precision] that
    is a natural number, as the precisions of [CURRENCIES] are. *)
Definition formatNumberWithCommas (value : string) (precision : nat)
  : string :=
  if negb (Str.truthy value) then ""
  else
    let parts := split_dot (stripCommas value) in
    let part0 := insertSeparators None (nth 0 parts "") in
    if (1 <? List.length parts)%nat
    then part0 ++ "." ++ substring 0 precision (nth 1 parts "")
    else part0.

(** ** Values derived in the render *)

Definition formattedSendAmount (st : State) : string :=
  formatNumberWithCommas (sendAmount st)
    (precision (CURRENCIES (sendCurrency st))).

Definition formattedReceiveAmount (st : State) : string :=
  formatNumberWithCommas (receiveAmount st)
    (precision (CURRENCIES (receiveCurrency st))).

Definition sendUsdValue (st : State) : number :=
  match sendCurrency st with
  | USDT => parseFloat (orZero (sendAmount st))
  | ETH => mul (parseFloat (orZero (sendAmount st))) RATES.ETH_TO_USDT
  end.

Definition receiveUsdValue (st : State) : number :=
  match receiveCurrency st with
  | USDT => parseFloat (orZero (receiveAmount st))
  | ETH => mul (parseFloat (orZero (receiveAmount st))) RATES.ETH_TO_USDT
  end.

Definition currentRate (st : State) : number :=
  match sendCurrency st with
  | ETH => RATES.ETH_TO_USDT
  | USDT => div (literal 1) RATES.USDT_TO_ETH
  end.

(* ================================================================== *)
(** * [src/components/crypto-exchange.tsx]: the earlier component *)
(* ================================================================== *)

(** The file holds a second, earlier [CryptoExchange] after the first:
    no comma formatting, no effects, currencies kept as display names,
    and two hand-written rates. *)
Module Legacy.

Definition ethIcon : string := "/crypto-icons/eth.png".
Definition usdtIcon : string := "/crypto-icons/usdt.png".

Record State : Type := mkState {
  sendAmount : string;
  receiveAmount : string;
  sendCurrency : string;
  receiveCurrency : string;
  sendIcon : string;
  receiveIcon : string;
  sendError : string;
  receiveError : string
}.

Definition initialState : State :=
  {| sendAmount := "1.00";
     receiveAmount := "2184.33";
     sendCurrency := "Ethereum";
     receiveCurrency := "USDT";
     sendIcon := ethIcon;
     receiveIcon := usdtIcon;
     sendError := "";
     receiveError := "" |}.

Definition ethPrice : number := literal (218433 # 100).
Definition usdtToEthRate : number := literal (46 # 100000).
Definition maxEthBalance : number := literal (298 # 100).

Definition handleSendAmountChange (st : State) (value : string) : State :=
  if negb (isNumericInput value) then
    {| sendAmount := sendAmount st;
       receiveAmount := receiveAmount st;
       sendCurrency := sendCurrency st;
       receiveCurrency := receiveCurrency st;
       sendIcon := sendIcon st;
       receiveIcon := receiveIcon st;
       sendError := ERROR_MESSAGES.NUMBERS_ONLY;
       receiveError := receiveError st |}
  else if Str.truthy value && negb (isWithinBalance value maxEthBalance) then
    {| sendAmount := sendAmount st;
       receiveAmount := receiveAmount st;
       sendCurrency := sendCurrency st;
       receiveCurrency := receiveCurrency st;
       sendIcon := sendIcon st;
       receiveIcon := receiveIcon st;
       sendError := ERROR_MESSAGES.INSUFFICIENT_ETH;
       receiveError := receiveError st |}
  else
    {| sendAmount := value;
       receiveAmount :=
         if Str.truthy value
         then toFixed (mul (parseFloat value) ethPrice) 4
         else "";
       sendCurrency := sendCurrency st;
       receiveCurrency := receiveCurrency st;
       sendIcon := sendIcon st;
       receiveIcon := receiveIcon st;
       sendError := "";
       receiveError := receiveError st |}.

Definition handleReceiveAmountChange (st : State) (value : string)
  : State :=
  if negb (isNumericInput value) then
    {| sendAmount := sendAmount st;
       receiveAmount := receiveAmount st;
       sendCurrency := sendCurrency st;
       receiveCurrency := receiveCurrency st;
       sendIcon := sendIcon st;
       receiveIcon := receiveIcon st;
       sendError := sendError st;
       receiveError := ERROR_MESSAGES.NUMBERS_ONLY |}
  else if Str.truthy value then
    let calculatedSendAmount :=
      toFixed (mul (parseFloat value) usdtToEthRate) 4 in
    {| sendAmount := calculatedSendAmount;
       receiveAmount := value;
       sendCurrency := sendCurrency st;
       receiveCurrency := receiveCurrency st;
       sendIcon := sendIcon st;
       receiveIcon := receiveIcon st;
       sendError :=
         if negb (isWithinBalance calculatedSendAmount maxEthBalance)
         then ERROR_MESSAGES.INSUFFICIENT_ETH
         else "";
       receiveError := "" |}
  else
    {| sendAmount := "";
       receiveAmount := value;
       sendCurrency := sendCurrency st;
       receiveCurrency := receiveCurrency st;
       sendIcon := sendIcon st;
       receiveIcon := receiveIcon st;
       sendError := "";
       receiveError := "" |}.

Definition handleSwap (st : State) : State :=
  if Str.truthy (sendError st) || Str.truthy (receiveError st) then st
  else
    {| sendAmount := receiveAmount st;
       receiveAmount := sendAmount st;
       sendCurrency := receiveCurrency st;
       receiveCurrency := sendCurrency st;
       sendIcon := receiveIcon st;
       receiveIcon := sendIcon st;
       sendError := sendError st;
       receiveError := receiveError st |}.

(** [handleConfirm] only writes to the console. *)
Definition handleConfirm (st : State) : State := st.

(** The [disabled] property of the confirm button. *)
Definition confirmDisabled (st : State) : bool :=
  Str.truthy (sendError st) || Str.truthy (receiveError st).

Inductive Event : Type :=
| ChangeSend (value : string)
| ChangeReceive (value : string)
| ClickSwap
| ClickConfirm.

Definition enabled (st : State) (ev : Event) : bool :=
  match ev with
  | ClickConfirm => negb (confirmDisabled st)
  | _ => true
  end.

Definition step (st : State) (ev : Event) : State :=
  match ev with
  | ChangeSend v => handleSendAmountChange st v
  | ChangeReceive v => handleReceiveAmountChange st v
  | ClickSwap => handleSwap st
  | ClickConfirm => handleConfirm st
  end.

Inductive Reachable : State -> Prop :=
| ReachInit : Reachable initialState
| ReachStep st ev :
    Reachable st -> enabled st ev = true -> Reachable (step st ev).

End Legacy.

(* ================================================================== *)
(** * Notions of the specification *)
(* ================================================================== *)

(** The format the specification describes: digits, an optional single
    decimal point, more digits (either run of digits may be empty). *)
Definition NumericFormat (s : string) : Prop :=
  exists a b : string,
    Str.all Str.is_digit a = true /\ Str.all Str.is_digit b = true /\
    (s = a ++ b \/ s = a ++ "." ++ b).

(** A character that is neither a digit nor the period: a letter or any
    other symbol. *)
Definition is_foreign (c : ascii) : bool :=
  negb (Str.is_digit c || Str.is_dot c).

Import Num Conv.

(** ** Decimal numerals and their values *)

Definition has_digit (s : string) : bool := Str.exists_ Str.is_digit s.

(** The digits before the decimal point. *)
Definition int_part (s : string) : string := fst (Str.span Str.is_digit s).

(** The digits after the decimal point (none without a point). *)
Definition frac_part (s : string) : string :=
  match snd (Str.span Str.is_digit s) with
  | String "." r => r
  | _ => ""
  end.

(** The first character, if any, is a digit or the period. *)
Definition plain_start (s : string) : Prop :=
  match s with
  | EmptyString => True
  | String c _ => Str.is_digit c = true \/ c = "."%char
  end.

(** The rational that an unsigned decimal numeral denotes. *)
Definition unsigned_value (s : string) : Q :=
  scale10 (digits_val (int_part s ++ frac_part s))
          (- Z.of_nat (String.length (frac_part s))).

(** The rational that a decimal numeral with an optional minus sign
    denotes. *)
Definition decimal_value (s : string) : Q :=
  match s with
  | String "-" u => (- unsigned_value u)%Q
  | _ => unsigned_value s
  end.

(** [s] is a fixed-point numeral with exactly [p] fractional digits:
    an optional minus sign, at least one digit, a point, [p] digits. *)
Definition FixedNumeral (s : string) (p : nat) : Prop :=
  exists (neg : bool) (a b : string),
    s = (if neg then "-" else "") ++ a ++ "." ++ b /\
    Str.all Str.is_digit a = true /\ a <> "" /\
    Str.all Str.is_digit b = true /\ String.length b = p.

(** [10^p] as a rational. *)
Definition pow10 (p : nat) : Q := inject_Z (10 ^ Z.of_nat p).

(** [q] is a multiple of [10^-p] nearest to [v]. *)
Definition NearestAt (p : nat) (v q : Q) : Prop :=
  (exists n : Z, q * pow10 p == inject_Z n)%Q /\
  (Qabs (q - v) * pow10 p <= 1 # 2)%Q.

(** The integer part of a rational, rounding towards zero. *)
Definition Qtruncate (q : Q) : Z := Z.quot (Qnum q) (Zpos (Qden q)).

(** [v] cut off after [p] fractional digits (towards zero). *)
Definition truncateAt (p : nat) (v : Q) : Q :=
  (inject_Z (Qtruncate (v * pow10 p)) / pow10 p)%Q.

(** The number that [calculateExchangeAmount] formats: the parsed amount
    times the rate of the direction. *)
Definition exchanged (amount : string) (fromCurrency toCurrency : CurrencyKey)
  : number :=
  mul (parseFloat amount) (rate fromCurrency toCurrency).

(** Conversion there and back again. *)
Definition roundTrip (amount : string) (a b : CurrencyKey) : string :=
  calculateExchangeAmount (calculateExchangeAmount amount a b) b a.

(** One unit of the last place of an asset's precision; rounding to the
    precision moves a value by at most half of it. *)
Definition tolerance (c : CurrencyKey) : Q :=
  (1 / pow10 (precision (CURRENCIES c)))%Q.

(** The balance error for an asset. *)
Definition insufficientBalance (c : CurrencyKey) : string :=
  match c with
  | ETH => ERROR_MESSAGES.INSUFFICIENT_ETH
  | USDT => ERROR_MESSAGES.INSUFFICIENT_USDT
  end.

(** [sub] occurs in [s]. *)
Definition mentions (s sub : string) : bool :=
  match index 0 sub s with Some _ => true | None => false end.

(** ** Predicates on states *)

(** The two sides hold the two different assets. *)
Definition DistinctPair (st : State) : Prop :=
  (sendCurrency st = ETH /\ receiveCurrency st = USDT) \/
  (sendCurrency st = USDT /\ receiveCurrency st = ETH).

(** The errors a field can show: none, the format error, or (send side
    only) the balance error of the send asset. *)
Definition KnownErrors (st : State) : Prop :=
  (sendError st = "" \/ sendError st = ERROR_MESSAGES.NUMBERS_ONLY \/
   sendError st = insufficientBalance (sendCurrency st)) /\
  (receiveError st = "" \/ receiveError st = ERROR_MESSAGES.NUMBERS_ONLY).

(** The confirm control is enabled: the form is shown and the button is
    not disabled. *)
Definition confirmEnabled (st : State) : bool :=
  negb (isSuccess st) && negb (confirmDisabled st).

(** ** Predicates on numbers *)

(** A number other than NaN whose mantissa, if it is finite, has at most
    53 bits. *)
Definition canonical (x : number) : Prop :=
  match x with
  | S754_finite _ m _ => (Zpos m < 2 ^ 53)%Z
  | S754_nan => False
  | _ => True
  end.

(** The number is an integer. *)
Definition Integral (x : number) : Prop :=
  is_finite x = true /\ exists n : Z, (val x == inject_Z n)%Q.

(** Case analysis on the next conditional of the goal. *)
Ltac break_if :=
  match goal with
  | |- context [if ?b then _ else _] => destruct b eqn:?
  | |- context [let '(_, _) := ?p in _] => destruct p eqn:?
  end.

(** ** Thousands separators *)

(** A run of digits written with a comma before every group of three
    digits counted from the right, and none in front. *)
Fixpoint withSeparators (s : string) : string :=
  match s with
  | EmptyString => EmptyString
  | String c r =>
      String c
        ((if (0 <? String.length r)%nat && (String.length r mod 3 =? 0)%nat
          then "," else "") ++ withSeparators r)
  end.

(** [formatNumberWithCommas] after its test for the empty string and
    its removal of the commas. *)
Definition formatted (w : string) (p : nat) : string :=
  let parts := split_dot w in
  let part0 := insertSeparators None (nth 0 parts "") in
  if (1 <? List.length parts)%nat
  then part0 ++ "." ++ substring 0 p (nth 1 parts "")
  else part0.

(** ** Editing *)

(** [s] is [t] with some of its characters deleted. *)
Inductive Subsequence : string -> string -> Prop :=
| SubNil : Subsequence "" ""
| SubSkip c s t : Subsequence s t -> Subsequence s (String c t)
| SubKeep c s t : Subsequence s t -> Subsequence (String c s) (String c t).

(** A character that a change handler lets through: a digit, the period
    or the comma. *)
Definition is_amount_char (c : ascii) : bool :=
  Str.is_digit c || Str.is_dot c || Str.is_comma c.

(** ** Rounding *)

(** The mantissa and the exponent that [round_pos] computes, before it
    looks at the range of the exponent. *)
Definition round_core (p d : Z) : Z * Z :=
  let e := exponent_of p d in
  let '(n, m) := scaled p d e in
  let k := div_nearest_even n m in
  if k =? 2 ^ 53 then (2 ^ 52, e + 1) else (k, e).

(** A number that is not negative and not NaN: [+0], a positive finite
    number or [+Infinity]. *)
Definition Nonneg (x : number) : Prop :=
  match x with
  | S754_zero false | S754_finite false _ _ | S754_infinity false => True
  | _ => False
  end.

(** [x <= y] for two such numbers, [+Infinity] being the largest. *)
Definition Below (x y : number) : Prop :=
  Nonneg x /\ Nonneg y /\
  (y = S754_infinity false \/
   (is_finite x = true /\ is_finite y = true /\ (val x <= val y)%Q)).

(** ** Balances *)

(** The balance of an asset as the decimal number of the source text. *)
Definition decimalBalance (c : CurrencyKey) : Q :=
  match c with
  | ETH => 298 # 100
  | USDT => 10000
  end.

(** A decimal number just above the balance: 2.980000000000001 for ETH
    and 10000.00000000001 for USDT. *)
Definition aboveBalance (c : CurrencyKey) : Q :=
  match c with
  | ETH => 2980000000000001 # 1000000000000000
  | USDT => 1000000000000001 # 100000000000
  end.

(** ** Values shown by the form *)

(** The USD equivalent that the form computes for an amount of an
    asset. *)
Definition usdValue (c : CurrencyKey) (amount : string) : number :=
  match c with
  | USDT => parseFloat (orZero amount)
  | ETH => mul (parseFloat (orZero amount)) RATES.ETH_TO_USDT
  end.

(** An amount of the asset so small that its conversion to the other
    asset rounds to zero: 0.000002 ETH is less than half a cent of
    USDT, and 0.1 USDT is less than half of 0.0001 ETH. *)
Definition dustLimit (c : CurrencyKey) : Q :=
  match c with
  | ETH => 2 # 1000000
  | USDT => 1 # 10
  end.

(** The other asset. *)
Definition other (c : CurrencyKey) : CurrencyKey :=
  match c with ETH => USDT | USDT => ETH end.

(** A character at which a decimal literal ends: not a digit, not the
    period, and not the letter that starts an exponent. *)
Definition is_terminator (c : ascii) : bool :=
  negb (Str.is_digit c || Str.is_dot c || Ascii.eqb c "e" || Ascii.eqb c "E").

(** What the form can show as estimated time: the text NaN, or a whole
    number of minutes between 5 and 30. *)
Definition EstimateShown (x : number) : Prop :=
  isNaN x = true \/
  exists n : Z,
    (5 <= n <= 30)%Z /\ is_finite x = true /\ (val x == inject_Z n)%Q.

(** ** Two forms on which the swap button is clicked *)

(** The form after a click on swap and the edit 2.98001 of the receive
    field: 6509.33 USDT are sent for 2.98001 ETH. *)
Definition largeOrder : State :=
  step (step (mount (literal (1 # 2))) (ClickSwap (literal (1 # 2))))
    (ChangeReceive "2.98001" (literal (1 # 2))).

(** The form after the edit 0.001 of the send field: 0.001 ETH are sent
    for 2.18 USDT. *)
Definition smallOrder : State :=
  step (mount (literal (1 # 2))) (ChangeSend "0.001" (literal (1 # 2))).

(** The value from which an estimate for the amounts that a form
    displays is computed: the larger of the two USD equivalents. *)
Definition displayedValue (st : State) : number :=
  max (sendUsdValue st) (receiveUsdValue st).

(** ** The earlier component *)

(** Each side shows the icon of the currency it names, and the two
    sides name the two currencies. *)
Definition LegacyPaired (st : Legacy.State) : Prop :=
  (Legacy.sendCurrency st = "Ethereum" /\ Legacy.sendIcon st = Legacy.ethIcon /\
   Legacy.receiveCurrency st = "USDT" /\
   Legacy.receiveIcon st = Legacy.usdtIcon) \/
  (Legacy.sendCurrency st = "USDT" /\ Legacy.sendIcon st = Legacy.usdtIcon /\
   Legacy.receiveCurrency st = "Ethereum" /\
   Legacy.receiveIcon st = Legacy.ethIcon).

(* ================================================================== *)
(** * Lemmas and theorems *)
(* ================================================================== *)

Module StrFacts.
Import Str.

Lemma append_nil_r (s : string) : s ++ "" = s.
Proof. induction s; simpl; congruence. Qed.

Lemma append_assoc (a b c : string) : (a ++ b) ++ c = a ++ (b ++ c).
Proof. induction a; simpl; congruence. Qed.

Lemma append_eq_nil (a b : string) : a ++ b = "" -> a = "" /\ b = "".
Proof. destruct a; simpl; [auto | discriminate]. Qed.

Lemma all_app p (a b : string) : all p (a ++ b) = all p a && all p b.
Proof. induction a; simpl; [reflexivity|]. rewrite IHa. apply andb_assoc. Qed.

Lemma count_app p (a b : string) :
  count p (a ++ b) = (count p a + count p b)%nat.
Proof. induction a; simpl; [reflexivity|]. rewrite IHa. lia. Qed.

Lemma exists_app p (a b : string) :
  exists_ p (a ++ b) = exists_ p a || exists_ p b.
Proof. induction a; simpl; [reflexivity|]. rewrite IHa. apply orb_assoc. Qed.

Lemma truthy_false (s : string) : truthy s = false <-> s = "".
Proof. destruct s; simpl; split; congruence. Qed.

Lemma truthy_true (s : string) : truthy s = true <-> s <> "".
Proof. destruct s; simpl; split; congruence. Qed.

Lemma all_count_zero p q (s : string) :
  (forall c, p c = true -> q c = false) ->
  all p s = true -> count q s = O.
Proof.
  intros Hpq. induction s; simpl; [reflexivity|].
  intros H. apply andb_prop in H as [Ha Hs].
  rewrite (Hpq _ Ha), (IHs Hs). reflexivity.
Qed.

End StrFacts.

Module RegexFacts.
Import Regex StrFacts.

Lemma cat_inv (r1 r2 : t) (s : string) :
  Matches (Cat r1 r2) s ->
  exists s1 s2, s = s1 ++ s2 /\ Matches r1 s1 /\ Matches r2 s2.
Proof. intros H. inversion H; subst. eauto. Qed.

Lemma nullable_spec (r : t) : nullable r = true <-> Matches r "".
Proof.
  induction r; simpl.
  - split; [discriminate | intros H; inversion H].
  - split; [constructor | reflexivity].
  - split; [discriminate | intros H; inversion H].
  - rewrite andb_true_iff, IHr1, IHr2. split.
    + intros [H1 H2]. change "" with ("" ++ ""). now constructor.
    + intros H. apply cat_inv in H as (s1 & s2 & E & H1 & H2).
      symmetry in E. apply append_eq_nil in E as [-> ->]. auto.
  - rewrite orb_true_iff, IHr1, IHr2. split.
    + intros [H|H]; [now apply MAltL | now apply MAltR].
    + intros H. inversion H; subst; auto.
  - split; [constructor | reflexivity].
Qed.

(** A match of [Star r] against a non-empty subject starts with a
    non-empty match of [r]. *)
Lemma star_cons_inv (r : t) (s : string) :
  Matches (Star r) s ->
  forall c s', s = String c s' ->
  exists s1 s2, s' = s1 ++ s2 /\ Matches r (String c s1) /\ Matches (Star r) s2.
Proof.
  intros H. remember (Star r) as r' eqn:Er.
  induction H; try discriminate; injection Er as ->.
  intros c s' E. destruct s1 as [|c1 s1]; simpl in E.
  - now apply IHMatches2.
  - injection E as -> <-. now exists s1, s2.
Qed.

Lemma deriv_spec (r : t) :
  forall c s, Matches (deriv c r) s <-> Matches r (String c s).
Proof.
  induction r; intros c s; simpl.
  - split; intros H; inversion H.
  - split; intros H; inversion H.
  - destruct (b c) eqn:Eb; split; intros H.
    + inversion H; subst. now constructor.
    + inversion H; subst. constructor.
    + inversion H.
    + inversion H; subst. congruence.
  - assert (Hcat : Matches (Cat (deriv c r1) r2) s ->
                   Matches (Cat r1 r2) (String c s)).
    { intros H. apply cat_inv in H as (s1 & s2 & -> & H1 & H2).
      apply IHr1 in H1. change (String c (s1 ++ s2)) with (String c s1 ++ s2).
      now constructor. }
    assert (Hinv : Matches (Cat r1 r2) (String c s) ->
                   Matches (Cat (deriv c r1) r2) s \/
                   (Matches r1 "" /\ Matches r2 (String c s))).
    { intros H. apply cat_inv in H as (s1 & s2 & E & H1 & H2).
      destruct s1 as [|c1 s1]; simpl in E.
      - right. subst. auto.
      - left. injection E as -> ->. constructor; [now apply IHr1 | assumption]. }
    destruct (nullable r1) eqn:En; split; intros H.
    + inversion H; subst; [now apply Hcat|].
      change (String c s) with ("" ++ String c s). constructor.
      * now apply nullable_spec.
      * now apply IHr2.
    + apply Hinv in H as [H|[_ H]]; [now apply MAltL|].
      apply MAltR. now apply IHr2.
    + now apply Hcat.
    + apply Hinv in H as [H|[H _]]; [assumption|].
      apply nullable_spec in H. congruence.
  - split; intros H; inversion H; subst.
    + apply MAltL. now apply IHr1.
    + apply MAltR. now apply IHr2.
    + apply MAltL. now apply IHr1.
    + apply MAltR. now apply IHr2.
  - split; intros H.
    + apply cat_inv in H as (s1 & s2 & -> & H1 & H2).
      apply IHr in H1. change (String c (s1 ++ s2)) with (String c s1 ++ s2).
      now constructor.
    + destruct (star_cons_inv _ _ H c s eq_refl) as (s1 & s2 & -> & H1 & H2).
      constructor; [now apply IHr | assumption].
Qed.

(** The matcher decides the language of the pattern. *)
Lemma test_spec (r : t) (s : string) : test r s = true <-> Matches r s.
Proof.
  revert r. induction s as [|c s IH]; intros r; simpl.
  - apply nullable_spec.
  - rewrite IH. apply deriv_spec.
Qed.

Lemma star_class_all p (s : string) :
  Matches (Star (Class p)) s <-> Str.all p s = true.
Proof.
  split.
  - intros H. remember (Star (Class p)) as r eqn:Er.
    induction H; try discriminate; injection Er as ->; [reflexivity|].
    inversion H as [|? c Hc| | | | |]; subst. simpl. rewrite Hc. simpl. auto.
  - induction s as [|c s IH]; simpl; intros H; [constructor|].
    apply andb_prop in H as [Hc Hs].
    change (String c s) with (String c "" ++ s).
    constructor; [now constructor | auto].
Qed.

End RegexFacts.

Import StrFacts RegexFacts.

Section NumericInput.

Lemma dot_not_digit (c : ascii) : Str.is_digit c = true -> Str.is_dot c = false.
Proof.
  unfold Str.is_dot. destruct (Ascii.eqb_spec c "."); [|reflexivity].
  subst. discriminate.
Qed.

Lemma numericPattern_spec (s : string) :
  Regex.test numericPattern s = true <-> NumericFormat s.
Proof.
  rewrite test_spec. unfold numericPattern, NumericFormat, Regex.Opt. split.
  - intros H. apply cat_inv in H as (a & t & -> & Ha & H).
    apply cat_inv in H as (o & b & -> & Ho & Hb).
    apply star_class_all in Ha, Hb. exists a, b. repeat split; trivial.
    inversion Ho as [| | |? ? ? Hc|? ? ? He| |]; subst.
    + inversion Hc as [|? c Hd| | | | |]; subst. right.
      unfold Str.is_dot in Hd. apply Ascii.eqb_eq in Hd. subst. reflexivity.
    + inversion He; subst. left. reflexivity.
  - intros (a & b & Ha & Hb & [-> | ->]).
    + constructor; [now apply star_class_all|].
      change b with ("" ++ b). constructor; [|now apply star_class_all].
      apply Regex.MAltR. constructor.
    + constructor; [now apply star_class_all|].
      constructor; [|now apply star_class_all].
      apply Regex.MAltL. now constructor.
Qed.

Lemma isNumericInput_spec (s : string) :
  isNumericInput s = true <-> s = "" \/ NumericFormat s.
Proof.
  unfold isNumericInput. destruct s as [|c s]; simpl Str.truthy; cbv iota.
  - split; auto.
  - change (negb true) with false. cbv iota. rewrite numericPattern_spec.
    split; [auto | intros [H|H]; [discriminate | assumption]].
Qed.

Lemma NumericFormat_chars (s : string) :
  NumericFormat s ->
  Str.exists_ is_foreign s = false /\ (Str.count Str.is_dot s <= 1)%nat.
Proof.
  assert (Hd : forall a, Str.all Str.is_digit a = true ->
               Str.exists_ is_foreign a = false /\ Str.count Str.is_dot a = O).
  { intros a Ha. split.
    - induction a as [|c a IH]; simpl in *; [reflexivity|].
      apply andb_prop in Ha as [Hc Ha]. rewrite (IH Ha).
      unfold is_foreign. rewrite Hc. reflexivity.
    - apply (all_count_zero Str.is_digit); [apply dot_not_digit | assumption]. }
  intros (a & b & Ha & Hb & [-> | ->]);
    destruct (Hd a Ha) as [Ea Ca]; destruct (Hd b Hb) as [Eb Cb].
  - rewrite exists_app, count_app, Ea, Eb, Ca, Cb. split; [reflexivity | lia].
  - rewrite exists_app, count_app. simpl. rewrite Ea, Eb, Ca, Cb.
    split; [reflexivity | simpl; lia].
Qed.

Lemma validateAmount_NUMBERS_ONLY (s : string) (cur : CurrencyKey) :
  validateAmount s cur = ERROR_MESSAGES.NUMBERS_ONLY <->
  isNumericInput s = false.
Proof.
  unfold validateAmount. destruct (isNumericInput s); simpl.
  - split; [|discriminate].
    destruct (Str.truthy s && _); [destruct cur|]; discriminate.
  - split; reflexivity.
Qed.

End NumericInput.

(** C5.  [isNumericInput] accepts a string exactly when it is empty or
    has the form "digits, optional single decimal point, more digits";
    a string that contains a letter or a symbol other than a digit or
    the period, or more than one decimal point, is rejected and
    [validateAmount] answers with the "numbers only" error. *)
Theorem isNumericInput_accepts_exactly_numeric_format :
  (forall s : string,
      isNumericInput s = true <-> s = "" \/ NumericFormat s) /\
  (forall (s : string) (cur : CurrencyKey),
      Str.exists_ is_foreign s = true \/ (2 <= Str.count Str.is_dot s)%nat ->
      isNumericInput s = false /\
      validateAmount s cur = ERROR_MESSAGES.NUMBERS_ONLY).
Proof.
  split; [exact isNumericInput_spec|].
  intros s cur Hbad.
  assert (Hrej : isNumericInput s = false).
  { destruct (isNumericInput s) eqn:E; [|reflexivity].
    apply isNumericInput_spec in E as [-> | Hf].
    - simpl in Hbad. destruct Hbad; [discriminate | lia].
    - apply NumericFormat_chars in Hf as [He Hc].
      destruct Hbad; [congruence | lia]. }
  split; [assumption | now apply validateAmount_NUMBERS_ONLY].
Qed.

Module NumFacts.
Import Num.

(** The conversion depends on the rational, not on its representation. *)
Lemma of_Q_compat (q q' : Q) : (q == q')%Q -> of_Q q = of_Q q'.
Proof. intros H. unfold of_Q. now rewrite (Qred_complete _ _ H). Qed.

Lemma round_pos_not_nan s p d : isNaN (round_pos s p d) = false.
Proof.
  unfold round_pos.
  destruct (scaled _ _ _) as [n m].
  destruct (div_nearest_even n m =? 2 ^ 53).
  - cbv zeta iota beta. change (2 ^ 52) with 4503599627370496.
    cbv iota. destruct (_ <=? _); reflexivity.
  - cbv zeta iota beta. destruct (div_nearest_even n m); try reflexivity.
    destruct (_ <=? _); reflexivity.
Qed.

Lemma of_Q_not_nan (q : Q) : isNaN (of_Q q) = false.
Proof.
  unfold of_Q. destruct (Qnum (Qred q)); [reflexivity | |];
    apply round_pos_not_nan.
Qed.

End NumFacts.

Module ConvFacts.
Import Num Conv StrFacts NumFacts.

(** ** Digits *)

Lemma digits_val_acc_app (a b : string) (acc : Z) :
  digits_val_acc acc (a ++ b) = digits_val_acc (digits_val_acc acc a) b.
Proof. revert acc. induction a; intros acc; simpl; auto. Qed.

Lemma digits_val_acc_shift (a : string) (acc : Z) :
  digits_val_acc acc a
  = acc * 10 ^ Z.of_nat (String.length a) + digits_val a.
Proof.
  unfold digits_val. revert acc. induction a as [|c a IH]; intros acc.
  - simpl. lia.
  - cbn [digits_val_acc String.length]. rewrite IH, (IH (10 * 0 + _)).
    rewrite Nat2Z.inj_succ, Z.pow_succ_r by lia. ring.
Qed.

Lemma digits_val_app (a b : string) :
  digits_val (a ++ b)
  = digits_val a * 10 ^ Z.of_nat (String.length b) + digits_val b.
Proof.
  unfold digits_val at 1. rewrite digits_val_acc_app.
  now rewrite digits_val_acc_shift.
Qed.

Lemma digit_char_spec (d : Z) :
  0 <= d <= 9 ->
  Str.is_digit (digit_char d) = true /\ digit_val (digit_char d) = d.
Proof.
  intros H.
  assert (E : d = 0 \/ d = 1 \/ d = 2 \/ d = 3 \/ d = 4 \/ d = 5 \/ d = 6
              \/ d = 7 \/ d = 8 \/ d = 9) by lia.
  repeat (destruct E as [-> | E]; [split; reflexivity|]).
  subst; split; reflexivity.
Qed.

Lemma digit_val_range (c : ascii) :
  Str.is_digit c = true -> 0 <= digit_val c <= 9.
Proof.
  unfold Str.is_digit, digit_val. intros H.
  apply andb_prop in H as [H1 H2].
  apply Nat.leb_le in H1, H2. lia.
Qed.

Lemma digits_val_nonneg (a : string) :
  Str.all Str.is_digit a = true -> 0 <= digits_val a.
Proof.
  unfold digits_val.
  assert (H : forall acc, 0 <= acc -> Str.all Str.is_digit a = true ->
                          0 <= digits_val_acc acc a).
  { induction a as [|c a IH]; intros acc Hacc Ha;
      cbn [digits_val_acc Str.all] in *; [assumption|].
    apply andb_prop in Ha as [Hc Ha]. apply IH; [|assumption].
    pose proof (digit_val_range c Hc) as Hr. lia. }
  apply H. lia.
Qed.

Lemma length_app (a b : string) :
  String.length (a ++ b) = (String.length a + String.length b)%nat.
Proof. induction a; simpl; auto. Qed.

(** What the digit loop produces. *)
Lemma digits_of_acc_spec (fuel : nat) :
  forall (n : Z) (acc : string),
    0 <= n < 2 ^ (Z.of_nat fuel + 1) ->
    exists d : string,
      digits_of_acc fuel n acc = d ++ acc /\
      Str.all Str.is_digit d = true /\ d <> "" /\ digits_val d = n.
Proof.
  induction fuel as [|fuel IH]; intros n acc Hn.
  - simpl in Hn. exists (String (digit_char (n mod 10)) "").
    assert (Hm : n mod 10 = n) by (apply Z.mod_small; lia).
    destruct (digit_char_spec (n mod 10)) as [Hd Hv]; [lia|].
    cbn [digits_of_acc]. repeat split.
    + simpl. now rewrite Hd.
    + discriminate.
    + unfold digits_val. simpl. rewrite Hv. lia.
  - cbn [digits_of_acc].
    destruct (digit_char_spec (n mod 10)) as [Hd Hv].
    { pose proof (Z.mod_pos_bound n 10). lia. }
    destruct (n / 10 =? 0) eqn:Eq.
    + apply Z.eqb_eq in Eq. exists (String (digit_char (n mod 10)) "").
      repeat split.
      * simpl. now rewrite Hd.
      * discriminate.
      * unfold digits_val. simpl. rewrite Hv.
        pose proof (Z.div_mod n 10). lia.
    + destruct (IH (n / 10) (String (digit_char (n mod 10)) acc))
        as (d & E & Hall & Hne & Hval).
      { split; [apply Z.div_pos; lia|].
        apply Z.div_lt_upper_bound; [lia|].
        rewrite Nat2Z.inj_succ in Hn.
        replace (Z.succ (Z.of_nat fuel) + 1) with (Z.succ (Z.of_nat fuel + 1)) in Hn by lia.
        rewrite Z.pow_succ_r in Hn by lia. lia. }
      exists (d ++ String (digit_char (n mod 10)) "").
      repeat split.
      * rewrite E, append_assoc. reflexivity.
      * rewrite all_app, Hall. simpl. now rewrite Hd.
      * destruct d; discriminate.
      * rewrite digits_val_app, Hval.
        unfold digits_val at 1. simpl. rewrite Hv.
        pose proof (Z.div_mod n 10). lia.
Qed.

Lemma digits_of_spec (n : Z) :
  0 <= n ->
  Str.all Str.is_digit (digits_of n) = true /\ digits_of n <> "" /\
  digits_val (digits_of n) = n.
Proof.
  intros Hn. unfold digits_of.
  destruct (digits_of_acc_spec (Z.to_nat (Z.log2 n)) n "") as (d & E & H).
  - split; [assumption|]. rewrite Z2Nat.id by apply Z.log2_nonneg.
    destruct (Z.eq_dec n 0) as [-> | Hz]; [reflexivity|].
    apply Z.log2_spec. lia.
  - rewrite E, append_nil_r. exact H.
Qed.

Lemma digits_val_zeros (k : nat) (m : string) :
  digits_val (Str.repeat "0" k ++ m) = digits_val m.
Proof.
  rewrite digits_val_app.
  assert (H : digits_val (Str.repeat "0" k) = 0).
  { unfold digits_val. induction k; simpl; auto. }
  rewrite H. lia.
Qed.

Lemma all_digit_zeros (k : nat) : Str.all Str.is_digit (Str.repeat "0" k) = true.
Proof. induction k; simpl; auto. Qed.

Lemma length_repeat c (k : nat) : String.length (Str.repeat c k) = k.
Proof. induction k; simpl; auto. Qed.

(** ** Cutting a string in two *)

Lemma substring_split (i : nat) (m : string) :
  (i <= String.length m)%nat ->
  substring 0 i m ++ substring i (String.length m - i) m = m /\
  String.length (substring 0 i m) = i /\
  String.length (substring i (String.length m - i) m) = (String.length m - i)%nat.
Proof.
  revert m. induction i as [|i IH]; intros m Hi.
  - rewrite Nat.sub_0_r.
    assert (H : forall s, substring 0 (String.length s) s = s).
    { induction s; simpl; congruence. }
    assert (H0 : forall s, substring 0 0 s = "").
    { destruct s; reflexivity. }
    rewrite H0, H. simpl. auto.
  - destruct m as [|c m]; simpl in Hi; [lia|].
    destruct (IH m) as (E & L1 & L2); [lia|].
    cbn [substring String.length Nat.sub]. simpl.
    rewrite E, L1, L2. auto.
Qed.

Lemma all_app_inv p (a b : string) :
  Str.all p (a ++ b) = true -> Str.all p a = true /\ Str.all p b = true.
Proof. rewrite all_app. apply andb_prop. Qed.

(** ** Scanning *)

Lemma span_all_app p (a r : string) :
  Str.all p a = true ->
  match r with EmptyString => True | String c _ => p c = false end ->
  Str.span p (a ++ r) = (a, r).
Proof.
  intros Ha Hr. induction a as [|c a IH]; simpl in *.
  - destruct r as [|c r]; simpl; [reflexivity|]. now rewrite Hr.
  - apply andb_prop in Ha as [Hc Ha]. now rewrite Hc, IH.
Qed.

End ConvFacts.

Module ParseFacts.
Import Num Conv StrFacts NumFacts ConvFacts.

Lemma parseFloat_plain (s : string) :
  plain_start s ->
  parseFloat s =
  match parse_unsigned s with
  | None => NaN
  | Some MVinfinity => S754_infinity false
  | Some (MVrational q) => of_Q q
  end.
Proof.
  destruct s as [|c s]; intros H; [reflexivity|].
  unfold parseFloat. cbn [trim_start plain_start] in *.
  assert (Hw : is_white c = false).
  { destruct H as [H | ->]; [|reflexivity].
    unfold Str.is_digit in H. unfold is_white.
    apply andb_prop in H as [H1 H2]. apply Nat.leb_le in H1, H2.
    repeat rewrite orb_false_iff. repeat split.
    - apply andb_false_iff. right. apply Nat.leb_gt. lia.
    - apply Nat.eqb_neq. lia.
    - apply Nat.eqb_neq. lia. }
  rewrite Hw.
  assert (Hs : c <> "+"%char /\ c <> "-"%char).
  { destruct H as [H | ->]; [|split; discriminate].
    split; intros ->; discriminate. }
  destruct Hs as [Hp Hm].
  destruct c as [[] [] [] [] [] [] [] []]; try reflexivity; congruence.
Qed.

Lemma strip_Infinity_plain (s : string) :
  plain_start s -> strip_prefix "Infinity" s = None.
Proof.
  destruct s as [|c s]; intros H; [reflexivity|].
  cbn [strip_prefix]. destruct (Ascii.eqb_spec "I" c) as [<- | _]; [|reflexivity].
  destruct H; discriminate.
Qed.

(** A string of the numeric format that holds a digit parses to the
    number nearest to its decimal value. *)
Lemma parse_unsigned_numeric (a r : string) :
  Str.all Str.is_digit a = true ->
  (r = "" \/ exists b, r = String "." b /\ Str.all Str.is_digit b = true) ->
  has_digit (a ++ r) = true ->
  parse_unsigned (a ++ r) = Some (MVrational (unsigned_value (a ++ r))).
Proof.
  intros Ha Hr Hd.
  assert (Hps : plain_start (a ++ r)).
  { destruct a as [|c a]; simpl in *.
    - destruct Hr as [-> | (b & -> & _)]; simpl; auto.
    - apply andb_prop in Ha as [Hc _]. auto. }
  assert (Hspan : Str.span Str.is_digit (a ++ r) = (a, r)).
  { apply span_all_app; [assumption|].
    destruct Hr as [-> | (b & -> & _)]; [exact I | reflexivity]. }
  unfold parse_unsigned, unsigned_value, int_part, frac_part.
  rewrite (strip_Infinity_plain _ Hps), Hspan. cbn [fst snd].
  destruct Hr as [-> | (b & -> & Hb)].
  - assert (Ht : Str.truthy a = true).
    { rewrite append_nil_r in Hd. destruct a; [discriminate | reflexivity]. }
    rewrite Ht. cbn [orb]. reflexivity.
  - assert (Hsb : Str.span Str.is_digit b = (b, "")).
    { rewrite <- (append_nil_r b) at 1. now apply span_all_app. }
    rewrite Hsb.
    assert (Ht : Str.truthy a || Str.truthy b = true).
    { unfold has_digit in Hd. rewrite exists_app in Hd. simpl in Hd.
      destruct a; [|reflexivity]. destruct b; [discriminate | reflexivity]. }
    rewrite Ht. cbn [parse_exponent]. rewrite Ht.
    f_equal.
Qed.

Lemma NumericFormat_split (s : string) :
  NumericFormat s ->
  exists a r, s = a ++ r /\ Str.all Str.is_digit a = true /\
    (r = "" \/ exists b, r = String "." b /\ Str.all Str.is_digit b = true).
Proof.
  intros (a & b & Ha & Hb & [-> | ->]).
  - exists (a ++ b), "". rewrite append_nil_r, all_app, Ha, Hb. auto.
  - exists a, (String "." b). repeat split; eauto.
Qed.

Lemma NumericFormat_plain (s : string) : NumericFormat s -> plain_start s.
Proof.
  intros (a & b & Ha & Hb & [-> | ->]); destruct a as [|c a]; simpl in *.
  - destruct b as [|c b]; simpl in *; [exact I|].
    apply andb_prop in Hb as [Hc _]. auto.
  - apply andb_prop in Ha as [Hc _]. auto.
  - auto.
  - apply andb_prop in Ha as [Hc _]. auto.
Qed.

Lemma parseFloat_numeric (s : string) :
  NumericFormat s -> has_digit s = true ->
  parseFloat s = of_Q (unsigned_value s).
Proof.
  intros Hf Hd. rewrite parseFloat_plain by now apply NumericFormat_plain.
  destruct (NumericFormat_split s Hf) as (a & r & -> & Ha & Hr).
  now rewrite parse_unsigned_numeric.
Qed.

(** Without a digit (the empty string and ["."]) nothing parses. *)
Lemma parseFloat_no_digit (s : string) :
  NumericFormat s -> has_digit s = false -> parseFloat s = NaN.
Proof.
  intros (a & b & Ha & Hb & E) Hd.
  assert (a = "" /\ b = "") as [-> ->].
  { unfold has_digit in Hd.
    destruct E as [-> | ->]; rewrite exists_app in Hd;
      apply orb_false_iff in Hd as [H1 H2].
    - destruct a as [|c a]; simpl in *.
      + destruct b as [|c b]; simpl in *; [auto|].
        apply andb_prop in Hb as [Hc _]. rewrite Hc in H2. discriminate.
      + apply andb_prop in Ha as [Hc _]. rewrite Hc in H1. discriminate.
    - destruct a as [|c a]; simpl in *.
      + destruct b as [|c b]; simpl in *; [auto|].
        apply andb_prop in Hb as [Hc _]. rewrite Hc in H2. discriminate.
      + apply andb_prop in Ha as [Hc _]. rewrite Hc in H1. discriminate. }
  destruct E as [-> | ->]; reflexivity.
Qed.

End ParseFacts.

Module FixedFacts.
Import Num Conv StrFacts NumFacts ConvFacts ParseFacts.

Lemma pow10_pos (p : nat) : (0 < pow10 p)%Q.
Proof.
  unfold pow10. change 0%Q with (inject_Z 0). rewrite <- Zlt_Qlt.
  apply Z.pow_pos_nonneg; lia.
Qed.

(** The digits that [toFixed] prints. *)
Lemma toFixed_digits (x : number) (p : nat) :
  is_finite x = true ->
  Qle_bool (inject_Z (10 ^ 21)) (Qabs (val x)) = false ->
  let n := Qfloor (Qabs (val x) * inject_Z (10 ^ Z.of_nat (S p)) + (1 # 2)) in
  exists a b : string,
    toFixed x (S p)
    = (if Qlt_le_dec (val x) 0 then "-" else "") ++ a ++ "." ++ b /\
    Str.all Str.is_digit a = true /\ a <> "" /\
    Str.all Str.is_digit b = true /\ String.length b = S p /\
    digits_val (a ++ b) = n.
Proof.
  intros Hfin Hsmall n.
  assert (Hn : 0 <= n).
  { unfold n. change 0 with (Qfloor 0). apply Qfloor_resp_le.
    assert (H0 : (0 <= Qabs (val x))%Q) by apply Qabs_nonneg.
    assert (H1 : (0 < inject_Z (10 ^ Z.of_nat (S p)))%Q) by apply (pow10_pos (S p)).
    assert (H2 : (0 <= Qabs (val x) * inject_Z (10 ^ Z.of_nat (S p)))%Q).
    { apply Qmult_le_0_compat; [assumption | now apply Qlt_le_weak]. }
    lra. }
  destruct (digits_of_spec n Hn) as (Hall & Hne & Hval).
  set (m := digits_of n) in *.
  set (k := String.length m).
  set (m' := if (k <=? S p)%nat then Str.repeat "0" (S p + 1 - k) ++ m else m).
  assert (Hm' : Str.all Str.is_digit m' = true /\ digits_val m' = n /\
                (S p < String.length m')%nat).
  { unfold m'. destruct (k <=? S p)%nat eqn:Ek.
    - apply Nat.leb_le in Ek. rewrite all_app, all_digit_zeros, Hall.
      rewrite digits_val_zeros, length_app, length_repeat.
      fold k. repeat split; auto. lia.
    - apply Nat.leb_gt in Ek. fold k. auto. }
  destruct Hm' as (Hall' & Hval' & Hlen').
  set (k' := String.length m') in *.
  destruct (substring_split (k' - S p) m') as (Esplit & La & Lb); [fold k'; lia|].
  fold k' in Esplit, Lb.
  replace (k' - (k' - S p))%nat with (S p) in Esplit, Lb by lia.
  exists (substring 0 (k' - S p) m'), (substring (k' - S p) (S p) m').
  rewrite <- Esplit in Hall'. apply all_app_inv in Hall' as [Ha Hb].
  rewrite Esplit. repeat split; trivial.
  - unfold toFixed.
    assert (E : match x with
                | S754_nan => "NaN"
                | S754_infinity s => if s then "-Infinity" else "Infinity"
                | _ =>
                  let v := val x in
                  let neg := Qlt_le_dec v 0 in
                  let a := Qabs v in
                  let m0 :=
                    substring 0 (k' - S p) m' ++ "." ++ substring (k' - S p) (S p) m' in
                  if neg then "-" ++ m0 else m0
                end
                = (if Qlt_le_dec (val x) 0 then "-" else "") ++
                  substring 0 (k' - S p) m' ++ "." ++ substring (k' - S p) (S p) m').
    { destruct x; try discriminate; cbv zeta;
        destruct (Qlt_le_dec _ 0); reflexivity. }
    rewrite <- E. destruct x; try discriminate; cbv zeta; rewrite Hsmall; reflexivity.
  - intros E0. rewrite E0 in La. simpl in La. lia.
Qed.

End FixedFacts.

Module FixedValue.
Import Num Conv StrFacts NumFacts ConvFacts ParseFacts FixedFacts.

Lemma unsigned_value_fixed (a b : string) :
  Str.all Str.is_digit a = true -> Str.all Str.is_digit b = true ->
  b <> "" ->
  (unsigned_value (a ++ "." ++ b)
   == inject_Z (digits_val (a ++ b)) / pow10 (String.length b))%Q.
Proof.
  intros Ha Hb Hne. unfold unsigned_value, int_part, frac_part.
  rewrite (span_all_app Str.is_digit a ("." ++ b) Ha) by reflexivity.
  cbn [fst snd append].
  destruct b as [|c b]; [congruence|].
  set (l := String.length (String c b)).
  assert (Hl : Z.of_nat l = Z.pos (Pos.of_nat l)).
  { rewrite <- (Nat2Pos.id l) at 1 by (unfold l; simpl; lia).
    apply positive_nat_Z. }
  unfold pow10. rewrite Hl. cbn [Z.opp scale10].
  unfold Qeq, Qdiv, Qmult, Qinv, inject_Z. cbn [Qnum Qden].
  assert (Hp : 0 < Z.pos (10 ^ Pos.of_nat l)) by lia.
  rewrite Pos2Z.inj_pow.
  destruct (10 ^ Z.pos (Pos.of_nat l)) eqn:E; try lia.
  cbn [Qnum Qden]. rewrite Pos2Z.inj_mul. lia.
Qed.

(** The string that [toFixed] returns denotes the multiple of
    [10^-p] nearest to the number. *)
Lemma toFixed_nearest (x : number) (p : nat) :
  is_finite x = true ->
  Qle_bool (inject_Z (10 ^ 21)) (Qabs (val x)) = false ->
  FixedNumeral (toFixed x (S p)) (S p) /\
  NearestAt (S p) (val x) (decimal_value (toFixed x (S p))).
Proof.
  intros Hfin Hsmall.
  destruct (toFixed_digits x p Hfin Hsmall) as (a & b & E & Ha & Hna & Hb & Hlb & Hv).
  split.
  - exists (if Qlt_le_dec (val x) 0 then true else false), a, b.
    rewrite E. destruct (Qlt_le_dec (val x) 0); repeat split; trivial.
  - assert (Hbne : b <> "") by (destruct b; [discriminate | discriminate]).
    pose proof (unsigned_value_fixed a b Ha Hb Hbne) as Hu.
    rewrite Hlb, Hv in Hu. unfold NearestAt.
    set (T := pow10 (S p)) in *.
    assert (HT : (0 < T)%Q) by apply pow10_pos.
    set (n := Qfloor (Qabs (val x) * inject_Z (10 ^ Z.of_nat (S p)) + (1 # 2))) in *.
    assert (Hlo : (inject_Z n <= Qabs (val x) * T + (1 # 2))%Q) by apply Qfloor_le.
    assert (Hhi : (Qabs (val x) * T + (1 # 2) < inject_Z (n + 1))%Q)
      by apply Qlt_floor.
    rewrite inject_Z_plus in Hhi. change (inject_Z 1) with 1%Q in Hhi.
    assert (Hdec : (decimal_value (toFixed x (S p))
                    == (if Qlt_le_dec (val x) 0 then -1 else 1) * (inject_Z n / T))%Q).
    { rewrite E. destruct (Qlt_le_dec (val x) 0).
      - cbn [append decimal_value]. rewrite Hu. ring.
      - assert (Hd : decimal_value ("" ++ a ++ "." ++ b)
                     = unsigned_value (a ++ "." ++ b)).
        { destruct a as [|c a]; [congruence|].
          cbn [append decimal_value].
          cbn [Str.all] in Ha. apply andb_prop in Ha as [Hc _].
          destruct c as [[] [] [] [] [] [] [] []]; try reflexivity; discriminate. }
        rewrite Hd, Hu. ring. }
    clearbody T n.
    split.
    + exists (if Qlt_le_dec (val x) 0 then - n else n).
      rewrite Hdec. destruct (Qlt_le_dec (val x) 0).
      * rewrite inject_Z_opp. field. lra.
      * field. lra.
    + rewrite Hdec.
      assert (Hmul : forall q : Q, (Qabs q * T == Qabs (q * T))%Q).
      { intros q. rewrite Qabs_Qmult. rewrite (Qabs_pos T); [reflexivity | lra]. }
      rewrite Hmul. apply Qabs_Qle_condition.
      destruct (Qlt_le_dec (val x) 0) as [Hneg | Hpos].
      * rewrite (Qabs_neg (val x)) in Hlo, Hhi by lra.
        assert (Ee : ((-1 * (inject_Z n / T) - val x) * T
                      == - inject_Z n - val x * T)%Q) by (field; lra).
        rewrite Ee. lra.
      * rewrite (Qabs_pos (val x)) in Hlo, Hhi by lra.
        assert (Ee : ((1 * (inject_Z n / T) - val x) * T
                      == inject_Z n - val x * T)%Q) by (field; lra).
        rewrite Ee. lra.
Qed.

End FixedValue.

Import Num Conv StrFacts NumFacts ConvFacts ParseFacts FixedFacts FixedValue.

(** ** The Amount Converter *)

Lemma truncation_differs :
  calculateExchangeAmount "1" USDT ETH = "0.0005" /\
  (truncateAt (precision (CURRENCIES ETH)) (val (exchanged "1" USDT ETH))
   == 4 # 10000)%Q.
Proof. split; [vm_compute; reflexivity | vm_compute; reflexivity]. Qed.

(** C1, as stated, fails: the result is not the product cut off at the
    target precision.  One USDT is 0.000457... ETH; cut off after four
    digits that is 0.0004, and [calculateExchangeAmount] returns
    ["0.0005"]. *)
Lemma calculateExchangeAmount_not_truncating :
  ~ (decimal_value (calculateExchangeAmount "1" USDT ETH)
     == truncateAt (precision (CURRENCIES ETH))
                   (val (exchanged "1" USDT ETH)))%Q.
Proof. vm_compute. discriminate. Qed.

(** C1, amended.  [calculateExchangeAmount] returns the empty string for
    the empty input and for an input that does not parse as a number;
    otherwise it returns the product of the parsed amount and the rate
    of the direction as formatted by [toFixed] with the precision of the
    target asset, which (for a finite product below [10^21]) is a
    numeral with exactly that many fractional digits denoting the
    multiple of [10^-precision] nearest to the product: rounded, not
    truncated.  At the rate 2184.33, ["2.00"] ETH gives ["4368.66"]
    USDT and ["1000"] USDT gives ["0.4578"] ETH. *)
Theorem calculateExchangeAmount_rounds_to_precision :
  (forall (amount : string) (a b : CurrencyKey),
      let p := precision (CURRENCIES b) in
      let result := calculateExchangeAmount amount a b in
      (amount = "" -> result = "") /\
      (isNaN (parseFloat amount) = true -> result = "") /\
      (amount <> "" -> isNaN (parseFloat amount) = false ->
       result = toFixed (exchanged amount a b) p /\
       (is_finite (exchanged amount a b) = true ->
        (Qabs (val (exchanged amount a b)) < inject_Z (10 ^ 21))%Q ->
        FixedNumeral result p /\
        NearestAt p (val (exchanged amount a b)) (decimal_value result)))) /\
  rate ETH USDT = literal (218433 # 100) /\
  rate USDT ETH = div (literal 1) (literal (218433 # 100)) /\
  calculateExchangeAmount "2.00" ETH USDT = "4368.66" /\
  calculateExchangeAmount "1000" USDT ETH = "0.4578".
Proof.
  split; [|repeat split; vm_compute; reflexivity].
  intros amount a b p result. unfold result, calculateExchangeAmount.
  split; [intros ->; reflexivity|]. split.
  { intros Hnan. rewrite Hnan. destruct (negb (Str.truthy amount)); reflexivity. }
  intros Hne Hnn. apply truthy_true in Hne. rewrite Hne, Hnn. cbn [negb].
  split; [reflexivity|]. intros Hfin Hlt.
  assert (Hp : exists p', p = S p') by (destruct b; eexists; reflexivity).
  destruct Hp as [p' Hp]. fold p. rewrite Hp. fold (exchanged amount a b).
  apply toFixed_nearest; [assumption|].
  destruct (Qle_bool _ _) eqn:E; [|reflexivity].
  apply Qle_bool_iff in E. exfalso. lra.
Qed.

(** ** The balance check *)

Lemma compare_finite (x : number) (sb : bool) (mb : positive) (eb : Z) :
  is_finite x = true ->
  compare x (S754_finite sb mb eb) = Some (val x ?= val (S754_finite sb mb eb))%Q /\
  compare (S754_zero false) x = Some (0 ?= val x)%Q.
Proof. destruct x; try discriminate; intros _; split; reflexivity. Qed.

Lemma isWithinBalance_finite (amount : string) (sb : bool) (mb : positive) (eb : Z) :
  let bal := S754_finite sb mb eb in
  let x := parseFloat amount in
  isWithinBalance amount bal = true <->
  amount = "" \/
  (is_finite x = true /\ (0 < val x)%Q /\ (val x <= val bal)%Q).
Proof.
  intros bal x. unfold isWithinBalance.
  destruct (Str.truthy amount) eqn:Et; cbn [negb].
  - apply truthy_true in Et. fold x. fold bal.
    change (of_Z 0) with (S754_zero false).
    destruct (is_finite x) eqn:Ef.
    + destruct (compare_finite x sb mb eb Ef) as [C1 C2].
      assert (Hn : isNaN x = false) by (destruct x; try discriminate; reflexivity).
      unfold leb, gtb, ltb. fold bal in C1. rewrite Hn, C1.
      revert C2. generalize (compare (S754_zero false) x). intros o ->.
      cbn [negb andb].
      assert (Hle : (val x <= val bal)%Q <-> (val x ?= val bal)%Q <> Gt)
        by apply Qle_alt.
      assert (Hlt : (0 < val x)%Q <-> (0 ?= val x)%Q = Lt) by apply Qlt_alt.
      destruct (val x ?= val bal)%Q; destruct (0 ?= val x)%Q; cbn [andb];
        (split;
         [ intros H;
           first [ discriminate H
                 | right; split; [reflexivity|];
                   split; [apply Hlt; reflexivity | apply Hle; discriminate] ]
         | intros [? | (_ & H1 & H2)]; [congruence|];
           apply Hlt in H1; apply Hle in H2; congruence ]).
    + split.
      * intros H. exfalso.
        destruct x as [| [|] | |]; try discriminate.
      * intros [? | (H & _)]; [congruence | discriminate].
  - apply truthy_false in Et. split; auto.
Qed.

(** C6.  The balance validator accepts the empty string; any other
    amount it accepts exactly when the parsed value is a number strictly
    greater than 0 and at most the asset's balance.  For an amount of
    valid format [validateAmount] turns a violation into the
    "insufficient balance" error of the asset, which carries the asset's
    symbol. *)
Theorem isWithinBalance_accepts_positive_up_to_balance :
  forall (amount : string) (c : CurrencyKey),
    let bal := balance (CURRENCIES c) in
    let x := parseFloat amount in
    isWithinBalance "" bal = true /\
    (isWithinBalance amount bal = true <->
     amount = "" \/
     (is_finite x = true /\ (0 < val x)%Q /\ (val x <= val bal)%Q)) /\
    (isNumericInput amount = true ->
     validateAmount amount c
     = if isWithinBalance amount bal then "" else insufficientBalance c) /\
    mentions (insufficientBalance c) (symbol (CURRENCIES c)) = true /\
    mentions (insufficientBalance c) "Insufficient" = true /\
    (val (balance (CURRENCIES ETH)) == 6710363444782039 # 2 ^ 51)%Q /\
    (val (balance (CURRENCIES USDT)) == 10000)%Q.
Proof.
  intros amount c bal x. split; [reflexivity|]. split.
  - unfold bal. destruct c; apply isWithinBalance_finite.
  - split; [|destruct c; repeat split; vm_compute; reflexivity].
    intros Hf. unfold validateAmount. rewrite Hf. cbn [negb]. fold bal.
    destruct (Str.truthy amount) eqn:Et.
    + destruct (isWithinBalance amount bal); destruct c; reflexivity.
    + apply truthy_false in Et. subst. reflexivity.
Qed.

Module RoundFacts.
Import Num NumFacts.
Local Open Scope Q_scope.

(** ** Powers of two *)

Lemma pow2_Qpower (e : Z) : pow2 e == 2 ^ e.
Proof.
  destruct e as [|p|p]; [reflexivity | |].
  - unfold pow2. exact (Zpower_Qpower 2 (Z.pos p) (Pos2Z.is_nonneg p)).
  - unfold pow2. change (2 ^ Z.neg p) with (/ (2 ^ Z.pos p)).
    pose proof (Zpower_Qpower 2 (Z.pos p) (Pos2Z.is_nonneg p)) as H.
    change (inject_Z 2) with 2 in H. rewrite <- H.
    rewrite <- Pos2Z.inj_pow. reflexivity.
Qed.

Lemma pow2_pos (e : Z) : 0 < pow2 e.
Proof. rewrite pow2_Qpower. apply Qpower_0_lt. reflexivity. Qed.

Lemma pow2_add (a b : Z) : pow2 (a + b) == pow2 a * pow2 b.
Proof. rewrite !pow2_Qpower. apply Qpower_plus. discriminate. Qed.

Lemma pow2_opp (a : Z) : pow2 (- a) == / pow2 a.
Proof. rewrite !pow2_Qpower. apply Qpower_opp. Qed.

Lemma pow2_le (a b : Z) : (a <= b)%Z -> pow2 a <= pow2 b.
Proof.
  intros H. rewrite !pow2_Qpower. apply Qpower_le_compat_l; [assumption|].
  discriminate.
Qed.

Lemma pow2_lt_inv (a b : Z) : pow2 a < pow2 b -> (a < b)%Z.
Proof.
  intros H. destruct (Z_lt_le_dec a b) as [Hlt | Hle]; [assumption|].
  apply pow2_le in Hle. lra.
Qed.

Lemma pow2_inject (e : Z) : (0 <= e)%Z -> pow2 e == inject_Z (2 ^ e).
Proof. intros H. rewrite pow2_Qpower, Zpower_Qpower by assumption. reflexivity. Qed.

Lemma pow2_succ (e : Z) : pow2 (e + 1) == 2 * pow2 e.
Proof. rewrite pow2_add. change (pow2 1) with (inject_Z 2). ring. Qed.

Lemma pow2_cancel (e : Z) : pow2 e * pow2 (- e) == 1.
Proof. rewrite <- pow2_add, Z.add_opp_diag_r. reflexivity. Qed.

Lemma inject_Z_pos (z : Z) : (0 < z)%Z -> 0 < inject_Z z.
Proof. intros H. change 0 with (inject_Z 0). now rewrite <- Zlt_Qlt. Qed.

(** ** The scaled quotient *)

Lemma scaled_spec (p d e : Z) :
  (0 < p)%Z -> (0 < d)%Z ->
  (0 < fst (scaled p d e))%Z /\ (0 < snd (scaled p d e))%Z /\
  inject_Z (fst (scaled p d e)) / inject_Z (snd (scaled p d e))
  == inject_Z p / inject_Z d * pow2 (- e).
Proof.
  intros Hp Hd. unfold scaled.
  pose proof (inject_Z_pos p Hp) as HP. pose proof (inject_Z_pos d Hd) as HD.
  destruct (0 <=? e)%Z eqn:E; cbn [fst snd].
  - apply Z.leb_le in E.
    assert (H2 : (0 < 2 ^ e)%Z) by (apply Z.pow_pos_nonneg; lia).
    repeat split; [assumption | now apply Z.mul_pos_pos |].
    rewrite inject_Z_mult, pow2_opp, (pow2_inject e E).
    pose proof (inject_Z_pos _ H2). field. split; lra.
  - apply Z.leb_gt in E.
    assert (H2 : (0 < 2 ^ (- e))%Z) by (apply Z.pow_pos_nonneg; lia).
    repeat split; [now apply Z.mul_pos_pos | assumption |].
    rewrite inject_Z_mult, (pow2_inject (- e)) by lia.
    field. lra.
Qed.

(** ** Rounding a quotient to the nearest integer *)

Lemma div_nearest_even_Z (n m : Z) :
  (0 < m)%Z ->
  let k := div_nearest_even n m in
  (- m <= 2 * (k * m - n) <= m)%Z.
Proof.
  intros Hm k. unfold k, div_nearest_even. cbv zeta.
  pose proof (Z.div_mod n m ltac:(lia)) as E.
  pose proof (Z.mod_pos_bound n m Hm) as Hr.
  set (q := (n / m)%Z) in *. set (r := (n mod m)%Z) in *.
  clearbody q r. clear k.
  destruct (Z.compare_spec (2 * r) m) as [C | C | C].
  - destruct (Z.even q); subst n; lia.
  - subst n; lia.
  - subst n; lia.
Qed.

Lemma div_nearest_even_spec (n m : Z) :
  (0 < m)%Z ->
  Qabs (inject_Z (div_nearest_even n m) - inject_Z n / inject_Z m) <= 1 # 2.
Proof.
  intros Hm. pose proof (div_nearest_even_Z n m Hm) as H. cbv zeta in H.
  set (k := div_nearest_even n m) in *.
  pose proof (inject_Z_pos m Hm) as HM.
  destruct H as [H1 H2]. rewrite Zle_Qle in H1, H2.
  unfold Z.sub in H1, H2.
  repeat rewrite ?inject_Z_mult, ?inject_Z_plus, ?inject_Z_opp in H1.
  repeat rewrite ?inject_Z_mult, ?inject_Z_plus, ?inject_Z_opp in H2.
  change (inject_Z 2) with 2 in H1, H2.
  set (K := inject_Z k) in *. set (N := inject_Z n) in *.
  set (M := inject_Z m) in *.
  assert (Ex : exists x, x == N / M /\ x * M == N).
  { exists (N / M). split; [reflexivity | field; lra]. }
  destruct Ex as (x & Ex & ExM). rewrite <- Ex.
  assert (Ht : 2 * M * (K - x) == 2 * (K * M + - N)) by (rewrite <- ExM; ring).
  apply Qabs_Qle_condition. clearbody K N M.
  split; apply (Qmult_le_l _ _ (2 * M)); try lra; rewrite Ht; lra.
Qed.

Lemma div_nearest_even_nonneg (n m : Z) :
  (0 <= n)%Z -> (0 < m)%Z -> (0 <= div_nearest_even n m)%Z.
Proof.
  intros Hn Hm. unfold div_nearest_even. cbv zeta.
  assert (H : (0 <= n / m)%Z) by (apply Z.div_pos; lia).
  destruct (_ ?= _)%Z; [destruct (Z.even _) | |]; lia.
Qed.

(** ** The exponent *)

Lemma log2_bracket (p : Z) :
  (0 < p)%Z ->
  pow2 (Z.log2 p) <= inject_Z p /\ inject_Z p < pow2 (Z.log2 p + 1).
Proof.
  intros Hp. destruct (Z.log2_spec p Hp) as [H1 H2].
  pose proof (Z.log2_nonneg p) as H0.
  rewrite !pow2_inject by lia. rewrite <- Zle_Qle, <- Zlt_Qlt.
  split; [assumption | now rewrite <- Z.add_1_r in H2].
Qed.

(** The floor of a positive quotient is below an integer bound exactly
    when the quotient is. *)
Lemma floor_lt_iff (n m b : Z) :
  (0 < m)%Z ->
  ((n / m <? b)%Z = true <-> inject_Z n / inject_Z m < inject_Z b).
Proof.
  intros Hm. pose proof (inject_Z_pos m Hm) as HM.
  rewrite Z.ltb_lt. split; intros H.
  - apply Qlt_shift_div_r; [assumption|].
    rewrite <- inject_Z_mult, <- Zlt_Qlt.
    pose proof (Z.mul_succ_div_gt n m Hm). nia.
  - apply Z.div_lt_upper_bound; [assumption|].
    apply (proj2 (Qmult_lt_r _ _ (inject_Z m) HM)) in H.
    assert (E : inject_Z n / inject_Z m * inject_Z m == inject_Z n)
      by (field; lra).
    rewrite E, <- inject_Z_mult, <- Zlt_Qlt in H. lia.
Qed.

Lemma exponent_bracket (p d : Z) :
  (0 < p)%Z -> (0 < d)%Z ->
  exists e1 : Z,
    exponent_of p d = Z.max e1 emin /\
    pow2 (52 + e1) <= inject_Z p / inject_Z d /\
    inject_Z p / inject_Z d < pow2 (53 + e1).
Proof.
  intros Hp Hd.
  pose proof (inject_Z_pos p Hp) as HP. pose proof (inject_Z_pos d Hd) as HD.
  destruct (log2_bracket p Hp) as [Pa Pb].
  destruct (log2_bracket d Hd) as [Da Db].
  set (a := Z.log2 p) in *. set (b := Z.log2 d) in *.
  set (q := inject_Z p / inject_Z d).
  set (e0 := (a - b - 52)%Z).
  assert (Hlo : pow2 (51 + e0) < q).
  { apply Qlt_shift_div_l; [assumption|].
    apply Qlt_le_trans with (pow2 (51 + e0) * pow2 (b + 1)).
    - apply Qmult_lt_l; [apply pow2_pos | assumption].
    - rewrite <- pow2_add. replace (51 + e0 + (b + 1))%Z with a by (unfold e0; lia).
      assumption. }
  assert (Hhi : q < pow2 (53 + e0)).
  { apply Qlt_shift_div_r; [assumption|].
    apply Qlt_le_trans with (pow2 (53 + e0) * pow2 b).
    - rewrite <- pow2_add. replace (53 + e0 + b)%Z with (a + 1)%Z by (unfold e0; lia).
      assumption.
    - apply Qmult_le_l; [apply pow2_pos | assumption]. }
  destruct (scaled_spec p d e0 Hp Hd) as (Hn & Hm & Hs).
  unfold exponent_of. fold a b e0. unfold scaled_floor.
  destruct (scaled p d e0) as [n m]. cbn [fst snd] in *.
  pose proof (floor_lt_iff n m (2 ^ 52) Hm) as Hfl.
  rewrite Hs in Hfl. fold q in Hfl.
  change (inject_Z (2 ^ 52)) with (pow2 52) in Hfl.
  pose proof (pow2_pos e0) as He0.
  assert (Hscale : forall c : Z, q * pow2 (- e0) < pow2 c <-> q < pow2 (c + e0)).
  { intros c. rewrite pow2_add.
    assert (E : q == q * pow2 (- e0) * pow2 e0).
    { rewrite <- Qmult_assoc, (Qmult_comm (pow2 (- e0))), pow2_cancel. ring. }
    split; intros H.
    - rewrite E. apply Qmult_lt_r; assumption.
    - rewrite E in H. apply Qmult_lt_r in H; assumption. }
  destruct (n / m <? 2 ^ 52)%Z.
  - exists (e0 - 1)%Z. split; [reflexivity|]. split.
    + replace (52 + (e0 - 1))%Z with (51 + e0)%Z by lia. lra.
    + replace (53 + (e0 - 1))%Z with (52 + e0)%Z by lia.
      apply Hscale, Hfl. reflexivity.
  - exists e0. split; [reflexivity|]. split; [|assumption].
    destruct (Qlt_le_dec q (pow2 (52 + e0))) as [Hlt | Hle]; [|assumption].
    apply Hscale, Hfl in Hlt. discriminate.
Qed.

(** ** The rounded value *)

Lemma scaled_error (K t q : Q) (e : Z) :
  t == q * pow2 (- e) ->
  Qabs (K - t) <= 1 # 2 ->
  pow2 (52 + e) <= q ->
  Qabs (K * pow2 e - q) <= q * pow2 (- 53).
Proof.
  intros Ht Hk Hq.
  pose proof (pow2_pos e) as He.
  assert (E1 : K * pow2 e - q == (K - t) * pow2 e).
  { rewrite Ht. transitivity (K * pow2 e - q * (pow2 e * pow2 (- e))); [|ring].
    rewrite pow2_cancel. ring. }
  rewrite E1, Qabs_Qmult, (Qabs_pos (pow2 e)) by lra.
  apply Qle_trans with ((1 # 2) * pow2 e).
  - apply Qmult_le_compat_r; [assumption | lra].
  - apply Qle_trans with (pow2 (52 + e) * pow2 (- 53)).
    + rewrite <- pow2_add. replace (52 + e + - 53)%Z with (e + - 1)%Z by lia.
      rewrite pow2_add. change (pow2 (- 1)) with (1 # 2). lra.
    + apply Qmult_le_compat_r; [assumption|].
      apply Qlt_le_weak, pow2_pos.
Qed.

(** The shape of a rounded value in the normal range: the exponent
    [e1] brackets the quotient, [k] is the quotient scaled by [2^-e1]
    and rounded to the nearest integer, and the result denotes
    [k * 2^e1]. *)
Lemma round_pos_shape (s : bool) (p d : positive) :
  let q := inject_Z (Zpos p) / inject_Z (Zpos d) in
  pow2 (- 1022) <= q -> q < pow2 1023 ->
  exists (e1 : Z) (m : positive) (e : Z),
    (emin <= e1 <= 970)%Z /\
    pow2 (52 + e1) <= q /\ q < pow2 (53 + e1) /\
    round_pos s p d = S754_finite s m e /\
    inject_Z (Zpos m) * pow2 e
    == inject_Z (div_nearest_even (fst (scaled (Zpos p) (Zpos d) e1))
                                  (snd (scaled (Zpos p) (Zpos d) e1)))
       * pow2 e1 /\
    Qabs (inject_Z (Zpos m) * pow2 e - q) <= q * pow2 (- 53).
Proof.
  intros q Hmin Hmax.
  destruct (exponent_bracket (Zpos p) (Zpos d)) as (e1 & He & Hlo & Hhi);
    [lia | lia |].
  fold q in Hlo, Hhi.
  assert (Hge : (emin <= e1)%Z).
  { assert (H : pow2 (- 1022) < pow2 (53 + e1)) by lra.
    apply pow2_lt_inv in H. unfold emin. lia. }
  assert (Hle : (e1 <= 970)%Z).
  { assert (H : pow2 (52 + e1) < pow2 1023) by lra.
    apply pow2_lt_inv in H. lia. }
  rewrite Z.max_l in He by assumption.
  destruct (scaled_spec (Zpos p) (Zpos d) e1) as (Hn & Hm & Hs); [lia | lia |].
  fold q in Hs.
  exists e1. unfold round_pos. rewrite He.
  destruct (scaled (Zpos p) (Zpos d) e1) as [n m]. cbn [fst snd] in *.
  pose proof (div_nearest_even_spec n m Hm) as Hk.
  set (k := div_nearest_even n m) in *.
  set (t := inject_Z n / inject_Z m) in *.
  assert (Ht1 : pow2 52 <= t).
  { rewrite Hs.
    apply Qle_trans with (pow2 (52 + e1) * pow2 (- e1)).
    - rewrite <- pow2_add. replace (52 + e1 + - e1)%Z with 52%Z by lia. lra.
    - apply Qmult_le_compat_r; [assumption | apply Qlt_le_weak, pow2_pos]. }
  assert (Ht2 : t < pow2 53).
  { rewrite Hs.
    apply Qlt_le_trans with (pow2 (53 + e1) * pow2 (- e1)).
    - apply Qmult_lt_r; [apply pow2_pos | assumption].
    - rewrite <- pow2_add. replace (53 + e1 + - e1)%Z with 53%Z by lia. lra. }
  apply Qabs_Qle_condition in Hk as [Hk1 Hk2].
  assert (Hkl : (2 ^ 52 <= k)%Z).
  { assert (H : inject_Z (2 ^ 52 - 1) < inject_Z k).
    { change (inject_Z (2 ^ 52 - 1)) with (pow2 52 - 1). lra. }
    rewrite <- Zlt_Qlt in H. lia. }
  assert (Hku : (k <= 2 ^ 53)%Z).
  { assert (H : inject_Z k < inject_Z (2 ^ 53 + 1)).
    { change (inject_Z (2 ^ 53 + 1)) with (pow2 53 + 1). lra. }
    rewrite <- Zlt_Qlt in H. lia. }
  assert (Herr : Qabs (inject_Z k * pow2 e1 - q) <= q * pow2 (- 53)).
  { apply (scaled_error _ t); [exact Hs | | exact Hlo].
    apply Qabs_Qle_condition. split; assumption. }
  destruct (k =? 2 ^ 53)%Z eqn:Ek.
  - apply Z.eqb_eq in Ek. cbv zeta iota beta.
    change (2 ^ 52)%Z with (Zpos (2 ^ 52)). cbv iota.
    assert (Hex : (e1 + 1 <=? emax - prec)%Z = true)
      by (apply Z.leb_le; unfold emax, prec; lia).
    rewrite Hex. exists (2 ^ 52)%positive, (e1 + 1)%Z.
    assert (E : inject_Z (Zpos (2 ^ 52)) * pow2 (e1 + 1)
                == inject_Z k * pow2 e1).
    { rewrite Ek, pow2_succ.
      change (inject_Z (2 ^ 53)) with (2 * inject_Z (Zpos (2 ^ 52))). ring. }
    repeat split; try assumption. rewrite E. exact Herr.
  - cbv zeta iota beta. destruct k as [|mant|mant]; try lia.
    assert (Hex : (e1 <=? emax - prec)%Z = true)
      by (apply Z.leb_le; unfold emax, prec; lia).
    rewrite Hex. exists mant, e1. repeat split; try assumption.
Qed.

Lemma Qred_pos (q : Q) :
  0 < q ->
  exists p : positive,
    Qnum (Qred q) = Zpos p /\
    inject_Z (Zpos p) / inject_Z (Zpos (Qden (Qred q))) == q.
Proof.
  intros Hq. pose proof (Qred_correct q) as Hr.
  destruct (Qred q) as [n d] eqn:E. cbn [Qnum Qden].
  assert (Hn : (0 < n)%Z).
  { rewrite <- Hr in Hq. unfold Qlt in Hq. cbn in Hq. lia. }
  destruct n as [|p|p]; try lia. exists p. split; [reflexivity|].
  rewrite <- Hr. symmetry. apply Qmake_Qdiv.
Qed.

(** Conversion of a rational of the normal range: the result is
    finite and positive and lies within the relative error [2^-53]. *)
Lemma of_Q_normal (q : Q) :
  pow2 (- 1022) <= q -> q < pow2 1023 ->
  exists (m : positive) (e : Z),
    of_Q q = S754_finite false m e /\
    Qabs (val (of_Q q) - q) <= q * pow2 (- 53).
Proof.
  intros Hmin Hmax.
  assert (Hq : 0 < q) by (pose proof (pow2_pos (- 1022)); lra).
  destruct (Qred_pos q Hq) as (p & Hp & Hv).
  destruct (round_pos_shape false p (Qden (Qred q)))
    as (e1 & m & e & _ & _ & _ & Hr & _ & Herr).
  - rewrite Hv. exact Hmin.
  - rewrite Hv. exact Hmax.
  - exists m, e. unfold of_Q. rewrite Hp, Hr. split; [reflexivity|].
    cbn [val]. rewrite Hv in Herr. exact Herr.
Qed.

Lemma Qred_inject_Z (z : Z) : Qred (inject_Z z) = inject_Z z.
Proof.
  unfold Qred, inject_Z.
  pose proof (Z.ggcd_correct_divisors z 1) as H.
  pose proof (Z.ggcd_gcd z 1) as Hg. rewrite Z.gcd_1_r in Hg.
  destruct (Z.ggcd z 1) as [g [aa bb]]. cbn [fst] in Hg. subst g.
  destruct H as [Ha Hb]. rewrite !Z.mul_1_l in Ha, Hb. subst aa bb.
  reflexivity.
Qed.

Lemma div_nearest_even_one (n : Z) : div_nearest_even n 1 = n.
Proof.
  unfold div_nearest_even. rewrite Z.div_1_r, Z.mod_1_r. reflexivity.
Qed.

End RoundFacts.

Module RoundTrip.
Import Num Conv StrFacts NumFacts ConvFacts ParseFacts FixedFacts FixedValue.
Import RoundFacts.
Local Open Scope Q_scope.

(** ** The constants *)

Lemma ETH_TO_USDT_eq :
  RATES.ETH_TO_USDT = S754_finite false 4803392467799900 (-41).
Proof. vm_compute. reflexivity. Qed.

Lemma USDT_TO_ETH_eq :
  RATES.USDT_TO_ETH = S754_finite false 8445035353499495 (-64).
Proof. vm_compute. reflexivity. Qed.

Lemma val_ETH_TO_USDT :
  val RATES.ETH_TO_USDT == 4803392467799900 # 2199023255552.
Proof. vm_compute. reflexivity. Qed.

Lemma val_USDT_TO_ETH :
  val RATES.USDT_TO_ETH == 8445035353499495 # 18446744073709551616.
Proof. vm_compute. reflexivity. Qed.

(** A generous part of the normal range. *)
Lemma normal_range (q : Q) :
  1 # 1000000 <= q -> q <= inject_Z (10 ^ 20) ->
  pow2 (- 1022) <= q /\ q < pow2 1023.
Proof.
  intros Hlo Hhi. split.
  - apply Qle_trans with (pow2 (- 20)); [apply pow2_le; lia|].
    change (pow2 (- 20)) with (1 # 1048576). lra.
  - apply Qlt_le_trans with (pow2 67); [|apply pow2_le; lia].
    change (pow2 67) with (inject_Z (2 ^ 67)).
    apply Qle_lt_trans with (inject_Z (10 ^ 20)); [assumption|].
    rewrite <- Zlt_Qlt. reflexivity.
Qed.

(** Conversion within that part: a positive finite number and the
    relative error bound, as two inequalities. *)
Lemma of_Q_bounds (q : Q) :
  1 # 1000000 <= q -> q <= inject_Z (10 ^ 20) ->
  exists (m : positive) (e : Z),
    of_Q q = S754_finite false m e /\
    q - q * (1 # 9007199254740992) <= val (of_Q q) /\
    val (of_Q q) <= q + q * (1 # 9007199254740992).
Proof.
  intros Hlo Hhi. destruct (normal_range q Hlo Hhi) as [H1 H2].
  destruct (of_Q_normal q H1 H2) as (m & e & E & Herr).
  exists m, e. split; [assumption|].
  change (pow2 (- 53)) with (1 # 9007199254740992) in Herr.
  apply Qabs_Qle_condition in Herr. lra.
Qed.

Lemma mul_finite (x y : number) (mx my : positive) (ex ey : Z) :
  x = S754_finite false mx ex -> y = S754_finite false my ey ->
  mul x y = of_Q (val x * val y).
Proof. intros -> ->. reflexivity. Qed.

Lemma Qfloor_unique (x : Q) (k : Z) :
  inject_Z k <= x -> x < inject_Z (k + 1) -> Qfloor x = k.
Proof.
  intros H1 H2.
  assert (Ha : (k <= Qfloor x)%Z).
  { rewrite <- (Qfloor_Z k). now apply Qfloor_resp_le. }
  assert (Hb : (Qfloor x < k + 1)%Z).
  { rewrite Zlt_Qlt. apply Qle_lt_trans with x; [apply Qfloor_le | assumption]. }
  lia.
Qed.

(** ** The error analysis *)

(** From the amount [K / 10^4] through the four roundings (parsing,
    the product with the rate, parsing the formatted product, the
    product with the inverse rate) and the formatting to two digits in
    between, the result times [10^4] stays within [1/2] of [K]. *)
Lemma round_trip_error (K a X0 Y N1 X1 Zv : Q) :
  1 <= K -> K <= 100000000000000 ->
  a * 10000 == K ->
  a - a * (1 # 9007199254740992) <= X0 ->
  X0 <= a + a * (1 # 9007199254740992) ->
  X0 * (4803392467799900 # 2199023255552)
  - X0 * (4803392467799900 # 2199023255552) * (1 # 9007199254740992) <= Y ->
  Y <= X0 * (4803392467799900 # 2199023255552)
       + X0 * (4803392467799900 # 2199023255552) * (1 # 9007199254740992) ->
  N1 <= Y * 100 + (1 # 2) -> Y * 100 + (1 # 2) < N1 + 1 ->
  N1 * (1 # 100) - N1 * (1 # 100) * (1 # 9007199254740992) <= X1 ->
  X1 <= N1 * (1 # 100) + N1 * (1 # 100) * (1 # 9007199254740992) ->
  X1 * (8445035353499495 # 18446744073709551616)
  - X1 * (8445035353499495 # 18446744073709551616) * (1 # 9007199254740992)
  <= Zv ->
  Zv <= X1 * (8445035353499495 # 18446744073709551616)
        + X1 * (8445035353499495 # 18446744073709551616)
          * (1 # 9007199254740992) ->
  K <= Zv * 10000 + (1 # 2) /\ Zv * 10000 + (1 # 2) < K + 1.
Proof. intros. split; lra. Qed.

(** ** Strings *)

Lemma calculateExchangeAmount_parsed (s : string) (a b : CurrencyKey) :
  s <> "" -> isNaN (parseFloat s) = false ->
  calculateExchangeAmount s a b
  = toFixed (mul (parseFloat s) (rate a b)) (precision (CURRENCIES b)).
Proof.
  intros Hne Hnn. unfold calculateExchangeAmount.
  apply truthy_true in Hne. now rewrite Hne, Hnn.
Qed.

Lemma decimal_value_plain (s : string) :
  plain_start s -> decimal_value s = unsigned_value s.
Proof.
  destruct s as [|c s]; [reflexivity|]. cbn [plain_start].
  intros [H | ->]; [|reflexivity].
  destruct c as [[] [] [] [] [] [] [] []]; try reflexivity; discriminate.
Qed.

Lemma NumericFormat_parts (s : string) :
  NumericFormat s ->
  Str.all Str.is_digit (int_part s ++ frac_part s) = true.
Proof.
  intros Hf. destruct (NumericFormat_split s Hf) as (a & r & -> & Ha & Hr).
  unfold int_part, frac_part.
  rewrite (span_all_app Str.is_digit a r Ha).
  - cbn [fst snd]. rewrite all_app, Ha.
    destruct Hr as [-> | (b & -> & Hb)]; [reflexivity | exact Hb].
  - destruct Hr as [-> | (b & -> & _)]; [exact I | reflexivity].
Qed.

(** An amount with at most four fractional digits is a multiple of
    [10^-4]. *)
Lemma four_digit_grid (s : string) :
  NumericFormat s -> (String.length (frac_part s) <= 4)%nat ->
  exists k : Z, (0 <= k)%Z /\ unsigned_value s * 10000 == inject_Z k.
Proof.
  intros Hf Hl. pose proof (NumericFormat_parts s Hf) as Hd.
  apply digits_val_nonneg in Hd. unfold unsigned_value.
  set (D := digits_val (int_part s ++ frac_part s)) in *.
  destruct (String.length (frac_part s)) as [|[|[|[|[|l]]]]]; try lia;
    cbn [Z.of_nat Z.opp scale10 Pos.of_succ_nat Pos.succ].
  - exists (D * 10000)%Z. split; [lia|]. rewrite inject_Z_mult. reflexivity.
  - exists (D * 1000)%Z. split; [lia|]. unfold Qeq. cbn. lia.
  - exists (D * 100)%Z. split; [lia|]. unfold Qeq. cbn. lia.
  - exists (D * 10)%Z. split; [lia|]. unfold Qeq. cbn. lia.
  - exists D. split; [lia|]. unfold Qeq. cbn. lia.
Qed.

(** ** One conversion *)

(** The product of two positive finite numbers, formatted with
    [S p] fractional digits: the digits printed, the bounds of the
    rounded product, and the rounding of the formatting. *)
Lemma formatted_product (x r : number) (mx mr : positive) (ex er : Z) (p : nat) :
  x = S754_finite false mx ex -> r = S754_finite false mr er ->
  1 # 1000000 <= val x * val r -> val x * val r <= inject_Z (10 ^ 20) ->
  exists (a b : string) (y : number),
    y = mul x r /\
    toFixed y (S p) = a ++ "." ++ b /\
    Str.all Str.is_digit a = true /\ a <> "" /\
    Str.all Str.is_digit b = true /\ String.length b = S p /\
    val x * val r - val x * val r * (1 # 9007199254740992) <= val y /\
    val y <= val x * val r + val x * val r * (1 # 9007199254740992) /\
    inject_Z (digits_val (a ++ b))
    <= val y * inject_Z (10 ^ Z.of_nat (S p)) + (1 # 2) /\
    val y * inject_Z (10 ^ Z.of_nat (S p)) + (1 # 2)
    < inject_Z (digits_val (a ++ b)) + 1.
Proof.
  intros Hx Hr Hlo Hhi.
  rewrite (mul_finite x r mx mr ex er Hx Hr).
  set (q := val x * val r) in *.
  destruct (of_Q_bounds q Hlo Hhi) as (m & e & E & B1 & B2).
  set (y := of_Q q) in *.
  assert (Hpos : 0 < val y) by lra.
  assert (Hfin : is_finite y = true) by now rewrite E.
  assert (Hsmall : Qle_bool (inject_Z (10 ^ 21)) (Qabs (val y)) = false).
  { destruct (Qle_bool _ _) eqn:Eb; [|reflexivity].
    apply Qle_bool_iff in Eb. rewrite Qabs_pos in Eb by lra.
    assert (H21 : inject_Z (10 ^ 21) == 10 * inject_Z (10 ^ 20)) by reflexivity.
    rewrite H21 in Eb. exfalso. lra. }
  destruct (toFixed_digits y p Hfin Hsmall) as (a & b & Et & Ha & Hna & Hb & Hlb & Hv).
  exists a, b, y. rewrite Hv.
  destruct (Qlt_le_dec (val y) 0) as [Hneg | _]; [exfalso; lra|].
  cbn [append] in Et. rewrite Qabs_pos by lra.
  repeat split; trivial.
  - apply Qfloor_le.
  - rewrite <- (inject_Z_plus _ 1). apply Qlt_floor.
Qed.

(** The number that a printed fixed-point numeral parses to. *)
Lemma parseFloat_fixed (a b : string) :
  Str.all Str.is_digit a = true -> a <> "" ->
  Str.all Str.is_digit b = true -> b <> "" ->
  parseFloat (a ++ "." ++ b)
  = of_Q (inject_Z (digits_val (a ++ b)) / pow10 (String.length b)) /\
  decimal_value (a ++ "." ++ b)
  == inject_Z (digits_val (a ++ b)) / pow10 (String.length b) /\
  a ++ "." ++ b <> "".
Proof.
  intros Ha Hna Hb Hnb.
  assert (Hf : NumericFormat (a ++ "." ++ b)) by (exists a, b; auto).
  assert (Hd : has_digit (a ++ "." ++ b) = true).
  { unfold has_digit. rewrite exists_app.
    destruct a as [|c a]; [congruence|]. cbn in Ha |- *.
    apply andb_prop in Ha as [-> _]. reflexivity. }
  pose proof (unsigned_value_fixed a b Ha Hb Hnb) as Hu.
  repeat split.
  - rewrite (parseFloat_numeric _ Hf Hd). now apply of_Q_compat.
  - rewrite decimal_value_plain by now apply NumericFormat_plain.
    exact Hu.
  - destruct a; [congruence | discriminate].
Qed.

Lemma rate_ETH_USDT : rate ETH USDT = RATES.ETH_TO_USDT.
Proof. reflexivity. Qed.

Lemma rate_USDT_ETH : rate USDT ETH = RATES.USDT_TO_ETH.
Proof. reflexivity. Qed.

(** The round trip of zero. *)
Lemma roundTrip_zero (s : string) :
  s <> "" -> parseFloat s = S754_zero false ->
  roundTrip s ETH USDT = "0.0000".
Proof.
  intros Hne Hp. unfold roundTrip.
  rewrite (calculateExchangeAmount_parsed s ETH USDT Hne) by now rewrite Hp.
  rewrite Hp. vm_compute. reflexivity.
Qed.

(** The round trip of a positive amount on the grid of [10^-4]. *)
Lemma roundTrip_positive (s : string) (k : Z) :
  s <> "" ->
  (1 <= k <= 10 ^ 14)%Z ->
  parseFloat s = of_Q (inject_Z k / 10000) ->
  FixedNumeral (roundTrip s ETH USDT) 4 /\
  decimal_value (roundTrip s ETH USDT) == inject_Z k / 10000.
Proof.
  intros Hne Hk Hp.
  set (K := inject_Z k) in *. set (a := K / 10000) in *.
  assert (HK1 : 1 <= K) by (unfold K; change 1 with (inject_Z 1);
                            rewrite <- Zle_Qle; lia).
  assert (HK2 : K <= 100000000000000)
    by (unfold K; change 100000000000000 with (inject_Z (10 ^ 14));
        rewrite <- Zle_Qle; lia).
  assert (Ha : a * 10000 == K) by (unfold a; field).
  assert (Ea : a == K / 10000) by reflexivity.
  clearbody a.
  (* parsing the amount *)
  destruct (of_Q_bounds a) as (m0 & e0 & E0 & B0l & B0u).
  { lra. }
  { change (inject_Z (10 ^ 20)) with 100000000000000000000. lra. }
  rewrite <- Hp in E0, B0l, B0u. set (x0 := parseFloat s) in *.
  (* ETH to USDT *)
  unfold roundTrip.
  rewrite (calculateExchangeAmount_parsed s ETH USDT Hne)
    by (fold x0; now rewrite E0).
  fold x0. rewrite rate_ETH_USDT.
  destruct (formatted_product x0 RATES.ETH_TO_USDT m0 _ e0 _ 1 E0 ETH_TO_USDT_eq)
    as (a1 & b1 & y & Ey & Et1 & Ha1 & Hna1 & Hb1 & Hlb1 & By1 & By2 & Bn1 & Bn2).
  { rewrite val_ETH_TO_USDT. lra. }
  { rewrite val_ETH_TO_USDT.
    change (inject_Z (10 ^ 20)) with 100000000000000000000. lra. }
  change (precision (CURRENCIES USDT)) with 2%nat.
  rewrite <- Ey, Et1.
  rewrite val_ETH_TO_USDT in By1, By2.
  change (inject_Z (10 ^ Z.of_nat 2)) with 100 in Bn1, Bn2.
  set (N1 := inject_Z (digits_val (a1 ++ b1))) in *.
  (* parsing the USDT amount *)
  assert (Hnb1 : b1 <> "") by (destruct b1; [discriminate | discriminate]).
  destruct (parseFloat_fixed a1 b1 Ha1 Hna1 Hb1 Hnb1) as (Ep1 & _ & Hne1).
  rewrite Hlb1 in Ep1. fold N1 in Ep1.
  change (pow10 2) with 100 in Ep1.
  rewrite (of_Q_compat (N1 / 100) (N1 * (1 # 100))) in Ep1 by (field).
  destruct (of_Q_bounds (N1 * (1 # 100))) as (m1 & e1 & E1 & B1l & B1u).
  { lra. }
  { change (inject_Z (10 ^ 20)) with 100000000000000000000. lra. }
  rewrite <- Ep1 in E1, B1l, B1u. set (x1 := parseFloat (a1 ++ "." ++ b1)) in *.
  (* USDT to ETH *)
  rewrite (calculateExchangeAmount_parsed _ USDT ETH Hne1)
    by (fold x1; now rewrite E1).
  fold x1. rewrite rate_USDT_ETH.
  destruct (formatted_product x1 RATES.USDT_TO_ETH m1 _ e1 _ 3 E1 USDT_TO_ETH_eq)
    as (a2 & b2 & z & Ez & Et2 & Ha2 & Hna2 & Hb2 & Hlb2 & Bz1 & Bz2 & Bn3 & Bn4).
  { rewrite val_USDT_TO_ETH. lra. }
  { rewrite val_USDT_TO_ETH.
    change (inject_Z (10 ^ 20)) with 100000000000000000000. lra. }
  change (precision (CURRENCIES ETH)) with 4%nat.
  rewrite <- Ez, Et2.
  rewrite val_USDT_TO_ETH in Bz1, Bz2.
  change (inject_Z (10 ^ Z.of_nat 4)) with 10000 in Bn3, Bn4.
  (* the digits printed are those of [k] *)
  destruct (round_trip_error K a (val x0) (val y) N1 (val x1) (val z)
              HK1 HK2 Ha B0l B0u By1 By2 Bn1 Bn2 B1l B1u Bz1 Bz2)
    as [Hz1 Hz2].
  assert (Hn2 : digits_val (a2 ++ b2) = k).
  { assert (F1 : Qfloor (val z * 10000 + (1 # 2)) = digits_val (a2 ++ b2)).
    { apply Qfloor_unique; [assumption|]. rewrite inject_Z_plus. assumption. }
    assert (F2 : Qfloor (val z * 10000 + (1 # 2)) = k).
    { apply Qfloor_unique; [exact Hz1|]. rewrite inject_Z_plus. exact Hz2. }
    congruence. }
  assert (Hnb2 : b2 <> "") by (destruct b2; [discriminate | discriminate]).
  destruct (parseFloat_fixed a2 b2 Ha2 Hna2 Hb2 Hnb2) as (_ & Ed2 & _).
  split.
  - exists false, a2, b2. repeat split; trivial.
  - rewrite Ed2, Hlb2, Hn2, Ea. reflexivity.
Qed.

End RoundTrip.

Import Num Conv StrFacts NumFacts ConvFacts ParseFacts FixedFacts FixedValue.
Import RoundFacts RoundTrip.

(** ** The round trip *)

(** C2, as stated, fails when the amount is sent in USDT: 100 USDT are
    0.0458 ETH at four digits, and 0.0458 ETH are 100.04 USDT, four
    units of the last place away from the original. *)
Lemma roundTrip_from_USDT_drifts :
  NumericFormat "100" /\ has_digit "100" = true /\
  (String.length (frac_part "100") <= precision (CURRENCIES USDT))%nat /\
  calculateExchangeAmount "100" USDT ETH = "0.0458" /\
  roundTrip "100" USDT ETH = "100.04" /\
  ~ (Qabs (decimal_value (roundTrip "100" USDT ETH) - decimal_value "100")
     <= tolerance USDT)%Q.
Proof.
  split; [exists "100", ""; auto|].
  split; [reflexivity|]. split; [vm_compute; lia|].
  split; [vm_compute; reflexivity|]. split; [vm_compute; reflexivity|].
  vm_compute. intros H. apply H. reflexivity.
Qed.

(** C2, amended.  For every amount of the numeric format with at least
    one digit, at most four fractional digits (the precision of ETH) and
    a value of at most [10^10], converting ETH to USDT with the forward
    rate and the result back to ETH with the inverse rate returns a
    numeral with four fractional digits that denotes exactly the
    original amount. *)
Theorem roundTrip_from_ETH_returns_amount :
  forall s : string,
    NumericFormat s -> has_digit s = true ->
    (String.length (frac_part s) <= precision (CURRENCIES ETH))%nat ->
    (decimal_value s <= inject_Z (10 ^ 10))%Q ->
    FixedNumeral (roundTrip s ETH USDT) (precision (CURRENCIES ETH)) /\
    (decimal_value (roundTrip s ETH USDT) == decimal_value s)%Q.
Proof.
  intros s Hf Hd Hl Hmax.
  change (precision (CURRENCIES ETH)) with 4%nat in *.
  rewrite (decimal_value_plain s) in * by now apply NumericFormat_plain.
  destruct (four_digit_grid s Hf Hl) as (k & Hk0 & Hk).
  assert (Ev : (unsigned_value s == inject_Z k / 10000)%Q).
  { rewrite <- Hk. field. }
  assert (Hne : s <> "") by (destruct s; [discriminate | discriminate]).
  assert (Hp : parseFloat s = of_Q (inject_Z k / 10000)).
  { rewrite (parseFloat_numeric s Hf Hd). now apply of_Q_compat. }
  assert (Hk1 : (k <= 10 ^ 14)%Z).
  { assert (H : (inject_Z k <= inject_Z (10 ^ 14))%Q).
    { rewrite <- Hk.
      change (inject_Z (10 ^ 14)) with (inject_Z (10 ^ 10) * 10000)%Q.
      apply Qmult_le_compat_r; [assumption | discriminate]. }
    now rewrite <- Zle_Qle in H. }
  destruct (Z.eq_dec k 0) as [-> | Hnz].
  - assert (Hz : parseFloat s = S754_zero false) by (rewrite Hp; reflexivity).
    rewrite (roundTrip_zero s Hne Hz). split.
    + exists false, "0", "0000". repeat split; discriminate.
    + rewrite Ev. reflexivity.
  - destruct (roundTrip_positive s k Hne ltac:(lia) Hp) as [H1 H2].
    split; [assumption|]. now rewrite H2, Ev.
Qed.

Lemma roundTrip_from_ETH_returns_amount_witness :
  roundTrip "2.98" ETH USDT = "2.9800" /\
  FixedNumeral (roundTrip "2.98" ETH USDT) (precision (CURRENCIES ETH)) /\
  (decimal_value (roundTrip "2.98" ETH USDT) == decimal_value "2.98")%Q.
Proof.
  split; [vm_compute; reflexivity|].
  apply (roundTrip_from_ETH_returns_amount "2.98").
  - exists "2", "98". auto.
  - reflexivity.
  - vm_compute. lia.
  - vm_compute. discriminate.
Defined.

Module RoundAll.
Import Num NumFacts RoundFacts.
Local Open Scope Q_scope.

(** The shape of a rounded value below the overflow threshold, in the
    normal and in the subnormal range alike: finite or zero, with a
    mantissa below [2^53] and an absolute error of at most the relative
    bound plus half the least subnormal. *)
Lemma round_pos_below_overflow (s : bool) (p d : positive) :
  let q := inject_Z (Zpos p) / inject_Z (Zpos d) in
  q < pow2 1023 ->
  (round_pos s p d = S754_zero s /\ q <= pow2 (- 1075)) \/
  (exists (m : positive) (e : Z),
      round_pos s p d = S754_finite s m e /\
      (Zpos m < 2 ^ 53)%Z /\
      Qabs (inject_Z (Zpos m) * pow2 e - q)
      <= q * pow2 (- 53) + pow2 (- 1075)).
Proof.
  intros q Hmax.
  destruct (exponent_bracket (Zpos p) (Zpos d)) as (e1 & He & Hlo & Hhi);
    [lia | lia |].
  fold q in Hlo, Hhi.
  assert (Hle : (e1 <= 970)%Z).
  { assert (H : pow2 (52 + e1) < pow2 1023) by lra.
    apply pow2_lt_inv in H. lia. }
  set (e := Z.max e1 emin) in *.
  assert (Hee : (e1 <= e /\ emin <= e /\ e <= 970)%Z) by (unfold e, emin; lia).
  destruct (scaled_spec (Zpos p) (Zpos d) e) as (Hn & Hm & Hs); [lia | lia |].
  fold q in Hs.
  unfold round_pos. rewrite He.
  destruct (scaled (Zpos p) (Zpos d) e) as [n m]. cbn [fst snd] in *.
  pose proof (div_nearest_even_spec n m Hm) as Hk.
  pose proof (div_nearest_even_nonneg n m ltac:(lia) Hm) as Hk0.
  set (k := div_nearest_even n m) in *.
  set (t := inject_Z n / inject_Z m) in *.
  pose proof (pow2_pos e) as Hpe. pose proof (pow2_pos (- e)) as Hpe'.
  assert (Hq : 0 < q) by (pose proof (pow2_pos (52 + e1)); lra).
  assert (Ht2 : t < pow2 53).
  { rewrite Hs.
    apply Qle_lt_trans with (q * pow2 (- e1)).
    - apply Qmult_le_l; [assumption | apply pow2_le; lia].
    - apply Qlt_le_trans with (pow2 (53 + e1) * pow2 (- e1)).
      + apply Qmult_lt_r; [apply pow2_pos | assumption].
      + rewrite <- pow2_add. replace (53 + e1 + - e1)%Z with 53%Z by lia. lra. }
  apply Qabs_Qle_condition in Hk as [Hk1 Hk2].
  assert (Hku : (k <= 2 ^ 53)%Z).
  { assert (H : inject_Z k < inject_Z (2 ^ 53 + 1)).
    { change (inject_Z (2 ^ 53 + 1)) with (pow2 53 + 1). lra. }
    rewrite <- Zlt_Qlt in H. lia. }
  (* the error of [k * 2^e] *)
  assert (Ekq : inject_Z k * pow2 e - q == (inject_Z k - t) * pow2 e).
  { rewrite Hs. transitivity (inject_Z k * pow2 e - q * (pow2 e * pow2 (- e))); [|ring].
    rewrite pow2_cancel. ring. }
  assert (Hhalf : pow2 e * (1 # 2) <= q * pow2 (- 53) + pow2 (- 1075)).
  { destruct (Z.eq_dec e e1) as [E | E].
    - assert (H : pow2 e * (1 # 2) <= q * pow2 (- 53)).
      { apply Qle_trans with (pow2 (52 + e1) * pow2 (- 53)).
        - rewrite <- pow2_add, E.
          replace (52 + e1 + - 53)%Z with (e1 + - 1)%Z by lia.
          rewrite pow2_add. change (pow2 (- 1)) with (1 # 2). lra.
        - apply Qmult_le_compat_r; [assumption|].
          apply Qlt_le_weak, pow2_pos. }
      pose proof (pow2_pos (- 1075)). lra.
    - assert (E' : e = emin) by (unfold e in *; lia).
      assert (H : pow2 e * (1 # 2) == pow2 (- 1075)).
      { rewrite E'. unfold emin. change (1 # 2) with (pow2 (- 1)).
        rewrite <- pow2_add. reflexivity. }
      assert (H0 : 0 <= q * pow2 (- 53)).
      { apply Qmult_le_0_compat; [lra | apply Qlt_le_weak, pow2_pos]. }
      lra. }
  assert (Herr : Qabs (inject_Z k * pow2 e - q)
                 <= q * pow2 (- 53) + pow2 (- 1075)).
  { rewrite Ekq, Qabs_Qmult, (Qabs_pos (pow2 e)) by lra.
    apply Qle_trans with ((1 # 2) * pow2 e); [|lra].
    apply Qmult_le_compat_r; [|lra].
    apply Qabs_Qle_condition. split; assumption. }
  destruct (k =? 2 ^ 53)%Z eqn:Ek.
  - right. apply Z.eqb_eq in Ek. cbv zeta iota beta.
    change (2 ^ 52)%Z with (Zpos (2 ^ 52)). cbv iota.
    assert (Hex : (e + 1 <=? emax - prec)%Z = true)
      by (apply Z.leb_le; unfold emax, prec; lia).
    rewrite Hex. exists (2 ^ 52)%positive, (e + 1)%Z.
    split; [reflexivity|]. split; [reflexivity|].
    assert (E : inject_Z (Zpos (2 ^ 52)) * pow2 (e + 1)
                == inject_Z k * pow2 e).
    { rewrite Ek, pow2_succ.
      change (inject_Z (2 ^ 53)) with (2 * inject_Z (Zpos (2 ^ 52))). ring. }
    rewrite E. exact Herr.
  - apply Z.eqb_neq in Ek. cbv zeta iota beta.
    destruct k as [|mant|mant]; try lia.
    + left. split; [reflexivity|].
      assert (H : t <= 1 # 2) by (change (inject_Z 0) with 0 in Hk1; lra).
      rewrite Hs in H.
      assert (E : q == q * pow2 (- e) * pow2 e).
      { rewrite <- Qmult_assoc, (Qmult_comm (pow2 (- e))), pow2_cancel. ring. }
      rewrite E.
      apply Qle_trans with ((1 # 2) * pow2 e).
      * apply Qmult_le_compat_r; [assumption | lra].
      * destruct (Z.eq_dec e emin) as [E' | E'].
        -- rewrite E'. unfold emin. change (1 # 2) with (pow2 (- 1)).
           rewrite <- pow2_add. apply Qle_refl.
        -- exfalso. assert (E1 : e = e1) by (unfold e in *; lia).
           assert (Hc : pow2 52 <= t).
           { rewrite Hs, E1.
             apply Qle_trans with (pow2 (52 + e1) * pow2 (- e1)).
             - rewrite <- pow2_add.
               replace (52 + e1 + - e1)%Z with 52%Z by lia. lra.
             - apply Qmult_le_compat_r; [assumption|].
               apply Qlt_le_weak, pow2_pos. }
           change (pow2 52) with (inject_Z (2 ^ 52)) in Hc.
           change (inject_Z 0) with 0 in Hk1.
           assert (Hb : inject_Z (2 ^ 52) <= 1 # 2).
           { rewrite Hs in Hc. rewrite E1 in H. lra. }
           revert Hb. vm_compute. intros Hb. apply Hb. reflexivity.
    + right.
      assert (Hex : (e <=? emax - prec)%Z = true)
        by (apply Z.leb_le; unfold emax, prec; lia).
      rewrite Hex. exists mant, e. split; [reflexivity|].
      split; [lia | exact Herr].
Qed.

(** Whatever the quotient, the mantissa of the rounded value has at
    most 53 bits. *)
Lemma round_pos_canonical (s : bool) (p d : positive) :
  canonical (round_pos s p d).
Proof.
  destruct (exponent_bracket (Zpos p) (Zpos d)) as (e1 & He & Hlo & Hhi);
    [lia | lia |].
  set (q := inject_Z (Zpos p) / inject_Z (Zpos d)) in *.
  set (e := Z.max e1 emin) in *.
  destruct (scaled_spec (Zpos p) (Zpos d) e) as (Hn & Hm & Hs); [lia | lia |].
  fold q in Hs.
  unfold round_pos. rewrite He.
  destruct (scaled (Zpos p) (Zpos d) e) as [n m]. cbn [fst snd] in *.
  pose proof (div_nearest_even_spec n m Hm) as Hk.
  set (k := div_nearest_even n m) in *.
  set (t := inject_Z n / inject_Z m) in *.
  assert (Hq : 0 < q) by (pose proof (pow2_pos (52 + e1)); lra).
  assert (Ht2 : t < pow2 53).
  { rewrite Hs.
    apply Qle_lt_trans with (q * pow2 (- e1)).
    - apply Qmult_le_l; [assumption | apply pow2_le; unfold e; lia].
    - apply Qlt_le_trans with (pow2 (53 + e1) * pow2 (- e1)).
      + apply Qmult_lt_r; [apply pow2_pos | assumption].
      + rewrite <- pow2_add. replace (53 + e1 + - e1)%Z with 53%Z by lia. lra. }
  apply Qabs_Qle_condition in Hk as [Hk1 Hk2].
  assert (Hku : (k <= 2 ^ 53)%Z).
  { assert (H : inject_Z k < inject_Z (2 ^ 53 + 1)).
    { change (inject_Z (2 ^ 53 + 1)) with (pow2 53 + 1). lra. }
    rewrite <- Zlt_Qlt in H. lia. }
  destruct (k =? 2 ^ 53)%Z eqn:Ek.
  - cbv zeta iota beta. change (2 ^ 52)%Z with (Zpos (2 ^ 52)). cbv iota.
    destruct (_ <=? _)%Z; [reflexivity | exact I].
  - apply Z.eqb_neq in Ek. cbv zeta iota beta.
    destruct k as [|mant|mant]; try exact I.
    destruct (_ <=? _)%Z; [cbn [canonical]; lia | exact I].
Qed.

Lemma of_Q_canonical (q : Q) : canonical (of_Q q).
Proof.
  unfold of_Q. destruct (Qnum (Qred q)); [exact I | |];
    apply round_pos_canonical.
Qed.

(** Conversion of a positive rational below the overflow threshold. *)
Lemma of_Q_below_overflow (q : Q) :
  0 < q -> q < pow2 1023 ->
  of_Q q = S754_zero false \/
  (exists (m : positive) (e : Z),
      of_Q q = S754_finite false m e /\
      Qabs (val (of_Q q) - q) <= q * pow2 (- 53) + pow2 (- 1075)).
Proof.
  intros Hq Hmax. destruct (Qred_pos q Hq) as (p & Hp & Hv).
  unfold of_Q. rewrite Hp.
  destruct (round_pos_below_overflow false p (Qden (Qred q)))
    as [[Hz _] | (m & e & Hr & _ & Herr)].
  - rewrite Hv. exact Hmax.
  - left. exact Hz.
  - right. exists m, e. rewrite Hr. split; [reflexivity|].
    cbn [val]. rewrite Hv in Herr. exact Herr.
Qed.

(** Integers of at most 53 bits are represented exactly, whatever
    their sign. *)
Lemma round_pos_integer (s : bool) (p : positive) :
  (Zpos p < 2 ^ 53)%Z ->
  exists (m : positive) (e : Z),
    round_pos s p 1 = S754_finite s m e /\
    inject_Z (Zpos m) * pow2 e == inject_Z (Zpos p).
Proof.
  intros Hn.
  assert (Hq : inject_Z (Zpos p) / inject_Z 1 == inject_Z (Zpos p))
    by (field).
  destruct (round_pos_shape s p 1)
    as (e1 & m & e & [He1 _] & Hlo & Hhi & Hr & Hk & _).
  - rewrite Hq. apply Qle_trans with (pow2 0); [apply pow2_le; lia|].
    change (pow2 0) with (inject_Z 1). rewrite <- Zle_Qle. lia.
  - rewrite Hq. apply Qlt_le_trans with (pow2 53); [|apply pow2_le; lia].
    change (pow2 53) with (inject_Z (2 ^ 53)). rewrite <- Zlt_Qlt. lia.
  - rewrite Hq in Hlo.
    assert (H0 : (e1 <= 0)%Z).
    { assert (H : pow2 (52 + e1) < pow2 53).
      { apply Qle_lt_trans with (inject_Z (Zpos p)); [assumption|].
        change (pow2 53) with (inject_Z (2 ^ 53)). rewrite <- Zlt_Qlt. lia. }
      apply pow2_lt_inv in H. lia. }
    exists m, e. split; [exact Hr|]. rewrite Hk.
    assert (Es : scaled (Zpos p) 1 e1 = (Zpos p * 2 ^ (- e1), 1)%Z).
    { unfold scaled. destruct (0 <=? e1)%Z eqn:E; [|reflexivity].
      apply Z.leb_le in E. replace e1 with 0%Z by lia.
      cbn. now rewrite Pos.mul_1_r. }
    rewrite Es. cbn [fst snd]. rewrite div_nearest_even_one, inject_Z_mult.
    rewrite <- (pow2_inject (- e1)) by lia.
    rewrite <- Qmult_assoc, (Qmult_comm (pow2 (- e1))), pow2_cancel. ring.
Qed.

Lemma of_Z_integral (n : Z) :
  (- 2 ^ 53 < n < 2 ^ 53)%Z ->
  is_finite (of_Z n) = true /\ val (of_Z n) == inject_Z n.
Proof.
  intros Hn. unfold of_Z, of_Q. rewrite Qred_inject_Z.
  cbn [Qnum Qden inject_Z]. destruct n as [|p|p].
  - split; reflexivity.
  - destruct (round_pos_integer false p) as (m & e & -> & Hv); [lia|].
    split; [reflexivity | exact Hv].
  - destruct (round_pos_integer true p) as (m & e & -> & Hv); [lia|].
    split; [reflexivity|]. cbn [val].
    change (inject_Z (Z.neg m)) with (- inject_Z (Z.pos m)).
    change (inject_Z (Z.neg p)) with (- inject_Z (Z.pos p)).
    rewrite <- Hv. ring.
Qed.

End RoundAll.

Module Minutes.
Import Num NumFacts RoundFacts RoundAll.
Local Open Scope Q_scope.

(** ** [Math.round] *)

Lemma val_finite_bound (s : bool) (m : positive) (e : Z) :
  (Zpos m < 2 ^ 53)%Z -> (e < 0)%Z ->
  - pow2 52 < val (S754_finite s m e) /\ val (S754_finite s m e) < pow2 52.
Proof.
  intros Hm He. cbn [val].
  assert (H1 : pow2 e <= 1 # 2).
  { change (1 # 2) with (pow2 (- 1)). apply pow2_le. lia. }
  pose proof (pow2_pos e) as H0.
  assert (Hm' : inject_Z (Zpos m) < pow2 53).
  { change (pow2 53) with (inject_Z (2 ^ 53)). now rewrite <- Zlt_Qlt. }
  assert (Hm0 : 0 < inject_Z (Zpos m)) by (apply inject_Z_pos; lia).
  assert (Hb : inject_Z (Zpos m) * pow2 e < pow2 52).
  { apply Qle_lt_trans with (inject_Z (Zpos m) * (1 # 2)).
    - apply Qmult_le_l; assumption.
    - assert (E : pow2 53 * (1 # 2) == pow2 52) by reflexivity. lra. }
  destruct s.
  - change (inject_Z (Z.neg m)) with (- inject_Z (Z.pos m)).
    assert (Hp : 0 < inject_Z (Z.pos m) * pow2 e)
      by (apply Qmult_lt_0_compat; assumption).
    pose proof (pow2_pos 52). split; lra.
  - assert (Hp : 0 < inject_Z (Z.pos m) * pow2 e)
      by (apply Qmult_lt_0_compat; assumption).
    pose proof (pow2_pos 52). split; lra.
Qed.

(** [Math.round] of a number is an infinity or an integer. *)
Lemma round_integral (x : number) :
  canonical x ->
  (exists s, round x = S754_infinity s) \/ Integral (round x).
Proof.
  destruct x as [s | s | | s m e]; cbn [canonical round]; intros Hc.
  - right. split; [reflexivity|]. exists 0%Z. reflexivity.
  - left. now exists s.
  - contradiction.
  - destruct (0 <=? e)%Z eqn:E.
    + right. split; [reflexivity|]. apply Z.leb_le in E.
      exists ((if s then Zneg m else Zpos m) * 2 ^ e)%Z.
      cbn [val]. rewrite inject_Z_mult, pow2_inject by assumption.
      destruct s; reflexivity.
    + apply Z.leb_gt in E.
      destruct (val_finite_bound s m e Hc E) as [B1 B2].
      set (v := val (S754_finite s m e)) in *.
      set (n := Qfloor (v + (1 # 2))).
      destruct (n =? 0)%Z eqn:En.
      * right. split; [reflexivity|]. exists 0%Z. reflexivity.
      * right.
        assert (Hn : (- 2 ^ 53 < n < 2 ^ 53)%Z).
        { pose proof (Qfloor_le (v + (1 # 2))) as F1.
          pose proof (Qlt_floor (v + (1 # 2))) as F2.
          fold n in F1, F2. rewrite inject_Z_plus in F2.
          change (inject_Z 1) with 1 in F2.
          change (pow2 52) with (inject_Z (2 ^ 52)) in B1, B2.
          assert (G1 : inject_Z (- 2 ^ 52 - 1) < inject_Z n).
          { change (inject_Z (- 2 ^ 52 - 1)) with (- inject_Z (2 ^ 52) - 1). lra. }
          assert (G2 : inject_Z n < inject_Z (2 ^ 52 + 1)).
          { change (inject_Z (2 ^ 52 + 1)) with (inject_Z (2 ^ 52) + 1). lra. }
          rewrite <- Zlt_Qlt in G1, G2. lia. }
        destruct (of_Z_integral n Hn) as [Hf Hv].
        split; [assumption | now exists n].
Qed.

(** ** The clamp *)

Lemma compare_finite_finite (x y : number) :
  is_finite x = true -> is_finite y = true ->
  compare x y = Some (val x ?= val y).
Proof. destruct x, y; try discriminate; reflexivity. Qed.

Lemma literal_5 : literal 5 = S754_finite false 5629499534213120 (-50).
Proof. vm_compute. reflexivity. Qed.

Lemma literal_30 : literal 30 = S754_finite false 8444249301319680 (-48).
Proof. vm_compute. reflexivity. Qed.

Lemma val_literal_5 : val (literal 5) == 5.
Proof. vm_compute. reflexivity. Qed.

Lemma val_literal_30 : val (literal 30) == 30.
Proof. vm_compute. reflexivity. Qed.

(** Clamping an infinity or an integer to [[5, 30]] gives an integer
    of that interval. *)
Lemma clamp_integral (t : number) :
  (exists s, t = S754_infinity s) \/ Integral t ->
  exists n : Z,
    (5 <= n <= 30)%Z /\
    is_finite (max (literal 5) (min (literal 30) t)) = true /\
    val (max (literal 5) (min (literal 30) t)) == inject_Z n.
Proof.
  intros [[s ->] | [Hf [n Hn]]].
  - destruct s.
    + exists 5%Z. split; [lia|]. vm_compute. split; reflexivity.
    + exists 30%Z. split; [lia|]. vm_compute. split; reflexivity.
  - assert (F5 : is_finite (literal 5) = true) by reflexivity.
    assert (F30 : is_finite (literal 30) = true) by reflexivity.
    pose proof val_literal_5 as V5. pose proof val_literal_30 as V30.
    assert (S5 : sign_of (literal 5) = false) by reflexivity.
    assert (S30 : sign_of (literal 30) = false) by reflexivity.
    assert (C530 : compare (literal 5) (literal 30) = Some Lt) by reflexivity.
    unfold min. rewrite (compare_finite_finite _ _ F30 Hf), S30.
    destruct (Qcompare_spec (val (literal 30)) (val t)) as [E | L | G].
    + (* t is 30 *)
      unfold max. rewrite (compare_finite_finite _ _ F5 Hf).
      assert (L5 : val (literal 5) < val t) by (rewrite <- E, V5, V30; reflexivity).
      assert (L5' : (val (literal 5) ?= val t) = Lt) by (apply Qlt_alt; exact L5).
      rewrite L5'.
      exists 30%Z. split; [lia|]. split; [assumption|].
      rewrite <- E, V30. reflexivity.
    + (* t is above 30 *)
      unfold max. rewrite C530.
      exists 30%Z. split; [lia|]. split; [assumption | exact V30].
    + (* t is below 30 *)
      unfold max. rewrite (compare_finite_finite _ _ F5 Hf), S5.
      destruct (Qcompare_spec (val (literal 5)) (val t)) as [E' | L' | G'].
      * exists 5%Z. split; [lia|]. split; [assumption | exact V5].
      * exists n. rewrite Hn in L', G. rewrite V5 in L'. rewrite V30 in G.
        change 5 with (inject_Z 5) in L'. change 30 with (inject_Z 30) in G.
        rewrite <- Zlt_Qlt in L', G.
        split; [lia|]. split; assumption.
      * exists 5%Z. split; [lia|]. split; [assumption | exact V5].
Qed.

(** ** The random factor *)

Lemma literal_07 :
  literal (7 # 10) = S754_finite false 6305039478318694 (-53).
Proof. vm_compute. reflexivity. Qed.

Lemma literal_06 :
  literal (6 # 10) = S754_finite false 5404319552844595 (-53).
Proof. vm_compute. reflexivity. Qed.

Lemma literal_005 :
  literal (5 # 100) = S754_finite false 7205759403792794 (-57).
Proof. vm_compute. reflexivity. Qed.

Lemma literal_10 : literal 10 = S754_finite false 5629499534213120 (-49).
Proof. vm_compute. reflexivity. Qed.

(** A random number in [[0, 1)] is a zero or a positive number
    below 1. *)
Lemma isRandom_cases (r : number) :
  isRandom r = true ->
  (exists s, r = S754_zero s) \/
  (exists m e, r = S754_finite false m e /\ 0 < val r /\ val r < 1).
Proof.
  unfold isRandom. intros H.
  apply andb_prop in H as [H H1]. apply andb_prop in H as [Hf H0].
  destruct r as [s | s | | s m e]; try discriminate.
  - left. now exists s.
  - right. unfold leb in H0. unfold ltb in H1.
    change (of_Z 0) with (S754_zero false) in H0.
    change (of_Z 1) with (S754_finite false 4503599627370496 (-52)) in H1.
    cbn [compare] in H0, H1.
    assert (Hv : 0 < inject_Z (Zpos m) * pow2 e).
    { apply Qmult_lt_0_compat; [apply inject_Z_pos; lia | apply pow2_pos]. }
    assert (H1' : val (S754_finite s m e) < 1).
    { destruct (Qcompare_spec (val (S754_finite s m e))
                  (val (S754_finite false 4503599627370496 (-52))))
        as [E | L | G]; try discriminate.
      assert (E1 : val (S754_finite false 4503599627370496 (-52)) == 1)
        by reflexivity.
      rewrite E1 in L. exact L. }
    destruct s.
    + exfalso.
      destruct (Qcompare_spec (val (S754_zero false))
                  (val (S754_finite true m e))) as [E | L | G];
        try discriminate; cbn [val] in *;
        change (inject_Z (Z.neg m)) with (- inject_Z (Z.pos m)) in *; lra.
    + exists m, e. split; [reflexivity|]. split; [exact Hv | exact H1'].
Qed.

Lemma randomFactor_finite (r : number) :
  isRandom r = true ->
  exists (m : positive) (e : Z),
    add (literal (7 # 10)) (mul r (literal (6 # 10)))
    = S754_finite false m e.
Proof.
  intros Hr. rewrite literal_07, literal_06.
  destruct (isRandom_cases r Hr) as [[s ->] | (m & e & -> & H0 & H1)].
  - cbn [mul add]. eauto.
  - cbn [mul].
    set (r := S754_finite false m e) in *.
    set (c := S754_finite false 5404319552844595 (-53)).
    assert (Vc : val c == 5404319552844595 # 9007199254740992) by reflexivity.
    set (q := val r * val c).
    assert (Hq0 : 0 < q).
    { unfold q. apply Qmult_lt_0_compat; [assumption|]. rewrite Vc. reflexivity. }
    assert (Hq1 : q < 1).
    { unfold q. rewrite Vc.
      apply Qlt_le_trans with (1 * (5404319552844595 # 9007199254740992)).
      - apply Qmult_lt_r; [reflexivity | assumption].
      - discriminate. }
    assert (Hov : q < pow2 1023).
    { apply Qlt_le_trans with (pow2 0); [exact Hq1 | apply pow2_le; lia]. }
    destruct (of_Q_below_overflow q Hq0 Hov) as [-> | (m' & e' & E & Herr)].
    + cbn [add]. eauto.
    + rewrite E in Herr |- *. cbn [add].
      set (t := S754_finite false m' e') in *.
      set (a := S754_finite false 6305039478318694 (-53)).
      assert (Va : val a == 6305039478318694 # 9007199254740992) by reflexivity.
      assert (Ht0 : 0 < val t).
      { cbn [val t]. apply Qmult_lt_0_compat;
          [apply inject_Z_pos; lia | apply pow2_pos]. }
      assert (Hu : pow2 (- 53) <= 1 # 1000).
      { apply Qle_trans with (pow2 (- 10)); [apply pow2_le; lia | discriminate]. }
      assert (Hu' : pow2 (- 1075) <= 1 # 1000).
      { apply Qle_trans with (pow2 (- 10)); [apply pow2_le; lia | discriminate]. }
      pose proof (pow2_pos (- 53)) as Hu0.
      assert (Hqu : q * pow2 (- 53) <= 1 # 1000).
      { apply Qle_trans with (1 * pow2 (- 53)); [|lra].
        apply Qmult_le_compat_r; lra. }
      apply Qabs_Qle_condition in Herr as [_ Herr].
      destruct (RoundTrip.of_Q_bounds (val a + val t)) as (m2 & e2 & E2 & _).
      * rewrite Va. lra.
      * rewrite Va. change (inject_Z (10 ^ 20)) with 100000000000000000000. lra.
      * exists m2, e2. exact E2.
Qed.

(** ** Products and sums that are not NaN *)

Lemma mul_finite_not_nan (x y : number) (m : positive) (e : Z) :
  isNaN x = false -> y = S754_finite false m e ->
  isNaN (mul x y) = false /\ canonical (mul x y).
Proof.
  intros Hx ->. destruct x; try discriminate; cbn [mul].
  - split; [reflexivity | exact I].
  - split; [reflexivity | exact I].
  - split; [apply of_Q_not_nan | apply of_Q_canonical].
Qed.

Lemma add_finite_not_nan (x y : number) (m : positive) (e : Z) :
  x = S754_finite false m e -> isNaN y = false -> isNaN (add x y) = false.
Proof.
  intros -> Hy. destruct y; try discriminate; cbn [add]; try reflexivity.
  apply of_Q_not_nan.
Qed.

(** ** The estimated time of a number *)

Lemma calculateTransactionMinutes_integral (value random : number) :
  isNaN value = false -> isRandom random = true ->
  exists n : Z,
    (5 <= n <= 30)%Z /\
    is_finite (calculateTransactionMinutes value random) = true /\
    val (calculateTransactionMinutes value random) == inject_Z n.
Proof.
  intros Hv Hr. unfold calculateTransactionMinutes.
  destruct (randomFactor_finite random Hr) as (mf & ef & ->).
  destruct (mul_finite_not_nan value _ _ _ Hv literal_005) as [Hve _].
  pose proof (add_finite_not_nan _ _ _ _ literal_10 Hve) as Hw.
  destruct (mul_finite_not_nan _ (S754_finite false mf ef) mf ef Hw eq_refl)
    as [_ Hc].
  apply clamp_integral, round_integral, Hc.
Qed.

End Minutes.

Import Num Conv StrFacts NumFacts.

(** ** Handlers *)

Lemma validateAmount_cases (amount : string) (c : CurrencyKey) :
  validateAmount amount c = "" \/
  validateAmount amount c = ERROR_MESSAGES.NUMBERS_ONLY \/
  validateAmount amount c = insufficientBalance c.
Proof.
  unfold validateAmount. destruct (negb (isNumericInput amount)); [auto|].
  destruct (Str.truthy amount && _); [|auto]. destruct c; auto.
Qed.

Lemma insufficientBalance_not_format (c : CurrencyKey) :
  String.eqb (insufficientBalance c) ERROR_MESSAGES.NUMBERS_ONLY = false /\
  Str.truthy (insufficientBalance c) = true.
Proof. destruct c; split; reflexivity. Qed.

(** C7.  When the comma-stripped value of an edit fails the format check,
    the handler of the edited field stores the "numbers only" error for
    that field and keeps both amounts; the effects of the following
    render do not touch them either. *)
Theorem format_error_keeps_amounts :
  forall (st : State) (value : string) (random : number),
    isNumericInput (stripCommas value) = false ->
    (let st' := handleSendAmountChange st value random in
     sendError st' = ERROR_MESSAGES.NUMBERS_ONLY /\
     sendAmount st' = sendAmount st /\ receiveAmount st' = receiveAmount st) /\
    (let st' := handleReceiveAmountChange st value random in
     receiveError st' = ERROR_MESSAGES.NUMBERS_ONLY /\
     sendAmount st' = sendAmount st /\ receiveAmount st' = receiveAmount st) /\
    (let st' := step st (ChangeSend value random) in
     sendError st' = ERROR_MESSAGES.NUMBERS_ONLY /\
     sendAmount st' = sendAmount st /\ receiveAmount st' = receiveAmount st) /\
    (let st' := step st (ChangeReceive value random) in
     receiveError st' = ERROR_MESSAGES.NUMBERS_ONLY /\
     sendAmount st' = sendAmount st /\ receiveAmount st' = receiveAmount st).
Proof.
  intros st value random Hbad.
  assert (Hv : validateAmount (stripCommas value) (sendCurrency st)
               = ERROR_MESSAGES.NUMBERS_ONLY)
    by now apply validateAmount_NUMBERS_ONLY.
  assert (Hs : let st' := handleSendAmountChange st value random in
     sendError st' = ERROR_MESSAGES.NUMBERS_ONLY /\
     sendAmount st' = sendAmount st /\ receiveAmount st' = receiveAmount st /\
     sendCurrency st' = sendCurrency st /\
     receiveCurrency st' = receiveCurrency st).
  { unfold handleSendAmountChange. rewrite Hv.
    destruct (trackError _ _ _ _) as [cnt shake]. cbn. repeat split. }
  assert (Hr : let st' := handleReceiveAmountChange st value random in
     receiveError st' = ERROR_MESSAGES.NUMBERS_ONLY /\
     sendAmount st' = sendAmount st /\ receiveAmount st' = receiveAmount st /\
     sendCurrency st' = sendCurrency st /\
     receiveCurrency st' = receiveCurrency st).
  { unfold handleReceiveAmountChange. rewrite Hbad. cbn [negb].
    destruct (String.eqb _ _); cbn; repeat split. }
  cbv zeta in Hs, Hr.
  destruct Hs as (Hs1 & Hs2 & Hs3 & Hs4 & Hs5).
  destruct Hr as (Hr1 & Hr2 & Hr3 & Hr4 & Hr5).
  assert (Hc : forall c, CurrencyKey_eqb c c = true) by (intros []; reflexivity).
  repeat split; trivial;
    unfold step, runEffects; cbn [handle];
    rewrite ?Hs2, ?Hs3, ?Hs4, ?Hs5, ?Hr2, ?Hr3, ?Hr4, ?Hr5,
      ?String.eqb_refl, ?Hc; cbn [negb orb]; trivial.
Qed.

Lemma format_error_keeps_amounts_witness :
  isNumericInput (stripCommas "1,0x") = false /\
  sendError (handleSendAmountChange initialState "1,0x" (literal (1 # 2)))
  = ERROR_MESSAGES.NUMBERS_ONLY /\
  sendAmount (handleSendAmountChange initialState "1,0x" (literal (1 # 2)))
  = "1.00" /\
  receiveAmount (handleSendAmountChange initialState "1,0x" (literal (1 # 2)))
  = "2184.33".
Proof.
  split; [reflexivity|].
  apply (format_error_keeps_amounts initialState "1,0x" (literal (1 # 2))).
  reflexivity.
Defined.

Import Num Conv StrFacts NumFacts.

(** ** Invariants of the reachable states *)

Lemma runEffects_currencies (prev next : State) :
  sendCurrency (runEffects prev next) = sendCurrency next /\
  receiveCurrency (runEffects prev next) = receiveCurrency next.
Proof.
  unfold runEffects, sendEffect, receiveEffect, resetSendError.
  repeat break_if; split; reflexivity.
Qed.

Lemma runEffects_errors (prev next : State) :
  (sendError (runEffects prev next) = sendError next \/
   exists amount, sendError (runEffects prev next)
                  = validateAmount amount (sendCurrency next)) /\
  receiveError (runEffects prev next) = receiveError next /\
  isLoading (runEffects prev next) = isLoading next /\
  isSuccess (runEffects prev next) = isSuccess next.
Proof.
  unfold runEffects, sendEffect, receiveEffect, resetSendError.
  repeat break_if; cbn; repeat split; eauto.
Qed.

Lemma handle_currencies (st : State) (ev : Event) :
  (sendCurrency (handle st ev) = sendCurrency st /\
   receiveCurrency (handle st ev) = receiveCurrency st) \/
  (sendCurrency (handle st ev) = receiveCurrency st /\
   receiveCurrency (handle st ev) = sendCurrency st).
Proof.
  destruct ev; cbn [handle];
    unfold handleSendAmountChange, handleReceiveAmountChange, handleSwap;
    repeat break_if; cbn; auto.
Qed.

Lemma mount_currencies (r : number) :
  sendCurrency (mount r) = ETH /\ receiveCurrency (mount r) = USDT.
Proof. split; reflexivity. Qed.

Lemma DistinctPair_Reachable (st : State) : Reachable st -> DistinctPair st.
Proof.
  induction 1 as [r Hr | st ev Hst IH Hen].
  - left. apply mount_currencies.
  - unfold step, DistinctPair.
    destruct (runEffects_currencies st (handle st ev)) as [-> ->].
    destruct (handle_currencies st ev) as [[-> ->] | [-> ->]];
      destruct IH as [[-> ->] | [-> ->]]; auto.
Qed.

(** C10.  In every state reachable from the mounted component by edits,
    swaps, confirmations, resets and the other events, the send and the
    receive currency are the two different assets: one is ETH and the
    other is USDT. *)
Theorem currencies_always_distinct :
  forall st : State,
    Reachable st ->
    DistinctPair st /\ sendCurrency st <> receiveCurrency st.
Proof.
  intros st H. pose proof (DistinctPair_Reachable st H) as Hd.
  split; [assumption|].
  destruct Hd as [[-> ->] | [-> ->]]; discriminate.
Qed.

Lemma currencies_always_distinct_witness :
  Reachable (step (mount (literal (1 # 2))) (ClickSwap (literal (1 # 4)))) /\
  DistinctPair (step (mount (literal (1 # 2))) (ClickSwap (literal (1 # 4)))) /\
  sendCurrency (step (mount (literal (1 # 2))) (ClickSwap (literal (1 # 4))))
  <> receiveCurrency (step (mount (literal (1 # 2))) (ClickSwap (literal (1 # 4)))).
Proof.
  assert (H : Reachable (step (mount (literal (1 # 2)))
                              (ClickSwap (literal (1 # 4))))).
  { apply ReachStep; [apply ReachMount|]; reflexivity. }
  split; [exact H|].
  exact (currencies_always_distinct _ H).
Defined.

Lemma KnownErrors_mount (r : number) : KnownErrors (mount r).
Proof. split; left; reflexivity. Qed.

Lemma KnownErrors_handle (st : State) (ev : Event) :
  KnownErrors st -> KnownErrors (handle st ev).
Proof.
  intros [Hs Hr]. unfold KnownErrors.
  destruct ev; cbn [handle];
    unfold handleSendAmountChange, handleReceiveAmountChange, handleSwap;
    repeat break_if; cbn; auto using validateAmount_cases.
Qed.

Lemma KnownErrors_runEffects (prev next : State) :
  KnownErrors next -> KnownErrors (runEffects prev next).
Proof.
  intros [Hs Hr]. unfold KnownErrors.
  destruct (runEffects_currencies prev next) as [-> _].
  destruct (runEffects_errors prev next) as ([-> | [a ->]] & -> & _);
    auto using validateAmount_cases.
Qed.

Lemma KnownErrors_Reachable (st : State) : Reachable st -> KnownErrors st.
Proof.
  induction 1 as [r Hr | st ev Hst IH Hen].
  - apply KnownErrors_mount.
  - apply KnownErrors_runEffects, KnownErrors_handle, IH.
Qed.

(** An edit of the send field whose value has the numeric format but is
    not within the balance is flagged by the handler, and the flag
    disables the confirm button. *)
Lemma over_balance_edit_is_flagged (st : State) (value : string) (r : number) :
  isNumericInput (stripCommas value) = true ->
  stripCommas value <> "" ->
  isWithinBalance (stripCommas value) (balance (CURRENCIES (sendCurrency st)))
  = false ->
  let st' := handleSendAmountChange st value r in
  sendAmount st' = stripCommas value /\
  sendError st' = insufficientBalance (sendCurrency st') /\
  confirmDisabled st' = true.
Proof.
  intros Hf Hne Hb.
  assert (Hv : validateAmount (stripCommas value) (sendCurrency st)
               = insufficientBalance (sendCurrency st)).
  { unfold validateAmount. rewrite Hf, Hb. apply truthy_true in Hne.
    rewrite Hne. destruct (sendCurrency st); reflexivity. }
  unfold handleSendAmountChange. rewrite Hv.
  destruct (insufficientBalance_not_format (sendCurrency st)) as [E1 E2].
  rewrite E1. destruct (trackError _ _ _ _) as [cnt shake].
  cbn. unfold confirmDisabled. cbn. rewrite E2. auto.
Qed.

(** C4.  In every reachable state the confirm control is enabled exactly
    when the form is shown, neither field shows an error and no
    confirmation is in flight ([isLoading]); the only errors a field can
    show are the format error and the balance error of the send asset;
    and while the send field shows that balance error, as it does after
    an edit that exceeds the balance, the confirm button is disabled. *)
Theorem confirm_enabled_only_without_errors :
  forall st : State,
    Reachable st ->
    (enabled st ClickConfirm = true <->
     isSuccess st = false /\ sendError st = "" /\ receiveError st = "" /\
     isLoading st = false) /\
    KnownErrors st /\
    (sendError st = ERROR_MESSAGES.NUMBERS_ONLY \/
     receiveError st = ERROR_MESSAGES.NUMBERS_ONLY \/
     sendError st = insufficientBalance (sendCurrency st) \/
     isLoading st = true ->
     confirmDisabled st = true /\ enabled st ClickConfirm = false) /\
    (forall (value : string) (r : number),
        isNumericInput (stripCommas value) = true ->
        stripCommas value <> "" ->
        isWithinBalance (stripCommas value)
          (balance (CURRENCIES (sendCurrency st))) = false ->
        let st' := handleSendAmountChange st value r in
        sendError st' = insufficientBalance (sendCurrency st') /\
        confirmDisabled st' = true).
Proof.
  intros st H. split; [|split; [|split]].
  - unfold enabled, confirmDisabled.
    rewrite andb_true_iff, !negb_true_iff, !orb_false_iff, !truthy_false.
    tauto.
  - now apply KnownErrors_Reachable.
  - unfold enabled, confirmDisabled.
    destruct (insufficientBalance_not_format (sendCurrency st)) as [_ E].
    intros [-> | [-> | [-> | ->]]]; rewrite ?E; cbn;
      rewrite ?orb_true_r, ?andb_false_r; auto.
  - intros value r Hf Hne Hb.
    destruct (over_balance_edit_is_flagged st value r Hf Hne Hb) as (_ & H1 & H2).
    auto.
Qed.

Lemma confirm_enabled_only_without_errors_witness :
  Reachable (step (mount (literal (1 # 2))) (ChangeSend "5" (literal (1 # 4)))) /\
  confirmDisabled (step (mount (literal (1 # 2))) (ChangeSend "5" (literal (1 # 4))))
  = true /\
  enabled (step (mount (literal (1 # 2))) (ChangeSend "5" (literal (1 # 4))))
    ClickConfirm = false.
Proof.
  assert (H : Reachable (step (mount (literal (1 # 2)))
                              (ChangeSend "5" (literal (1 # 4))))).
  { apply ReachStep; [apply ReachMount|]; vm_compute; reflexivity. }
  split; [exact H|].
  pose proof (confirm_enabled_only_without_errors _ H) as T.
  destruct T as (_ & _ & T & _).
  apply T.
  right; right; left.
  vm_compute. 
  reflexivity.
Defined.

Import Num Conv StrFacts NumFacts.

(** ** The repeat counter and the shake *)

(** The counter grows by one when the new error is an error and equals
    the previous one, and returns to zero otherwise; the shake starts
    when the counter had already reached two. *)
Lemma trackError_spec (error prev : string) (cnt : nat) (shake : bool) :
  trackError error prev cnt shake
  = if Str.truthy error && String.eqb error prev
    then (S cnt, shake || (2 <=? cnt)%nat)
    else (O, shake).
Proof.
  unfold trackError. destruct (Str.truthy error && _); [|reflexivity].
  destruct (2 <=? cnt)%nat; [now rewrite orb_true_r | now rewrite orb_false_r].
Qed.

Lemma runEffects_same_deps (prev next : State) :
  sendAmount next = sendAmount prev ->
  receiveAmount next = receiveAmount prev ->
  sendCurrency next = sendCurrency prev ->
  receiveCurrency next = receiveCurrency prev ->
  runEffects prev next = next.
Proof.
  intros H1 H2 H3 H4. unfold runEffects.
  rewrite H1, H2, H3, H4, !String.eqb_refl.
  assert (Hc : forall c, CurrencyKey_eqb c c = true) by (intros []; reflexivity).
  rewrite !Hc. reflexivity.
Qed.

(** One edit of the send field with a value of invalid format. *)
Lemma send_format_error_step (st : State) (value : string) (r : number) :
  isNumericInput (stripCommas value) = false ->
  let st' := step st (ChangeSend value r) in
  let repeated := String.eqb ERROR_MESSAGES.NUMBERS_ONLY (prevSendErrorRef st) in
  sendError st' = ERROR_MESSAGES.NUMBERS_ONLY /\
  prevSendErrorRef st' = ERROR_MESSAGES.NUMBERS_ONLY /\
  sendErrorCount st' = (if repeated then S (sendErrorCount st) else O) /\
  shakeSendError st'
  = (if repeated then shakeSendError st || (2 <=? sendErrorCount st)%nat
     else shakeSendError st).
Proof.
  intros Hbad st' repeated.
  assert (Hv : validateAmount (stripCommas value) (sendCurrency st)
               = ERROR_MESSAGES.NUMBERS_ONLY)
    by now apply validateAmount_NUMBERS_ONLY.
  assert (E : st' = handleSendAmountChange st value r).
  { unfold st', step. cbn [handle]. apply runEffects_same_deps;
      unfold handleSendAmountChange; rewrite Hv;
      destruct (trackError _ _ _ _); reflexivity. }
  rewrite E. unfold handleSendAmountChange. rewrite Hv, trackError_spec.
  fold repeated. destruct repeated; cbn; auto.
Qed.

(** One edit of the receive field with a value of invalid format. *)
Lemma receive_format_error_step (st : State) (value : string) (r : number) :
  isNumericInput (stripCommas value) = false ->
  let st' := step st (ChangeReceive value r) in
  let repeated := String.eqb ERROR_MESSAGES.NUMBERS_ONLY (prevReceiveErrorRef st) in
  receiveError st' = ERROR_MESSAGES.NUMBERS_ONLY /\
  prevReceiveErrorRef st' = ERROR_MESSAGES.NUMBERS_ONLY /\
  receiveErrorCount st' = (if repeated then S (receiveErrorCount st) else O) /\
  shakeReceiveError st'
  = (if repeated then shakeReceiveError st || (2 <=? receiveErrorCount st)%nat
     else shakeReceiveError st).
Proof.
  intros Hbad st' repeated.
  assert (E : st' = handleReceiveAmountChange st value r).
  { unfold st', step. cbn [handle]. apply runEffects_same_deps;
      unfold handleReceiveAmountChange; rewrite Hbad; cbn [negb];
      destruct (String.eqb _ _); reflexivity. }
  rewrite E. unfold handleReceiveAmountChange. rewrite Hbad. cbn [negb].
  fold repeated. destruct repeated; cbn [receiveError prevReceiveErrorRef
    receiveErrorCount shakeReceiveError]; repeat split.
  destruct (shakeReceiveError st), (2 <=? receiveErrorCount st)%nat; reflexivity.
Qed.

(** C8.  The counter follows the claim, but the shake does not: when the
    same format error is produced three times in a row, starting from a
    field without that error, the counter ends at two and no shake has
    been started; it is the fourth identical error that starts it. *)
Theorem shake_starts_on_fourth_identical_error :
  forall (st : State) (value : string) (r1 r2 r3 r4 : number),
    isNumericInput (stripCommas value) = false ->
    prevSendErrorRef st <> ERROR_MESSAGES.NUMBERS_ONLY ->
    shakeSendError st = false ->
    let st3 := run st [ChangeSend value r1; ChangeSend value r2;
                       ChangeSend value r3] in
    sendError st3 = ERROR_MESSAGES.NUMBERS_ONLY /\
    sendErrorCount st3 = 2%nat /\
    shakeSendError st3 = false /\
    shakeSendError (step st3 (ChangeSend value r4)) = true.
Proof.
  intros st value r1 r2 r3 r4 Hbad Hprev Hshake. cbn [run].
  destruct (send_format_error_step st value r1 Hbad) as (_ & P1 & C1 & S1).
  set (st1 := step st (ChangeSend value r1)) in *.
  destruct (send_format_error_step st1 value r2 Hbad) as (_ & P2 & C2 & S2).
  set (st2 := step st1 (ChangeSend value r2)) in *.
  destruct (send_format_error_step st2 value r3 Hbad) as (E3 & P3 & C3 & S3).
  set (st3 := step st2 (ChangeSend value r3)) in *.
  destruct (send_format_error_step st3 value r4 Hbad) as (_ & _ & _ & S4).
  assert (H0 : String.eqb ERROR_MESSAGES.NUMBERS_ONLY (prevSendErrorRef st) = false).
  { apply String.eqb_neq. congruence. }
  rewrite H0 in C1, S1. rewrite P1 in C2, S2. rewrite P2 in C3, S3.
  rewrite P3 in S4. rewrite String.eqb_refl in *.
  rewrite S4, S3, S2, S1, C3, C2, C1, Hshake. repeat split; trivial.
Qed.

Lemma shake_starts_on_fourth_identical_error_witness :
  isNumericInput (stripCommas "1.00a") = false /\
  shakeSendError
    (run (mount (literal (1 # 2)))
       [ChangeSend "1.00a" (literal (1 # 2)); ChangeSend "1.00a" (literal (1 # 2));
        ChangeSend "1.00a" (literal (1 # 2))]) = false /\
  shakeSendError
    (step (run (mount (literal (1 # 2)))
             [ChangeSend "1.00a" (literal (1 # 2));
              ChangeSend "1.00a" (literal (1 # 2));
              ChangeSend "1.00a" (literal (1 # 2))])
       (ChangeSend "1.00a" (literal (1 # 2)))) = true.
Proof.
  assert (Hbad : isNumericInput (stripCommas "1.00a") = false)
    by (vm_compute; reflexivity).
  assert (Hprev : prevSendErrorRef (mount (literal (1 # 2)))
                  <> ERROR_MESSAGES.NUMBERS_ONLY)
    by (vm_compute; discriminate).
  assert (Hshake : shakeSendError (mount (literal (1 # 2))) = false)
    by (vm_compute; reflexivity).
  pose proof (shake_starts_on_fourth_identical_error
                (mount (literal (1 # 2))) "1.00a"
                (literal (1 # 2)) (literal (1 # 2)) (literal (1 # 2))
                (literal (1 # 2)) Hbad Hprev Hshake) as T.
  destruct T as (_ & _ & T3 & T4).
  split; [exact Hbad|]. split; [exact T3 | exact T4].
Defined.

(** ** The estimated time of a value that is not a number *)

Lemma add_nan_r (x : number) : add x NaN = NaN.
Proof. destruct x; reflexivity. Qed.

Lemma compare_nan_r (x : number) : compare x NaN = None.
Proof. destruct x; reflexivity. Qed.

Lemma calculateTransactionMinutes_nan (r : number) :
  calculateTransactionMinutes NaN r = NaN.
Proof.
  unfold calculateTransactionMinutes.
  change (mul NaN (literal (5 # 100))) with NaN.
  rewrite add_nan_r.
  change (mul NaN ?x) with NaN. cbn [round NaN].
  unfold min. change S754_nan with NaN. rewrite compare_nan_r.
  unfold max. change S754_nan with NaN. rewrite compare_nan_r. reflexivity.
Qed.

Lemma runEffects_minutes (prev next : State) :
  transactionMinutes (runEffects prev next) = transactionMinutes next.
Proof.
  unfold runEffects, sendEffect, receiveEffect, resetSendError.
  repeat break_if; reflexivity.
Qed.

(** C9.  For every value other than NaN and every random number in
    [[0, 1)] the computed time is a whole number between 5 and 30, as
    the claim says; for the value NaN it is NaN; and the form passes
    NaN when the send field holds a lone period, which passes the
    format check and does not parse. *)
Theorem calculateTransactionMinutes_whole_unless_NaN :
  (forall value random : number,
      isNaN value = false -> isRandom random = true ->
      exists n : Z,
        (5 <= n <= 30)%Z /\
        is_finite (calculateTransactionMinutes value random) = true /\
        (val (calculateTransactionMinutes value random) == inject_Z n)%Q) /\
  (forall random : number, calculateTransactionMinutes NaN random = NaN) /\
  (forall (st : State) (random : number),
      transactionMinutes (step st (ChangeSend "." random)) = NaN) /\
  (forall (st : State) (random : number),
      isSuccess st = false -> isRandom random = true ->
      enabled st (ChangeSend "." random) = true).
Proof.
  split; [exact Minutes.calculateTransactionMinutes_integral|].
  split; [exact calculateTransactionMinutes_nan|]. split.
  - intros st random. unfold step. rewrite runEffects_minutes. cbn [handle].
    unfold handleSendAmountChange.
    change (stripCommas ".") with ".".
    assert (Hv : validateAmount "." (sendCurrency st)
                 = insufficientBalance (sendCurrency st))
      by (destruct (sendCurrency st); vm_compute; reflexivity).
    rewrite Hv. destruct (insufficientBalance_not_format (sendCurrency st)) as [-> _].
    destruct (trackError _ _ _ _). cbn [negb transactionMinutes].
    unfold updateTransactionMinutes.
    assert (Hs : (match sendCurrency st with
                  | ETH => mul (parseFloat (orZero ".")) RATES.ETH_TO_USDT
                  | USDT => parseFloat (orZero ".")
                  end) = NaN) by (destruct (sendCurrency st); reflexivity).
    rewrite Hs. unfold max at 1. cbn [compare NaN].
    apply calculateTransactionMinutes_nan.
  - intros st random Hs Hr. cbn [enabled]. rewrite Hs, Hr. reflexivity.
Qed.

(** A value of 100 with the random number 1/2: (10 + 5) * 1 = 15. *)
Lemma calculateTransactionMinutes_whole_unless_NaN_witness :
  calculateTransactionMinutes (literal 100) (literal (1 # 2)) = literal 15 /\
  exists n : Z,
    (5 <= n <= 30)%Z /\
    is_finite (calculateTransactionMinutes (literal 100) (literal (1 # 2)))
    = true /\
    (val (calculateTransactionMinutes (literal 100) (literal (1 # 2)))
     == inject_Z n)%Q.
Proof.
  split; [vm_compute; reflexivity|].
  pose proof calculateTransactionMinutes_whole_unless_NaN as T.
  destruct T as (T & _).
  apply (T (literal 100) (literal (1 # 2))); vm_compute; reflexivity.
Defined.

Import Num Conv.

(** ** Thousands separators: [formatNumberWithCommas] *)

Module FormatFacts.
Import StrFacts ConvFacts.

Lemma digit_is_word (c : ascii) : Str.is_digit c = true -> is_word c = true.
Proof. intros H. unfold is_word. cbv zeta. rewrite H. reflexivity. Qed.

Lemma digit_not_comma (c : ascii) :
  Str.is_digit c = true -> Str.is_comma c = false.
Proof.
  unfold Str.is_digit, Str.is_comma. intros H.
  destruct (Ascii.eqb_spec c ","); [subst; discriminate H | reflexivity].
Qed.

Lemma groups_of_three_digits (n : nat) :
  forall s : string,
    (String.length s < n)%nat -> Str.all Str.is_digit s = true ->
    groups_of_three s
    = (0 <? String.length s)%nat && (String.length s mod 3 =? 0)%nat.
Proof.
  induction n as [|n IH]; intros s Hn Hs; [lia|].
  destruct s as [|a [|b [|c r]]]; try reflexivity.
  cbn [Str.all] in Hs.
  apply andb_prop in Hs. destruct Hs as [Ha Hs].
  apply andb_prop in Hs. destruct Hs as [Hb Hs].
  apply andb_prop in Hs. destruct Hs as [Hc Hr].
  cbn [groups_of_three]. rewrite Ha, Hb, Hc. cbn [andb].
  cbn [String.length] in Hn.
  change (String.length (String a (String b (String c r))))
    with (S (S (S (String.length r)))).
  replace (S (S (S (String.length r)))) with (String.length r + 1 * 3)%nat
    by lia.
  rewrite Nat.Div0.mod_add.
  replace (0 <? String.length r + 1 * 3)%nat with true
    by (symmetry; apply Nat.ltb_lt; lia).
  cbn [andb].
  destruct r as [|d r'].
  - reflexivity.
  - rewrite (IH (String d r'));
      [| cbn [String.length] in *; lia | exact Hr].
    cbn [not_followed_by_digit]. cbn [Str.all] in Hr.
    apply andb_prop in Hr. destruct Hr as [Hd _]. rewrite Hd.
    cbn [negb orb String.length]. reflexivity.
Qed.

Lemma insertSeparators_after_digit (s : string) :
  forall d : ascii,
    Str.is_digit d = true -> Str.all Str.is_digit s = true ->
    insertSeparators (Some d) s
    = (if (0 <? String.length s)%nat && (String.length s mod 3 =? 0)%nat
       then "," else "") ++ withSeparators s.
Proof.
  induction s as [|c r IH]; intros d Hd Hs.
  - cbn [insertSeparators groups_of_three]. rewrite andb_false_r. reflexivity.
  - pose proof Hs as Hs'. cbn [Str.all] in Hs'.
    apply andb_prop in Hs'. destruct Hs' as [Hc Hr].
    cbn [insertSeparators first_char]. unfold not_word_boundary.
    rewrite (digit_is_word d Hd), (digit_is_word c Hc). cbn [Bool.eqb andb].
    rewrite (groups_of_three_digits (S (String.length (String c r))));
      [| lia | exact Hs].
    rewrite (IH c Hc Hr). cbn [withSeparators]. reflexivity.
Qed.

Lemma insertSeparators_digits (s : string) :
  Str.all Str.is_digit s = true ->
  insertSeparators None s = withSeparators s.
Proof.
  destruct s as [|c r]; intros Hs; [reflexivity|].
  pose proof Hs as Hs'. cbn [Str.all] in Hs'.
  apply andb_prop in Hs'. destruct Hs' as [Hc Hr].
  cbn [insertSeparators first_char]. unfold not_word_boundary.
  rewrite (digit_is_word c Hc). cbn [Bool.eqb andb append].
  rewrite (insertSeparators_after_digit r c Hc Hr). reflexivity.
Qed.

(** *** Removing commas *)

Lemma remove_app p (a b : string) :
  Str.remove p (a ++ b) = Str.remove p a ++ Str.remove p b.
Proof.
  induction a as [|c a IH]; [reflexivity|].
  cbn [append Str.remove]. rewrite IH. destruct (p c); reflexivity.
Qed.

Lemma remove_none p (s : string) :
  Str.count p s = O -> Str.remove p s = s.
Proof.
  induction s as [|c s IH]; [reflexivity|]. cbn [Str.count Str.remove].
  destruct (p c); intros H; [discriminate H|]. now rewrite IH.
Qed.

Lemma count_remove p (s : string) : Str.count p (Str.remove p s) = O.
Proof.
  induction s as [|c s IH]; [reflexivity|]. cbn [Str.remove].
  destruct (p c) eqn:E; [exact IH|]. cbn [Str.count]. now rewrite E, IH.
Qed.

Lemma stripCommas_insertSeparators (s : string) :
  forall prev, stripCommas (insertSeparators prev s) = stripCommas s.
Proof.
  unfold stripCommas.
  induction s as [|c s IH]; intros prev; cbn [insertSeparators].
  - destruct (_ && _); reflexivity.
  - rewrite remove_app. cbn [Str.remove]. rewrite IH.
    destruct (_ && _); reflexivity.
Qed.

Lemma count_substring p (n : nat) :
  forall s : string, Str.count p s = O -> Str.count p (substring 0 n s) = O.
Proof.
  induction n as [|n IH]; intros [|c s]; try reflexivity.
  cbn [substring Str.count]. destruct (p c); [discriminate|].
  intros H. now rewrite IH.
Qed.

Lemma substring_idem (n : nat) :
  forall s : string, substring 0 n (substring 0 n s) = substring 0 n s.
Proof.
  induction n as [|n IH]; intros [|c s]; try reflexivity.
  cbn [substring]. now rewrite IH.
Qed.

Lemma substring_all (n : nat) :
  forall s : string, (String.length s <= n)%nat -> substring 0 n s = s.
Proof.
  induction n as [|n IH]; intros [|c s]; cbn [String.length]; intros H;
    try reflexivity; [lia|].
  cbn [substring]. rewrite IH by lia. reflexivity.
Qed.

(** *** Splitting at the periods *)

Lemma split_dot_cons (s : string) :
  exists p ps, split_dot s = p :: ps.
Proof.
  induction s as [|c s (p & ps & E)]; [now exists "", []|].
  cbn [split_dot]. rewrite E. destruct (Str.is_dot c); eauto.
Qed.

Lemma split_dot_no_dot (s : string) :
  Str.count Str.is_dot s = O -> split_dot s = [s].
Proof.
  induction s as [|c s IH]; [reflexivity|]. cbn [Str.count split_dot].
  destruct (Str.is_dot c); [discriminate|]. intros H.
  now rewrite IH.
Qed.

Lemma split_dot_app (a r : string) :
  Str.count Str.is_dot a = O ->
  split_dot (a ++ String "." r) = a :: split_dot r.
Proof.
  induction a as [|c a IH]; [reflexivity|]. cbn [Str.count append split_dot].
  destruct (Str.is_dot c); [discriminate|]. intros H.
  now rewrite IH.
Qed.

(** Every string is its part before the first period, and, if it has
    a period, the rest. *)
Lemma split_dot_first (s : string) :
  exists (p0 : string) (ps : list string),
    split_dot s = p0 :: ps /\ Str.count Str.is_dot p0 = O /\
    (forall q, Str.count q s = O -> Str.count q p0 = O) /\
    match ps with
    | [] => s = p0
    | p1 :: _ =>
        Str.count Str.is_dot p1 = O /\
        (forall q, Str.count q s = O -> Str.count q p1 = O)
    end.
Proof.
  induction s as [|c s IH].
  - exists "", []. repeat split; reflexivity.
  - destruct IH as (p0 & ps & E & D0 & Q0 & T). cbn [split_dot].
    destruct (Str.is_dot c) eqn:Ec.
    + exists "", (p0 :: ps). rewrite E. repeat split; trivial.
      intros q H. apply Q0. cbn [Str.count] in H. destruct (q c); [discriminate H | exact H].
    + exists (String c p0), ps. rewrite E. split; [reflexivity|].
      split; [cbn [Str.count]; now rewrite Ec, D0|]. split.
      * intros q H. cbn [Str.count] in *. destruct (q c); [discriminate H|].
        now apply Q0.
      * destruct ps as [|p1 ps'].
        -- now subst s.
        -- destruct T as [D1 Q1]. split; [exact D1|].
           intros q H. apply Q1. cbn [Str.count] in H.
           destruct (q c); [discriminate H | exact H].
Qed.

Lemma formatNumberWithCommas_formatted (v : string) (p : nat) :
  formatNumberWithCommas v p = formatted (stripCommas v) p.
Proof.
  unfold formatNumberWithCommas, formatted.
  destruct v as [|c v]; reflexivity.
Qed.

Lemma formatted_two (a b : string) (p : nat) :
  Str.count Str.is_dot a = O -> Str.count Str.is_dot b = O ->
  formatted (a ++ "." ++ b) p
  = insertSeparators None a ++ "." ++ substring 0 p b.
Proof.
  intros Ha Hb. unfold formatted. cbn [append].
  rewrite (split_dot_app a b Ha), (split_dot_no_dot b Hb). reflexivity.
Qed.

Lemma formatted_one (a : string) (p : nat) :
  Str.count Str.is_dot a = O -> formatted a p = insertSeparators None a.
Proof.
  intros Ha. unfold formatted. rewrite (split_dot_no_dot a Ha). reflexivity.
Qed.

Lemma digits_no_dot (a : string) :
  Str.all Str.is_digit a = true -> Str.count Str.is_dot a = O.
Proof. apply all_count_zero. apply dot_not_digit. Qed.

Lemma digits_no_comma (a : string) :
  Str.all Str.is_digit a = true -> Str.count Str.is_comma a = O.
Proof. apply all_count_zero. apply digit_not_comma. Qed.

End FormatFacts.

Import Num Conv StrFacts ConvFacts FormatFacts.

Lemma stripCommas_withSeparators (a : string) :
  Str.all Str.is_digit a = true -> stripCommas (withSeparators a) = a.
Proof.
  intros Ha. rewrite <- (insertSeparators_digits a Ha).
  rewrite stripCommas_insertSeparators. unfold stripCommas.
  apply remove_none, digits_no_comma, Ha.
Qed.

Lemma length_withSeparators (a : string) :
  String.length (withSeparators a)
  = (String.length a + (String.length a - 1) / 3)%nat.
Proof.
  induction a as [|c r IH]; [reflexivity|].
  cbn [withSeparators String.length]. rewrite length_app, IH.
  replace (S (String.length r) - 1)%nat with (String.length r) by lia.
  set (n := String.length r).
  pose proof (Nat.div_mod_eq n 3) as E.
  pose proof (Nat.mod_upper_bound n 3 ltac:(lia)) as B.
  pose proof (Nat.div_mod_eq (n - 1) 3) as E1.
  pose proof (Nat.mod_upper_bound (n - 1) 3 ltac:(lia)) as B1.
  destruct (Nat.ltb_spec 0 n) as [P|P];
    destruct (Nat.eqb_spec (n mod 3) 0) as [M|M];
    cbn [andb String.length]; lia.
Qed.

Lemma frac_part_dot (a b : string) :
  Str.all Str.is_digit a = true -> frac_part (a ++ "." ++ b) = b.
Proof.
  intros Ha. unfold frac_part.
  rewrite (span_all_app Str.is_digit a ("." ++ b) Ha); reflexivity.
Qed.

Lemma strip_formatted :
  forall (v : string) (p : nat),
    isNumericInput v = true ->
    (String.length (frac_part v) <= p)%nat ->
    stripCommas (formatNumberWithCommas v p) = v.
Proof.
  intros v p Hv Hp. apply isNumericInput_spec in Hv.
  destruct Hv as [-> | (a & b & Ha & Hb & [E | E])]; [reflexivity| |].
  - assert (Hab : Str.all Str.is_digit (a ++ b) = true)
      by (rewrite all_app, Ha, Hb; reflexivity).
    subst v.
    rewrite formatNumberWithCommas_formatted. unfold stripCommas at 2.
    rewrite (remove_none _ _ (digits_no_comma _ Hab)).
    rewrite (formatted_one _ p (digits_no_dot _ Hab)).
    rewrite stripCommas_insertSeparators. unfold stripCommas.
    apply remove_none, digits_no_comma, Hab.
  - subst v. rewrite (frac_part_dot a b Ha) in Hp.
    pose proof (digits_no_comma a Ha) as Ca.
    pose proof (digits_no_comma b Hb) as Cb.
    assert (C : Str.count Str.is_comma (a ++ "." ++ b) = O)
      by (rewrite count_app; cbn [append Str.count]; rewrite Ca, Cb; reflexivity).
    rewrite formatNumberWithCommas_formatted. unfold stripCommas at 2.
    rewrite (remove_none _ _ C).
    rewrite (formatted_two a b p (digits_no_dot a Ha) (digits_no_dot b Hb)).
    rewrite (substring_all p b Hp). unfold stripCommas.
    rewrite remove_app. fold (stripCommas (insertSeparators None a)).
    rewrite stripCommas_insertSeparators. unfold stripCommas.
    rewrite (remove_none _ a Ca), (remove_none _ ("." ++ b)); [reflexivity|].
    cbn [append Str.count]. exact Cb.
Qed.

(** X1. Written on a run of digits, [formatNumberWithCommas] puts a
    comma before every group of three digits counted from the right;
    with a decimal point, the digits before the point are grouped and
    the digits after it are cut to [p] places, without commas. Removing
    the commas of a grouped run gives the run back, and a run of [n]
    digits gets [(n - 1) / 3] commas. *)
Theorem formatNumberWithCommas_groups_thousands :
  forall (a b : string) (p : nat),
    Str.all Str.is_digit a = true -> Str.all Str.is_digit b = true ->
    formatNumberWithCommas a p = withSeparators a /\
    formatNumberWithCommas (a ++ "." ++ b) p
    = withSeparators a ++ "." ++ substring 0 p b /\
    stripCommas (withSeparators a) = a /\
    String.length (withSeparators a)
    = (String.length a + (String.length a - 1) / 3)%nat.
Proof.
  intros a b p Ha Hb.
  pose proof (digits_no_dot a Ha) as Da. pose proof (digits_no_dot b Hb) as Db.
  pose proof (digits_no_comma a Ha) as Ca.
  pose proof (digits_no_comma b Hb) as Cb.
  split; [|split; [|split]].
  - rewrite formatNumberWithCommas_formatted. unfold stripCommas.
    rewrite (remove_none _ a Ca), (formatted_one a p Da).
    apply insertSeparators_digits, Ha.
  - rewrite formatNumberWithCommas_formatted. unfold stripCommas.
    rewrite remove_none
      by (rewrite count_app; cbn [append Str.count]; rewrite Ca, Cb; reflexivity).
    rewrite (formatted_two a b p Da Db), (insertSeparators_digits a Ha).
    reflexivity.
  - apply stripCommas_withSeparators, Ha.
  - apply length_withSeparators.
Qed.

Lemma formatNumberWithCommas_groups_thousands_witness :
  formatNumberWithCommas "1234567" 2 = "1,234,567" /\
  formatNumberWithCommas "1234567.891" 2 = "1,234,567.89".
Proof.
  pose proof (formatNumberWithCommas_groups_thousands "1234567" "891" 2
                eq_refl eq_refl) as T.
  destruct T as (T1 & T2 & _). split; [exact T1 | exact T2].
Defined.

(** X2. An amount that passes the format check and has no more digits
    after its point than the precision is displayed losslessly: removing
    the commas of the displayed text, as the change handlers do, gives
    the amount back. *)
Theorem formatNumberWithCommas_strip_round_trip :
  forall (v : string) (p : nat),
    isNumericInput v = true ->
    (String.length (frac_part v) <= p)%nat ->
    stripCommas (formatNumberWithCommas v p) = v.
Proof. exact strip_formatted. Qed.

Lemma formatNumberWithCommas_strip_round_trip_witness :
  formatNumberWithCommas "12345.6789" 4 = "12,345.6789" /\
  stripCommas (formatNumberWithCommas "12345.6789" 4) = "12345.6789".
Proof.
  split; [vm_compute; reflexivity|].
  apply (formatNumberWithCommas_strip_round_trip "12345.6789" 4).
  - vm_compute; reflexivity.
  - vm_compute. lia.
Defined.

(** X3. Formatting is idempotent, for every string and precision: the
    text the form displays is displayed unchanged when it is formatted
    again. *)
Theorem formatNumberWithCommas_idempotent :
  forall (v : string) (p : nat),
    formatNumberWithCommas (formatNumberWithCommas v p) p
    = formatNumberWithCommas v p.
Proof.
  intros v p.
  rewrite (formatNumberWithCommas_formatted v p).
  set (w := stripCommas v).
  assert (Cw : Str.count Str.is_comma w = O) by apply count_remove.
  clearbody w. clear v.
  rewrite formatNumberWithCommas_formatted.
  destruct (split_dot_first w) as (p0 & ps & E & D0 & Q0 & T).
  pose proof (Q0 _ Cw) as C0.
  assert (S0 : stripCommas (insertSeparators None p0) = p0).
  { rewrite stripCommas_insertSeparators. unfold stripCommas.
    now apply remove_none. }
  destruct ps as [|p1 ps'].
  - subst w. rewrite (formatted_one p0 p D0), S0.
    now rewrite (formatted_one p0 p D0).
  - destruct T as [D1 Q1]. pose proof (Q1 _ Cw) as C1.
    assert (F : formatted w p
                = insertSeparators None p0 ++ "." ++ substring 0 p p1).
    { unfold formatted. rewrite E. reflexivity. }
    rewrite F. unfold stripCommas. rewrite remove_app.
    fold (stripCommas (insertSeparators None p0)). rewrite S0.
    rewrite (remove_none _ ("." ++ substring 0 p p1))
      by (cbn [append Str.count]; now apply count_substring).
    rewrite (formatted_two p0 (substring 0 p p1) p D0)
      by now apply count_substring.
    now rewrite substring_idem.
Qed.

Import Num Conv StrFacts ConvFacts ParseFacts NumFacts FormatFacts.

(** ** The format check, character by character *)

Module FormatCheck.

Lemma plain_digits (s : string) :
  Str.exists_ is_foreign s = false -> Str.count Str.is_dot s = O ->
  Str.all Str.is_digit s = true.
Proof.
  induction s as [|c s IH]; [reflexivity|].
  cbn [Str.exists_ Str.count Str.all]. unfold is_foreign at 1.
  destruct (Str.is_dot c); [discriminate 2|].
  destruct (Str.is_digit c); [|discriminate 1].
  cbn [orb negb andb]. exact IH.
Qed.

Lemma chars_NumericFormat (s : string) :
  Str.exists_ is_foreign s = false -> (Str.count Str.is_dot s <= 1)%nat ->
  NumericFormat s.
Proof.
  induction s as [|c s IH]; intros F D.
  - exists "", "". repeat split. now left.
  - cbn [Str.exists_ Str.count] in F, D.
    apply orb_false_elim in F. destruct F as [Fc Fs].
    unfold is_foreign in Fc. apply negb_false_iff in Fc.
    unfold Str.is_dot in *.
    destruct (Ascii.eqb_spec c ".") as [-> | Nd]; lazy iota in D.
    + exists "", s. split; [reflexivity|]. split.
      * apply plain_digits; [exact Fs | unfold Str.is_dot; lia].
      * right. reflexivity.
    + rewrite orb_false_r in Fc.
      destruct (IH Fs ltac:(lia)) as (a & b & Ha & Hb & E).
      exists (String c a), b. split; [cbn [Str.all]; now rewrite Fc, Ha|].
      split; [exact Hb|]. destruct E as [-> | ->]; [left | right]; reflexivity.
Qed.

Lemma isNumericInput_chars (s : string) :
  isNumericInput s = true <->
  Str.exists_ is_foreign s = false /\ (Str.count Str.is_dot s <= 1)%nat.
Proof.
  rewrite isNumericInput_spec. split.
  - intros [-> | H]; [split; [reflexivity | cbn; lia] |].
    now apply NumericFormat_chars.
  - intros [F D]. right. now apply chars_NumericFormat.
Qed.

Lemma Subsequence_exists p (s t : string) :
  Subsequence s t -> Str.exists_ p t = false -> Str.exists_ p s = false.
Proof.
  induction 1 as [|c s t _ IH|c s t _ IH]; cbn [Str.exists_]; intros H;
    trivial; apply orb_false_elim in H; destruct H as [Hc Ht].
  - now apply IH.
  - now rewrite Hc, IH.
Qed.

Lemma Subsequence_count p (s t : string) :
  Subsequence s t -> (Str.count p s <= Str.count p t)%nat.
Proof.
  induction 1 as [|c s t _ IH|c s t _ IH]; cbn [Str.count]; lia.
Qed.

Lemma exists_remove_comma (v : string) :
  Str.exists_ is_foreign (Str.remove Str.is_comma v) = false <->
  Str.all is_amount_char v = true.
Proof.
  induction v as [|c v IH]; [split; reflexivity|].
  cbn [Str.remove Str.all]. unfold is_amount_char at 1.
  destruct (Str.is_comma c) eqn:Ec.
  - rewrite orb_true_r. cbn [andb]. exact IH.
  - cbn [Str.exists_]. unfold is_foreign at 1. rewrite orb_false_r.
    destruct (Str.is_digit c || Str.is_dot c); cbn [negb orb andb];
      [exact IH | split; discriminate].
Qed.

Lemma count_dot_remove_comma (v : string) :
  Str.count Str.is_dot (Str.remove Str.is_comma v) = Str.count Str.is_dot v.
Proof.
  induction v as [|c v IH]; [reflexivity|]. cbn [Str.remove Str.count].
  unfold Str.is_comma, Str.is_dot in *.
  destruct (Ascii.eqb_spec c ",") as [-> | N]; [exact IH|].
  cbn [Str.count]. now rewrite IH.
Qed.

Lemma runEffects_amounts (prev next : State) :
  sendAmount (runEffects prev next) = sendAmount next /\
  receiveAmount (runEffects prev next) = receiveAmount next.
Proof.
  unfold runEffects, sendEffect, receiveEffect, resetSendError.
  repeat break_if; split; reflexivity.
Qed.

End FormatCheck.

Import FormatCheck.

Lemma commas_ignored (v : string) :
  isNumericInput (stripCommas v) = true <->
  Str.all is_amount_char v = true /\ (Str.count Str.is_dot v <= 1)%nat.
Proof.
  rewrite isNumericInput_chars. unfold stripCommas.
  rewrite exists_remove_comma, count_dot_remove_comma. reflexivity.
Qed.

Lemma numeric_edit_stores_amount (v : string) (st : State) (r : number) :
  isNumericInput (stripCommas v) = true ->
  sendAmount (step st (ChangeSend v r)) = stripCommas v /\
  receiveAmount (step st (ChangeReceive v r)) = stripCommas v.
Proof.
  intros Hv. unfold step.
  destruct (runEffects_amounts st (handle st (ChangeSend v r))) as [-> _].
  destruct (runEffects_amounts st (handle st (ChangeReceive v r))) as [_ ->].
  cbn [handle]. split.
  - unfold handleSendAmountChange.
    assert (E : String.eqb (validateAmount (stripCommas v) (sendCurrency st))
                  ERROR_MESSAGES.NUMBERS_ONLY = false).
    { apply String.eqb_neq. intros C.
      apply validateAmount_NUMBERS_ONLY in C. congruence. }
    rewrite E. destruct (trackError _ _ _ _). reflexivity.
  - unfold handleReceiveAmountChange. rewrite Hv. cbn [negb].
    destruct (Str.truthy (stripCommas v)) eqn:T.
    + destruct (trackError _ _ _ _). reflexivity.
    + reflexivity.
Qed.

(** X4. Deleting characters from a text that passes the format check
    gives a text that passes it: in particular every prefix of an
    accepted amount is accepted, so an amount can be typed character by
    character and erased in any order without a format error. *)
Theorem isNumericInput_closed_under_deletion :
  forall s t : string,
    Subsequence s t -> isNumericInput t = true -> isNumericInput s = true.
Proof.
  intros s t Hsub Ht. apply isNumericInput_chars in Ht. destruct Ht as [F D].
  apply isNumericInput_chars. split.
  - exact (Subsequence_exists _ s t Hsub F).
  - pose proof (Subsequence_count Str.is_dot s t Hsub). lia.
Qed.

Lemma isNumericInput_closed_under_deletion_witness :
  Subsequence "12.5" "123.45" /\ isNumericInput "12.5" = true.
Proof.
  assert (S : Subsequence "12.5" "123.45")
    by (apply SubKeep, SubKeep, SubSkip, SubKeep, SubSkip, SubKeep, SubNil).
  split; [exact S|].
  apply (isNumericInput_closed_under_deletion "12.5" "123.45" S).
  vm_compute; reflexivity.
Defined.

(** X5. The change handlers delete every comma before they validate, so
    a typed text passes their format check exactly when it consists of
    digits, periods and commas with at most one period, wherever the
    commas stand; the amount stored is then the text without its commas. *)
Theorem change_handlers_ignore_commas :
  forall v : string,
    (isNumericInput (stripCommas v) = true <->
     Str.all is_amount_char v = true /\ (Str.count Str.is_dot v <= 1)%nat) /\
    (isNumericInput (stripCommas v) = true ->
     forall (st : State) (r : number),
       sendAmount (step st (ChangeSend v r)) = stripCommas v /\
       receiveAmount (step st (ChangeReceive v r)) = stripCommas v).
Proof.
  intros v. split; [apply commas_ignored|].
  intros Hv st r. now apply numeric_edit_stores_amount.
Qed.

Lemma change_handlers_ignore_commas_witness :
  sendAmount (step initialState (ChangeSend ",1,2,.5," (literal (1 # 2))))
  = "12.5" /\
  receiveAmount (step initialState (ChangeReceive ",1,2,.5," (literal (1 # 2))))
  = "12.5".
Proof.
  pose proof (change_handlers_ignore_commas ",1,2,.5,") as T.
  destruct T as [_ T].
  assert (H : isNumericInput (stripCommas ",1,2,.5,") = true)
    by (vm_compute; reflexivity).
  destruct (T H initialState (literal (1 # 2))) as [T1 T2].
  split; [exact T1 | exact T2].
Defined.

(** X6. An amount that passes the format check and is not empty but has
    the value zero ("0", "0.00", "00", also a lone ".") is answered with
    the insufficient-balance error of the asset. *)
Theorem validateAmount_zero_is_insufficient :
  forall (a : string) (c : CurrencyKey),
    isNumericInput a = true -> a <> "" -> (unsigned_value a == 0)%Q ->
    validateAmount a c = insufficientBalance c.
Proof.
  intros a c Hn He Hz.
  assert (W : isWithinBalance a (balance (CURRENCIES c)) = false).
  { apply isNumericInput_spec in Hn. destruct Hn as [-> | Hf]; [congruence|].
    unfold isWithinBalance.
    apply truthy_true in He. rewrite He. cbn [negb].
    destruct (has_digit a) eqn:Hd.
    - rewrite (parseFloat_numeric a Hf Hd), (of_Q_compat _ 0 Hz).
      destruct c; vm_compute; reflexivity.
    - rewrite (parseFloat_no_digit a Hf Hd). reflexivity. }
  unfold validateAmount. rewrite Hn, W.
  apply truthy_true in He. rewrite He. destruct c; reflexivity.
Qed.

Lemma validateAmount_zero_is_insufficient_witness :
  validateAmount "0.00" ETH = "Insufficient ETH balance".
Proof.
  apply (validateAmount_zero_is_insufficient "0.00" ETH).
  - vm_compute; reflexivity.
  - discriminate.
  - vm_compute; reflexivity.
Defined.

Import Num Conv StrFacts ConvFacts ParseFacts NumFacts FormatCheck.

(** ** Events and the effects that follow them *)

Module StepFacts.

Lemma runEffects_flags (prev next : State) :
  isLoading (runEffects prev next) = isLoading next /\
  isSuccess (runEffects prev next) = isSuccess next /\
  receiveError (runEffects prev next) = receiveError next /\
  transactionMinutes (runEffects prev next) = transactionMinutes next.
Proof.
  unfold runEffects, sendEffect, receiveEffect, resetSendError.
  repeat break_if; repeat split; reflexivity.
Qed.

Lemma not_format_error (s : string) :
  s <> ERROR_MESSAGES.NUMBERS_ONLY ->
  String.eqb s ERROR_MESSAGES.NUMBERS_ONLY = false.
Proof. intros H. now apply String.eqb_neq. Qed.

Lemma validateAmount_numeric (a : string) (c : CurrencyKey) :
  isNumericInput a = true ->
  String.eqb (validateAmount a c) ERROR_MESSAGES.NUMBERS_ONLY = false.
Proof.
  intros H. apply String.eqb_neq. intros C.
  apply validateAmount_NUMBERS_ONLY in C. congruence.
Qed.

Lemma CurrencyKey_eqb_refl (c : CurrencyKey) : CurrencyKey_eqb c c = true.
Proof. destruct c; reflexivity. Qed.

(** The effect on the send amount never changes what a handler that
    validated the send amount itself has set. *)
Lemma sendEffect_validated (st acc : State) :
  sendError st = validateAmount (sendAmount st) (sendCurrency st) ->
  sendEffect st acc = acc.
Proof.
  intros E. unfold sendEffect. rewrite <- E, String.eqb_refl.
  destruct (Str.truthy (sendAmount st)); reflexivity.
Qed.

End StepFacts.

Import StepFacts.

(** What an accepted edit of the send field leaves in the state, the
    effects included. *)
Lemma send_edit_error :
  forall (st : State) (v : string) (r : number),
    let raw := stripCommas v in
    let converted :=
      calculateExchangeAmount raw (sendCurrency st) (receiveCurrency st) in
    isNumericInput raw = true ->
    converted <> "" ->
    converted <> receiveAmount st ->
    let st' := step st (ChangeSend v r) in
    sendAmount st' = raw /\
    receiveAmount st' = converted /\
    sendError st'
    = validateAmount (roundTrip raw (sendCurrency st) (receiveCurrency st))
        (sendCurrency st).
Proof.
  intros st v r raw converted Hn Hc Hd st'.
  pose proof (validateAmount_numeric raw (sendCurrency st) Hn) as Hv.
  assert (Hh : handle st (ChangeSend v r)
               = let '(cnt, shake) :=
                   trackError (validateAmount raw (sendCurrency st))
                     (prevSendErrorRef st) (sendErrorCount st)
                     (shakeSendError st) in
                 {| sendAmount := raw;
                    receiveAmount := converted;
                    sendCurrency := sendCurrency st;
                    receiveCurrency := receiveCurrency st;
                    sendError := validateAmount raw (sendCurrency st);
                    receiveError := "";
                    focused := focused st;
                    transactionMinutes :=
                      updateTransactionMinutes st raw converted r;
                    isLoading := isLoading st;
                    isSuccess := isSuccess st;
                    sendErrorCount := cnt;
                    receiveErrorCount := 0;
                    shakeSendError := shake;
                    shakeReceiveError := shakeReceiveError st;
                    prevSendErrorRef := validateAmount raw (sendCurrency st);
                    prevReceiveErrorRef := "" |}).
  { cbn [handle]. unfold handleSendAmountChange. fold raw. fold converted.
    destruct (trackError _ _ _ _). rewrite Hv. reflexivity. }
  unfold st', step. rewrite Hh. clear Hh st'.
  assert (Ec : converted
               = calculateExchangeAmount raw (sendCurrency st)
                   (receiveCurrency st)) by reflexivity.
  clearbody converted. clearbody raw.
  destruct (trackError _ _ _ _) as [cnt shake].
  set (next := {| sendAmount := raw |}).
  destruct (runEffects_amounts st next) as [-> ->].
  split; [reflexivity|]. split; [reflexivity|].
  unfold runEffects.
  rewrite (sendEffect_validated next next) by reflexivity.
  assert (Hch : negb (String.eqb (receiveAmount st) (receiveAmount next)) = true).
  { apply negb_true_iff, String.eqb_neq. cbn [receiveAmount next]. congruence. }
  rewrite Hch. cbn [orb].
  replace (if negb (String.eqb (sendAmount st) (sendAmount next))
              || negb (CurrencyKey_eqb (sendCurrency st) (sendCurrency next))
           then next else next) with next by (destruct (_ || _); reflexivity).
  unfold receiveEffect.
  cbn [receiveAmount sendAmount receiveCurrency sendCurrency sendError next].
  apply truthy_true in Hc. rewrite Hc.
  unfold roundTrip. rewrite <- Ec.
  destruct (String.eqb converted "2184.33" && String.eqb raw "1.00") eqn:Hi.
  - apply andb_prop in Hi. destruct Hi as [Hi1 Hi2].
    apply String.eqb_eq in Hi1, Hi2. subst raw. rewrite Hi1 in Ec.
    rewrite Hi1. cbn [sendError next]. clear - Ec.
    destruct (sendCurrency st), (receiveCurrency st);
      first [ vm_compute in Ec; discriminate Ec | vm_compute; reflexivity ].
  - set (ne := validateAmount
                  (calculateExchangeAmount converted (receiveCurrency st)
                     (sendCurrency st)) (sendCurrency st)).
    destruct (String.eqb ne (validateAmount raw (sendCurrency st))) eqn:Heq;
      cbn [negb].
    + apply String.eqb_eq in Heq. cbn [sendError next]. now rewrite Heq.
    + reflexivity.
Qed.

(** What an accepted edit of the receive field leaves in the state,
    the effects included. *)
Lemma receive_edit_result :
  forall (st : State) (v : string) (r : number),
    let raw := stripCommas v in
    isNumericInput raw = true ->
    raw <> "" ->
    let st' := step st (ChangeReceive v r) in
    receiveAmount st' = raw /\
    sendAmount st'
    = calculateExchangeAmount raw (receiveCurrency st) (sendCurrency st) /\
    sendError st' = validateAmount (sendAmount st') (sendCurrency st') /\
    receiveError st' = "".
Proof.
  intros st v r raw Hn He st'.
  set (S := calculateExchangeAmount raw (receiveCurrency st) (sendCurrency st)).
  assert (Hh : handle st (ChangeReceive v r)
               = let '(cnt, shake) :=
                   trackError (validateAmount S (sendCurrency st))
                     (prevSendErrorRef st) (sendErrorCount st)
                     (shakeSendError st) in
                 {| sendAmount := S;
                    receiveAmount := raw;
                    sendCurrency := sendCurrency st;
                    receiveCurrency := receiveCurrency st;
                    sendError := validateAmount S (sendCurrency st);
                    receiveError := "";
                    focused := focused st;
                    transactionMinutes := updateTransactionMinutes st S raw r;
                    isLoading := isLoading st;
                    isSuccess := isSuccess st;
                    sendErrorCount := cnt;
                    receiveErrorCount := 0;
                    shakeSendError := shake;
                    shakeReceiveError := shakeReceiveError st;
                    prevSendErrorRef := validateAmount S (sendCurrency st);
                    prevReceiveErrorRef := "" |}).
  { cbn [handle]. unfold handleReceiveAmountChange. fold raw. rewrite Hn.
    cbn [negb]. apply truthy_true in He. rewrite He. fold S. reflexivity. }
  unfold st', step. rewrite Hh. clear Hh.
  destruct (trackError _ _ _ _) as [cnt shake].
  set (next := {| sendAmount := S |}).
  assert (E : runEffects st next = next).
  { unfold runEffects.
    rewrite (sendEffect_validated next next) by reflexivity.
    assert (R : forall acc, receiveEffect next acc = acc).
    { intros acc. unfold receiveEffect.
      cbn [receiveAmount sendAmount receiveCurrency sendCurrency sendError next].
      fold S. rewrite String.eqb_refl. cbn [negb].
      destruct (_ && _); [reflexivity|]. destruct (Str.truthy raw); reflexivity. }
    rewrite R. repeat break_if; reflexivity. }
  rewrite E. repeat split; reflexivity.
Qed.

(** X7. Two clicks on the swap control, neither of them blocked by a
    format error, bring back the amounts and the assets of both sides. *)
Theorem swap_twice_restores_sides :
  forall (st : State) (r1 r2 : number),
    sendError st <> ERROR_MESSAGES.NUMBERS_ONLY ->
    receiveError st <> ERROR_MESSAGES.NUMBERS_ONLY ->
    sendError (step st (ClickSwap r1)) <> ERROR_MESSAGES.NUMBERS_ONLY ->
    let st2 := step (step st (ClickSwap r1)) (ClickSwap r2) in
    sendAmount st2 = sendAmount st /\
    receiveAmount st2 = receiveAmount st /\
    sendCurrency st2 = sendCurrency st /\
    receiveCurrency st2 = receiveCurrency st.
Proof.
  intros st r1 r2 Hs Hr Hs1 st2.
  set (st1 := step st (ClickSwap r1)) in *.
  assert (A1 : sendAmount st1 = receiveAmount st /\
               receiveAmount st1 = sendAmount st /\
               sendCurrency st1 = receiveCurrency st /\
               receiveCurrency st1 = sendCurrency st /\
               receiveError st1 = "").
  { unfold st1, step.
    destruct (runEffects_amounts st (handle st (ClickSwap r1))) as [-> ->].
    destruct (runEffects_currencies st (handle st (ClickSwap r1))) as [-> ->].
    destruct (runEffects_flags st (handle st (ClickSwap r1))) as (_ & _ & -> & _).
    cbn [handle]. unfold handleSwap.
    rewrite (not_format_error _ Hs), (not_format_error _ Hr). cbn [orb].
    repeat split; reflexivity. }
  destruct A1 as (E1 & E2 & E3 & E4 & E5).
  unfold st2, step.
  destruct (runEffects_amounts st1 (handle st1 (ClickSwap r2))) as [-> ->].
  destruct (runEffects_currencies st1 (handle st1 (ClickSwap r2))) as [-> ->].
  cbn [handle]. unfold handleSwap.
  rewrite (not_format_error _ Hs1), E5. cbn [orb String.eqb].
  cbn [sendAmount receiveAmount sendCurrency receiveCurrency].
  repeat split; assumption.
Qed.

Lemma swap_twice_restores_sides_witness :
  sendAmount (run (mount (literal (1 # 2)))
                [ClickSwap (literal (1 # 2)); ClickSwap (literal (1 # 2))])
  = "1.00" /\
  sendCurrency (run (mount (literal (1 # 2)))
                  [ClickSwap (literal (1 # 2)); ClickSwap (literal (1 # 2))])
  = ETH.
Proof.
  assert (H1 : sendError (mount (literal (1 # 2))) <> ERROR_MESSAGES.NUMBERS_ONLY)
    by (vm_compute; discriminate).
  assert (H2 : receiveError (mount (literal (1 # 2)))
               <> ERROR_MESSAGES.NUMBERS_ONLY)
    by (vm_compute; discriminate).
  assert (H3 : sendError (step (mount (literal (1 # 2)))
                            (ClickSwap (literal (1 # 2))))
               <> ERROR_MESSAGES.NUMBERS_ONLY)
    by (vm_compute; discriminate).
  pose proof (swap_twice_restores_sides (mount (literal (1 # 2)))
                (literal (1 # 2)) (literal (1 # 2)) H1 H2 H3) as T.
  destruct T as (T1 & _ & T3 & _). cbn [run].
  split; [rewrite T1 | rewrite T3]; vm_compute; reflexivity.
Defined.

(** X8. After an edit of the send field that passes the format check and
    changes the receive amount, the error shown for the send field is
    the validation of the amount converted to the receive asset and back
    (the effect on the receive amount overrides the handler), not the
    validation of the amount that was typed. *)
Theorem send_error_follows_round_trip :
  forall (st : State) (v : string) (r : number),
    let raw := stripCommas v in
    let converted :=
      calculateExchangeAmount raw (sendCurrency st) (receiveCurrency st) in
    isNumericInput raw = true ->
    converted <> "" ->
    converted <> receiveAmount st ->
    let st' := step st (ChangeSend v r) in
    sendAmount st' = raw /\
    receiveAmount st' = converted /\
    sendError st'
    = validateAmount (roundTrip raw (sendCurrency st) (receiveCurrency st))
        (sendCurrency st).
Proof. exact send_edit_error. Qed.

(** At the mount: 2.98001 ETH is above the balance of 2.98 ETH, but it
    converts to 6509.33 USDT and back to 2.9800 ETH, so no error is
    shown and the confirm button is enabled; 10000 USDT is the balance,
    but it converts to 4.5781 ETH and back to 10000.08 USDT, so the
    insufficient-balance error is shown. *)
Lemma send_error_follows_round_trip_witness :
  validateAmount "2.98001" ETH = "Insufficient ETH balance" /\
  sendError (step (mount (literal (1 # 2)))
               (ChangeSend "2.98001" (literal (1 # 2)))) = "" /\
  confirmDisabled (step (mount (literal (1 # 2)))
                     (ChangeSend "2.98001" (literal (1 # 2)))) = false /\
  validateAmount "10000" USDT = "" /\
  sendError (run (mount (literal (1 # 2)))
               [ClickSwap (literal (1 # 2));
                ChangeSend "10000" (literal (1 # 2))])
  = "Insufficient USDT balance".
Proof.
  split; [vm_compute; reflexivity|].
  assert (T1 : sendError (step (mount (literal (1 # 2)))
                            (ChangeSend "2.98001" (literal (1 # 2)))) = "").
  { pose proof (send_error_follows_round_trip (mount (literal (1 # 2)))
                  "2.98001" (literal (1 # 2))) as T.
    cbv zeta in T.
    assert (H1 : isNumericInput (stripCommas "2.98001") = true)
      by (vm_compute; reflexivity).
    assert (H2 : calculateExchangeAmount (stripCommas "2.98001")
                   (sendCurrency (mount (literal (1 # 2))))
                   (receiveCurrency (mount (literal (1 # 2)))) <> "")
      by (vm_compute; discriminate).
    assert (H3 : calculateExchangeAmount (stripCommas "2.98001")
                   (sendCurrency (mount (literal (1 # 2))))
                   (receiveCurrency (mount (literal (1 # 2))))
                 <> receiveAmount (mount (literal (1 # 2))))
      by (vm_compute; discriminate).
    destruct (T H1 H2 H3) as (_ & _ & T3). rewrite T3.
    vm_compute; reflexivity. }
  split; [exact T1|].
  split; [vm_compute; reflexivity|].
  split; vm_compute; reflexivity.
Defined.

(** X9. After an edit of the receive field that passes the format check,
    the send amount is the conversion of what was typed, and the error
    shown for the send field is the validation of that send amount: the
    effects change nothing. *)
Theorem receive_edit_validates_shown_amount :
  forall (st : State) (v : string) (r : number),
    let raw := stripCommas v in
    isNumericInput raw = true ->
    raw <> "" ->
    let st' := step st (ChangeReceive v r) in
    receiveAmount st' = raw /\
    sendAmount st'
    = calculateExchangeAmount raw (receiveCurrency st) (sendCurrency st) /\
    sendError st' = validateAmount (sendAmount st') (sendCurrency st') /\
    receiveError st' = "".
Proof. exact receive_edit_result. Qed.

Lemma receive_edit_validates_shown_amount_witness :
  sendAmount (step (mount (literal (1 # 2)))
                (ChangeReceive "10,000" (literal (1 # 2)))) = "4.5781" /\
  sendError (step (mount (literal (1 # 2)))
               (ChangeReceive "10,000" (literal (1 # 2))))
  = "Insufficient ETH balance".
Proof.
  pose proof (receive_edit_validates_shown_amount (mount (literal (1 # 2)))
                "10,000" (literal (1 # 2))) as T.
  cbv zeta in T.
  assert (H1 : isNumericInput (stripCommas "10,000") = true)
    by (vm_compute; reflexivity).
  assert (H2 : stripCommas "10,000" <> "") by (vm_compute; discriminate).
  destruct (T H1 H2) as (_ & T2 & T3 & _).
  split; [rewrite T2 | rewrite T3, T2]; vm_compute; reflexivity.
Defined.

(** X10. From a state whose confirm button can be clicked, the click
    starts loading; while loading, a second click is impossible but the
    two fields and the swap control still respond; the timer then shows
    the success panel, with the amounts and assets of the state before
    the click when nothing was edited in between, and on that panel only
    the New Exchange button responds. *)
Theorem confirm_then_timeout_shows_success :
  forall st : State,
    enabled st ClickConfirm = true ->
    let st1 := step st ClickConfirm in
    let st2 := step st1 ConfirmTimeout in
    isLoading st1 = true /\
    enabled st1 ClickConfirm = false /\
    enabled st1 ConfirmTimeout = true /\
    (forall (v : string) (r : number),
        isRandom r = true ->
        enabled st1 (ChangeSend v r) = true /\
        enabled st1 (ChangeReceive v r) = true /\
        enabled st1 (ClickSwap r) = true) /\
    isSuccess st2 = true /\ isLoading st2 = false /\
    sendAmount st2 = sendAmount st /\ receiveAmount st2 = receiveAmount st /\
    sendCurrency st2 = sendCurrency st /\
    receiveCurrency st2 = receiveCurrency st /\
    transactionMinutes st2 = transactionMinutes st /\
    enabled st2 ClickNewExchange = true /\
    enabled st2 ClickConfirm = false /\
    (forall (v : string) (r : number),
        enabled st2 (ChangeSend v r) = false /\
        enabled st2 (ChangeReceive v r) = false /\
        enabled st2 (ClickSwap r) = false).
Proof.
  intros st He st1 st2.
  assert (E1 : st1 = handleConfirm st).
  { unfold st1, step. apply runEffects_same_deps; reflexivity. }
  assert (E2 : st2 = confirmTimeout st1).
  { unfold st2, step. apply runEffects_same_deps; reflexivity. }
  cbn [enabled] in He. apply andb_prop in He. destruct He as [Hs Hd].
  apply negb_true_iff in Hs.
  rewrite E2, E1. cbn [enabled handleConfirm confirmTimeout isLoading isSuccess
    sendAmount receiveAmount sendCurrency receiveCurrency transactionMinutes].
  unfold confirmDisabled. cbn [isLoading]. rewrite Hs.
  rewrite !orb_true_r. cbn [negb andb].
  repeat split; trivial; intros Hr; rewrite Hr; reflexivity.
Qed.

Lemma confirm_then_timeout_shows_success_witness :
  isSuccess (run (mount (literal (1 # 2))) [ClickConfirm; ConfirmTimeout])
  = true /\
  sendAmount (run (mount (literal (1 # 2))) [ClickConfirm; ConfirmTimeout])
  = "1.00".
Proof.
  assert (H : enabled (mount (literal (1 # 2))) ClickConfirm = true)
    by (vm_compute; reflexivity).
  pose proof (confirm_then_timeout_shows_success (mount (literal (1 # 2))) H)
    as T.
  cbv zeta in T.
  destruct T as (_ & _ & _ & _ & T5 & _ & T7 & _).
  cbn [run]. split; [exact T5 | rewrite T7; vm_compute; reflexivity].
Defined.

(** X11. The New Exchange button puts 1.00 in the send field and its
    conversion in the receive field, and shows the form again. It keeps
    the assets as they are (a swapped pair stays swapped), it recomputes
    no estimate and it leaves the receive error as it is; the send error
    is cleared when the send amount changes. *)
Theorem new_exchange_keeps_direction :
  forall st : State,
    DistinctPair st ->
    let st' := step st ClickNewExchange in
    sendAmount st' = "1.00" /\
    receiveAmount st'
    = match sendCurrency st with ETH => "2184.33" | USDT => "0.0005" end /\
    sendCurrency st' = sendCurrency st /\
    receiveCurrency st' = receiveCurrency st /\
    isSuccess st' = false /\
    receiveError st' = receiveError st /\
    transactionMinutes st' = transactionMinutes st /\
    (sendAmount st <> "1.00" -> sendError st' = "").
Proof.
  intros st Hd st'. unfold st', step.
  destruct (runEffects_amounts st (handle st ClickNewExchange)) as [-> ->].
  destruct (runEffects_currencies st (handle st ClickNewExchange)) as [-> ->].
  destruct (runEffects_flags st (handle st ClickNewExchange))
    as (_ & -> & -> & ->).
  cbn [handle handleNewExchange sendAmount receiveAmount sendCurrency
         receiveCurrency isSuccess receiveError transactionMinutes].
  split; [reflexivity|]. split.
  { destruct Hd as [[-> ->] | [-> ->]]; vm_compute; reflexivity. }
  do 5 (split; [reflexivity|]).
  intros Hne.
  assert (Hch : negb (String.eqb (sendAmount st) "1.00") = true)
    by (apply negb_true_iff, String.eqb_neq; exact Hne).
  unfold runEffects, sendEffect, receiveEffect, handleNewExchange.
  cbn [sendAmount sendCurrency receiveCurrency receiveAmount sendError].
  rewrite Hch. cbn [orb].
  assert (C1 : calculateExchangeAmount "1.00" ETH USDT = "2184.33")
    by (vm_compute; reflexivity).
  assert (C2 : calculateExchangeAmount "1.00" USDT ETH = "0.0005")
    by (vm_compute; reflexivity).
  assert (C3 : calculateExchangeAmount "0.0005" ETH USDT = "1.09")
    by (vm_compute; reflexivity).
  assert (V1 : validateAmount "1.00" ETH = "") by (vm_compute; reflexivity).
  assert (V2 : validateAmount "1.00" USDT = "") by (vm_compute; reflexivity).
  assert (V3 : validateAmount "1.09" USDT = "") by (vm_compute; reflexivity).
  destruct Hd as [[Es Er] | [Es Er]]; rewrite Es, Er.
  - rewrite C1, V1. cbn [Str.truthy]. rewrite !String.eqb_refl. cbn [andb].
    destruct (sendError st) as [|ch s'] eqn:Ese;
      cbn [String.eqb negb]; repeat break_if; reflexivity.
  - rewrite C2, C3, V2, V3. cbn [Str.truthy].
    change (String.eqb "0.0005" "2184.33") with false. cbn [andb].
    destruct (sendError st) as [|ch s'] eqn:Ese;
      cbn [String.eqb negb]; repeat break_if; reflexivity.
Qed.

Lemma new_exchange_keeps_direction_witness :
  sendCurrency
    (run (mount (literal (1 # 2)))
       [ClickSwap (literal (1 # 2)); ClickConfirm; ConfirmTimeout;
        ClickNewExchange]) = USDT /\
  receiveAmount
    (run (mount (literal (1 # 2)))
       [ClickSwap (literal (1 # 2)); ClickConfirm; ConfirmTimeout;
        ClickNewExchange]) = "0.0005".
Proof.
  set (st := run (mount (literal (1 # 2)))
               [ClickSwap (literal (1 # 2)); ClickConfirm; ConfirmTimeout]).
  assert (H : DistinctPair st) by (right; split; vm_compute; reflexivity).
  pose proof (new_exchange_keeps_direction st H) as T. cbv zeta in T.
  destruct T as (_ & T2 & T3 & _).
  change (run (mount (literal (1 # 2)))
            [ClickSwap (literal (1 # 2)); ClickConfirm; ConfirmTimeout;
             ClickNewExchange]) with (step st ClickNewExchange).
  split; [rewrite T3 | rewrite T2]; vm_compute; reflexivity.
Defined.

(** X12. The loading state and the success panel exclude each other in
    every reachable state, and the success panel is reached only through
    the confirmation timer. *)
Theorem loading_and_success_exclusive :
  forall st : State,
    Reachable st -> isLoading st && isSuccess st = false.
Proof.
  induction 1 as [r Hr | st ev Hreach IH Hen].
  - reflexivity.
  - unfold step.
    destruct (runEffects_flags st (handle st ev)) as (-> & -> & _).
    destruct ev; cbn [enabled] in Hen; cbn [handle];
      unfold handleSendAmountChange, handleReceiveAmountChange, handleSwap,
        handleConfirm, confirmTimeout, handleNewExchange, setFocused,
        shakeTimeout;
      repeat break_if; cbn [isLoading isSuccess]; try exact IH.
    + apply andb_prop in Hen. destruct Hen as [Hs _].
      apply negb_true_iff in Hs. now rewrite Hs.
    + reflexivity.
    + apply andb_false_r.
Qed.

Lemma loading_and_success_exclusive_witness :
  Reachable (step (mount (literal (1 # 2))) ClickConfirm) /\
  isLoading (step (mount (literal (1 # 2))) ClickConfirm)
  && isSuccess (step (mount (literal (1 # 2))) ClickConfirm) = false.
Proof.
  assert (R : Reachable (step (mount (literal (1 # 2))) ClickConfirm)).
  { apply ReachStep; [apply ReachMount|]; vm_compute; reflexivity. }
  split; [exact R|].
  exact (loading_and_success_exclusive _ R).
Defined.

(** ** Rounding to nearest is monotone *)

Module Monotone.
Import Num NumFacts RoundFacts.
Local Open Scope Q_scope.

Lemma div_nearest_even_tie (n m j : Z) :
  (0 < m)%Z -> (2 * n = (2 * j + 1) * m)%Z ->
  div_nearest_even n m = if Z.even j then j else (j + 1)%Z.
Proof.
  intros Hm H. unfold div_nearest_even.
  assert (Hq : (n / m = j)%Z).
  { symmetry. apply (Z.div_unique n m j (n - m * j)); lia. }
  assert (Hr : (n mod m = n - m * j)%Z).
  { symmetry. apply (Z.mod_unique n m j (n - m * j)); lia. }
  rewrite Hq, Hr.
  replace (2 * (n - m * j) ?= m)%Z with Eq; [reflexivity|].
  symmetry. apply Z.compare_eq_iff. lia.
Qed.

Lemma div_nearest_even_mono (n m n' m' : Z) :
  (0 < m)%Z -> (0 < m')%Z -> (n * m' <= n' * m)%Z ->
  (div_nearest_even n m <= div_nearest_even n' m')%Z.
Proof.
  intros Hm Hm' Hle.
  pose proof (div_nearest_even_Z n m Hm) as H1.
  pose proof (div_nearest_even_Z n' m' Hm') as H2. cbv zeta in H1, H2.
  remember (div_nearest_even n m) as k eqn:Ek.
  remember (div_nearest_even n' m') as k' eqn:Ek'.
  destruct (Z_le_gt_dec k k') as [|Hgt]; [assumption | exfalso].
  assert (B1 : ((2 * k - 1) * m <= 2 * n)%Z) by lia.
  assert (B2 : (2 * n' <= (2 * k' + 1) * m')%Z) by lia.
  assert (P1 : ((2 * k - 1) * m * m' <= 2 * n * m')%Z)
    by (apply Z.mul_le_mono_nonneg_r; lia).
  assert (P2 : (2 * n' * m <= (2 * k' + 1) * m' * m)%Z)
    by (apply Z.mul_le_mono_nonneg_r; lia).
  assert (Hmm : (0 < m * m')%Z) by (apply Z.mul_pos_pos; assumption).
  assert (A : ((2 * k - 1) * (m * m') <= (2 * k' + 1) * (m * m'))%Z) by lia.
  apply Z.mul_le_mono_pos_r in A; [|assumption].
  assert (Hk : k = (k' + 1)%Z) by lia.
  assert (T1 : (2 * n = (2 * k' + 1) * m)%Z).
  { apply (Z.mul_reg_r _ _ m'); lia. }
  assert (T2 : (2 * n' = (2 * k' + 1) * m')%Z).
  { apply (Z.mul_reg_r _ _ m); lia. }
  rewrite (div_nearest_even_tie n m k' Hm T1) in Ek.
  rewrite (div_nearest_even_tie n' m' k' Hm' T2) in Ek'.
  destruct (Z.even k'); lia.
Qed.

Lemma Qdiv_le_cross (n m n' m' : Z) :
  (0 < m)%Z -> (0 < m')%Z ->
  inject_Z n / inject_Z m <= inject_Z n' / inject_Z m' ->
  (n * m' <= n' * m)%Z.
Proof.
  intros Hm Hm' H.
  pose proof (inject_Z_pos m Hm) as HM. pose proof (inject_Z_pos m' Hm') as HM'.
  rewrite Zle_Qle, !inject_Z_mult.
  set (N := inject_Z n) in *. set (M := inject_Z m) in *.
  set (N' := inject_Z n') in *. set (M' := inject_Z m') in *.
  assert (E1 : N / M * (M * M') == N * M') by (field; lra).
  assert (E2 : N' / M' * (M * M') == N' * M) by (field; lra).
  rewrite <- E1, <- E2. apply Qmult_le_compat_r; [assumption|].
  apply Qlt_le_weak, Qmult_lt_0_compat; assumption.
Qed.

Lemma div_nearest_even_mono_Q (n m n' m' : Z) :
  (0 < m)%Z -> (0 < m')%Z ->
  inject_Z n / inject_Z m <= inject_Z n' / inject_Z m' ->
  (div_nearest_even n m <= div_nearest_even n' m')%Z.
Proof.
  intros Hm Hm' H. apply div_nearest_even_mono; try assumption.
  now apply Qdiv_le_cross.
Qed.

Lemma round_pos_core (s : bool) (p d : positive) :
  round_pos s p d
  = match fst (round_core (Zpos p) (Zpos d)) with
    | Zpos mant =>
        if (snd (round_core (Zpos p) (Zpos d)) <=? emax - prec)%Z
        then S754_finite s mant (snd (round_core (Zpos p) (Zpos d)))
        else S754_infinity s
    | _ => S754_zero s
    end.
Proof.
  unfold round_pos, round_core.
  destruct (scaled _ _ _) as [n m]. cbv zeta.
  destruct (_ =? _)%Z; reflexivity.
Qed.

(** What the rounding computes for [q = p / d]: the exponent [E] of
    the last place, the mantissa [k] (the nearest integer to
    [q / 2^E]) and the pair it returns. *)
Lemma round_core_facts (p d : Z) :
  (0 < p)%Z -> (0 < d)%Z ->
  let q := inject_Z p / inject_Z d in
  exists (e1 E n m k : Z),
    E = Z.max e1 emin /\
    pow2 (52 + e1) <= q /\ q < pow2 (53 + e1) /\
    (0 < n)%Z /\ (0 < m)%Z /\
    inject_Z n / inject_Z m == q * pow2 (- E) /\
    k = div_nearest_even n m /\
    (0 <= k <= 2 ^ 53)%Z /\
    ((emin < E)%Z -> (2 ^ 52 <= k)%Z) /\
    (E <= snd (round_core p d) <= E + 1)%Z /\
    ((k = 2 ^ 53)%Z -> snd (round_core p d) = (E + 1)%Z) /\
    ((k < 2 ^ 53)%Z -> round_core p d = (k, E)) /\
    (0 <= fst (round_core p d))%Z /\
    inject_Z (fst (round_core p d)) * pow2 (snd (round_core p d))
    == inject_Z k * pow2 E.
Proof.
  intros Hp Hd q.
  destruct (exponent_bracket p d Hp Hd) as (e1 & He & Hlo & Hhi).
  fold q in Hlo, Hhi.
  set (E := exponent_of p d) in *.
  destruct (scaled_spec p d E Hp Hd) as (Hn & Hm & Hs). fold q in Hs.
  unfold round_core. fold E.
  destruct (scaled p d E) as [n m]. cbn [fst snd] in Hn, Hm, Hs.
  cbv zeta.
  set (k := div_nearest_even n m).
  exists e1, E, n, m, k.
  assert (HE : (e1 <= E)%Z) by lia.
  assert (Hx2 : inject_Z n / inject_Z m <= inject_Z (2 ^ 53) / inject_Z 1).
  { rewrite Hs. change (inject_Z (2 ^ 53) / inject_Z 1) with (pow2 53 / 1).
    apply Qle_trans with (pow2 (53 + E) * pow2 (- E)).
    - apply Qmult_le_compat_r; [|apply Qlt_le_weak, pow2_pos].
      apply Qle_trans with (pow2 (53 + e1)); [lra|]. apply pow2_le. lia.
    - rewrite <- pow2_add. replace (53 + E + - E)%Z with 53%Z by lia.
      unfold Qdiv. change (/ 1) with 1. lra. }
  assert (Hku : (k <= 2 ^ 53)%Z).
  { unfold k. rewrite <- (div_nearest_even_one (2 ^ 53)).
    apply div_nearest_even_mono_Q; [assumption | lia | exact Hx2]. }
  assert (Hk0 : (0 <= k)%Z) by (apply div_nearest_even_nonneg; lia).
  assert (Hkl : (emin < E)%Z -> (2 ^ 52 <= k)%Z).
  { intros HEm. assert (E = e1) by lia. subst e1.
    unfold k. rewrite <- (div_nearest_even_one (2 ^ 52)).
    apply div_nearest_even_mono_Q; [lia | assumption |].
    rewrite Hs. change (inject_Z (2 ^ 52) / inject_Z 1) with (pow2 52 / 1).
    apply Qle_trans with (pow2 (52 + E) * pow2 (- E)).
    - rewrite <- pow2_add. replace (52 + E + - E)%Z with 52%Z by lia.
      unfold Qdiv. change (/ 1) with 1. lra.
    - apply Qmult_le_compat_r; [lra | apply Qlt_le_weak, pow2_pos]. }
  split; [exact He|]. split; [exact Hlo|]. split; [exact Hhi|].
  split; [exact Hn|]. split; [exact Hm|]. split; [exact Hs|].
  split; [reflexivity|]. split; [lia|]. split; [exact Hkl|].
  destruct (k =? 2 ^ 53)%Z eqn:Ek; cbn [fst snd].
  - apply Z.eqb_eq in Ek.
    split; [lia|]. split; [reflexivity|]. split; [lia|].
    split; [lia|].
    rewrite Ek, pow2_succ.
    change (inject_Z (2 ^ 53)) with (2 * inject_Z (2 ^ 52)). ring.
  - apply Z.eqb_neq in Ek.
    split; [lia|]. split; [lia|]. split; [reflexivity|].
    split; [lia | reflexivity].
Qed.

(** A larger quotient rounds to a larger value, with a larger
    exponent. *)
Lemma round_core_mono (p d p' d' : Z) :
  (0 < p)%Z -> (0 < d)%Z -> (0 < p')%Z -> (0 < d')%Z ->
  inject_Z p / inject_Z d <= inject_Z p' / inject_Z d' ->
  inject_Z (fst (round_core p d)) * pow2 (snd (round_core p d))
  <= inject_Z (fst (round_core p' d')) * pow2 (snd (round_core p' d')) /\
  (snd (round_core p d) <= snd (round_core p' d'))%Z.
Proof.
  intros Hp Hd Hp' Hd' Hle.
  destruct (round_core_facts p d Hp Hd)
    as (e1 & E & n & m & k & He & Hlo & Hhi & Hn & Hm & Hs & Hk & Hkb & Hkl
        & Hsn & Hs53 & Hslt & Hf0 & Hv).
  destruct (round_core_facts p' d' Hp' Hd')
    as (e1' & E' & n' & m' & k' & He' & Hlo' & Hhi' & Hn' & Hm' & Hs' & Hk'
        & Hkb' & Hkl' & Hsn' & Hs53' & Hslt' & Hf0' & Hv').
  cbv zeta in *.
  set (q := inject_Z p / inject_Z d) in *.
  set (q' := inject_Z p' / inject_Z d') in *.
  assert (He1 : (e1 <= e1')%Z).
  { assert (H : pow2 (52 + e1) < pow2 (53 + e1')) by lra.
    apply pow2_lt_inv in H. lia. }
  assert (HE : (E <= E')%Z) by lia.
  rewrite Hv, Hv'.
  destruct (Z.eq_dec E E') as [Eq | Ne].
  - subst E'. rewrite <- Eq in *.
    assert (Hkk : (k <= k')%Z).
    { rewrite Hk, Hk'. apply div_nearest_even_mono_Q; try assumption.
      rewrite Hs, Hs'. apply Qmult_le_compat_r; [assumption|].
      apply Qlt_le_weak, pow2_pos. }
    split.
    + apply Qmult_le_compat_r; [|apply Qlt_le_weak, pow2_pos].
      now rewrite <- Zle_Qle.
    + destruct (Z.eq_dec k (2 ^ 53)) as [K | K].
      * assert (K' : k' = (2 ^ 53)%Z) by lia.
        rewrite (Hs53 K), (Hs53' K'). lia.
      * assert (Hklt : (k < 2 ^ 53)%Z) by lia.
        rewrite (Hslt Hklt). cbn [snd]. lia.
  - assert (Hlt : (E < E')%Z) by lia.
    assert (Hk52 : (2 ^ 52 <= k')%Z) by (apply Hkl'; lia).
    split; [|lia].
    apply Qle_trans with (inject_Z (2 ^ 53) * pow2 E).
    + apply Qmult_le_compat_r; [|apply Qlt_le_weak, pow2_pos].
      rewrite <- Zle_Qle. lia.
    + apply Qle_trans with (inject_Z (2 ^ 52) * pow2 E').
      * change (inject_Z (2 ^ 53)) with (pow2 53).
        change (inject_Z (2 ^ 52)) with (pow2 52).
        rewrite <- !pow2_add. apply pow2_le. lia.
      * apply Qmult_le_compat_r; [|apply Qlt_le_weak, pow2_pos].
        now rewrite <- Zle_Qle.
Qed.

Lemma Nonneg_round_pos (p d : positive) : Nonneg (round_pos false p d).
Proof.
  rewrite round_pos_core.
  destruct (fst _); [exact I | | exact I].
  destruct (_ <=? _)%Z; exact I.
Qed.

Lemma round_pos_mono (p d p' d' : positive) :
  inject_Z (Zpos p) / inject_Z (Zpos d)
  <= inject_Z (Zpos p') / inject_Z (Zpos d') ->
  Below (round_pos false p d) (round_pos false p' d').
Proof.
  intros Hle.
  split; [apply Nonneg_round_pos|]. split; [apply Nonneg_round_pos|].
  destruct (round_core_mono (Zpos p) (Zpos d) (Zpos p') (Zpos d'))
    as [Hv He]; try lia; try assumption.
  destruct (round_core_facts (Zpos p) (Zpos d))
    as (? & ? & ? & ? & ? & _ & _ & _ & _ & _ & _ & _ & _ & _ & _ & _ & _
        & Hf0 & _); try lia.
  destruct (round_core_facts (Zpos p') (Zpos d'))
    as (? & ? & ? & ? & ? & _ & _ & _ & _ & _ & _ & _ & _ & _ & _ & _ & _
        & Hf0' & _); try lia.
  rewrite !round_pos_core.
  set (kc := fst (round_core (Zpos p) (Zpos d))) in *.
  set (ec := snd (round_core (Zpos p) (Zpos d))) in *.
  set (kc' := fst (round_core (Zpos p') (Zpos d'))) in *.
  set (ec' := snd (round_core (Zpos p') (Zpos d'))) in *.
  clearbody kc ec kc' ec'.
  pose proof (pow2_pos ec) as Pe. pose proof (pow2_pos ec') as Pe'.
  destruct kc as [|mant|mant]; [| |lia].
  - (* the smaller one is zero *)
    destruct kc' as [|mant'|mant']; [| |lia].
    + right. repeat split. cbn [val]. lra.
    + destruct (ec' <=? emax - prec)%Z; [right | left; reflexivity].
      repeat split. cbn [val].
      apply Qlt_le_weak, Qmult_lt_0_compat; [reflexivity | assumption].
  - assert (Hpos : 0 < inject_Z (Zpos mant) * pow2 ec)
      by (apply Qmult_lt_0_compat; [reflexivity | assumption]).
    destruct kc' as [|mant'|mant']; [| |lia].
    + exfalso. change (inject_Z 0) with 0 in Hv. lra.
    + destruct (ec' <=? emax - prec)%Z eqn:X'; [|left; reflexivity].
      assert (X : (ec <=? emax - prec)%Z = true).
      { apply Z.leb_le in X'. apply Z.leb_le. lia. }
      rewrite X. right. repeat split. cbn [val]. exact Hv.
Qed.

Lemma of_Q_zero (q : Q) : q == 0 -> of_Q q = S754_zero false.
Proof. intros H. rewrite (of_Q_compat q 0 H). reflexivity. Qed.

Lemma of_Q_pos (q : Q) :
  0 < q ->
  exists p d : positive,
    of_Q q = round_pos false p d /\
    inject_Z (Zpos p) / inject_Z (Zpos d) == q.
Proof.
  intros Hq. destruct (Qred_pos q Hq) as (p & Hp & Hv).
  exists p, (Qden (Qred q)). split; [|exact Hv].
  unfold of_Q. rewrite Hp. reflexivity.
Qed.

Lemma Nonneg_of_Q (q : Q) : 0 <= q -> Nonneg (of_Q q).
Proof.
  intros Hq. destruct (Qlt_le_dec 0 q) as [Hp | Hz].
  - destruct (of_Q_pos q Hp) as (p & d & -> & _). apply Nonneg_round_pos.
  - rewrite (of_Q_zero q) by lra. exact I.
Qed.

(** The conversion of rationals to numbers is monotone. *)
Lemma of_Q_mono (q q' : Q) :
  0 <= q -> q <= q' -> Below (of_Q q) (of_Q q').
Proof.
  intros Hq Hle.
  destruct (Qlt_le_dec 0 q) as [Hp | Hz].
  - destruct (of_Q_pos q Hp) as (p & d & -> & E).
    destruct (of_Q_pos q') as (p' & d' & -> & E'); [lra|].
    apply round_pos_mono. rewrite E, E'. exact Hle.
  - rewrite (of_Q_zero q) by lra.
    split; [exact I|]. split; [apply Nonneg_of_Q; lra|].
    pose proof (Nonneg_of_Q q' ltac:(lra)) as N.
    destruct (of_Q q') as [[|]|[|]| |[|] m e]; try contradiction.
    + right. repeat split. cbn [val]. lra.
    + left. reflexivity.
    + right. repeat split. cbn [val].
      apply Qlt_le_weak, Qmult_lt_0_compat; [reflexivity | apply pow2_pos].
Qed.

(** ** The order on numbers that are not negative *)

Lemma Below_finite (x y : number) :
  Below x y -> is_finite y = true ->
  is_finite x = true /\ val x <= val y.
Proof.
  intros (_ & _ & [-> | (Fx & _ & V)]) Fy; [discriminate Fy|].
  split; assumption.
Qed.

Lemma Below_refl (x : number) : Nonneg x -> Below x x.
Proof.
  intros N. split; [exact N|]. split; [exact N|].
  destruct x as [[|]|[|]| |[|] m e]; try contradiction;
    [right | left; reflexivity | right]; repeat split; apply Qle_refl.
Qed.

Lemma Below_trans (x y z : number) : Below x y -> Below y z -> Below x z.
Proof.
  intros (Nx & Ny & Hxy) (_ & Nz & Hyz).
  split; [exact Nx|]. split; [exact Nz|].
  destruct Hyz as [-> | (Fy & Fz & Vyz)]; [now left|].
  destruct Hxy as [-> | (Fx & _ & Vxy)]; [discriminate Fy|].
  right. repeat split; try assumption. lra.
Qed.

Lemma Nonneg_val (x : number) : Nonneg x -> 0 <= val x.
Proof.
  destruct x as [[|]|[|]| |[|] m e]; try contradiction; intros _;
    cbn [val]; try lra.
  apply Qlt_le_weak, Qmult_lt_0_compat; [reflexivity | apply pow2_pos].
Qed.

Lemma Below_leb (x y : number) : Below x y -> leb x y = true.
Proof.
  intros (Nx & Ny & H). unfold leb.
  destruct H as [-> | (Fx & Fy & V)].
  - destruct x as [[|]|[|]| |[|] m e]; try contradiction; reflexivity.
  - assert (C : compare x y = Some (val x ?= val y)).
    { destruct x as [[|]|[|]| |[|] mx ex]; try contradiction;
        try discriminate Fx;
        destruct y as [[|]|[|]| |[|] my ey]; try contradiction;
        try discriminate Fy; reflexivity. }
    rewrite C.
    destruct (Qcompare_spec (val x) (val y)) as [E | E | E];
      try reflexivity. lra.
Qed.

End Monotone.

(** ** Arithmetic on numbers that are not negative *)

Module Order.
Import Num Conv NumFacts RoundFacts RoundAll Minutes Monotone.
Local Open Scope Q_scope.

Lemma val_pos (m : positive) (e : Z) : 0 < val (S754_finite false m e).
Proof.
  cbn [val]. apply Qmult_lt_0_compat; [reflexivity | apply pow2_pos].
Qed.

Lemma Below_zero (x : number) : Nonneg x -> Below (S754_zero false) x.
Proof.
  intros N. split; [exact I|]. split; [exact N|].
  destruct x as [[|]|[|]| |[|] m e]; try contradiction;
    [right | left; reflexivity | right]; repeat split.
  - apply Qle_refl.
  - apply Qlt_le_weak, val_pos.
Qed.

Lemma Below_infinity (x : number) : Nonneg x -> Below x (S754_infinity false).
Proof. intros N. split; [exact N|]. split; [exact I|]. now left. Qed.

(** A bound from below by a positive number: the number is positive
    too. *)
Lemma Below_positive (c x : number) (m : positive) (e : Z) :
  c = S754_finite false m e -> Below c x ->
  x = S754_infinity false \/
  (exists m' e', x = S754_finite false m' e' /\ val c <= val x).
Proof.
  intros -> (_ & N & [-> | (_ & F & V)]); [now left|].
  pose proof (val_pos m e) as P.
  destruct x as [[|]|[|]| |[|] m' e']; try contradiction;
    try discriminate F.
  - exfalso. cbn [val] in V. cbn [val] in P. lra.
  - right. now exists m', e'.
Qed.

Lemma Nonneg_mul (x y : number) (m : positive) (e : Z) :
  Nonneg x -> y = S754_finite false m e ->
  Nonneg (mul x y) /\ Nonneg (mul y x).
Proof.
  intros N ->.
  destruct x as [[|]|[|]| |[|] mx ex]; try contradiction; cbn [mul];
    try (split; exact I).
  split; apply Nonneg_of_Q, Qlt_le_weak, Qmult_lt_0_compat; apply val_pos.
Qed.

Lemma mul_mono_r (x x' c : number) (m : positive) (e : Z) :
  c = S754_finite false m e -> Below x x' -> Below (mul x c) (mul x' c).
Proof.
  intros Hc H. pose proof H as (Nx & Nx' & Hxx).
  destruct (Nonneg_mul x c m e Nx Hc) as [N1 _].
  destruct (Nonneg_mul x' c m e Nx' Hc) as [N1' _].
  subst c. pose proof (val_pos m e) as Pc.
  set (c := S754_finite false m e) in *.
  destruct Hxx as [-> | (Fx & Fx' & V)].
  - cbn [mul c]. now apply Below_infinity.
  - destruct x as [[|]|[|]| |[|] mx ex]; try contradiction;
      try discriminate Fx;
      destruct x' as [[|]|[|]| |[|] mx' ex']; try contradiction;
      try discriminate Fx'; cbn [mul c xorb sign_of].
    + apply Below_refl. exact I.
    + apply Below_zero. exact N1'.
    + exfalso. pose proof (val_pos mx ex). cbn [val] in *. lra.
    + apply of_Q_mono.
      * apply Qlt_le_weak, Qmult_lt_0_compat; [apply val_pos | exact Pc].
      * apply Qmult_le_compat_r; [exact V | lra].
Qed.

Lemma mul_mono_l (x x' c : number) (m : positive) (e : Z) :
  c = S754_finite false m e -> Below x x' -> Below (mul c x) (mul c x').
Proof.
  intros Hc H. pose proof H as (Nx & Nx' & Hxx).
  destruct (Nonneg_mul x c m e Nx Hc) as [_ N1].
  destruct (Nonneg_mul x' c m e Nx' Hc) as [_ N1'].
  subst c. pose proof (val_pos m e) as Pc.
  set (c := S754_finite false m e) in *.
  destruct Hxx as [-> | (Fx & Fx' & V)].
  - cbn [mul c]. now apply Below_infinity.
  - destruct x as [[|]|[|]| |[|] mx ex]; try contradiction;
      try discriminate Fx;
      destruct x' as [[|]|[|]| |[|] mx' ex']; try contradiction;
      try discriminate Fx'; cbn [mul c xorb sign_of].
    + apply Below_refl. exact I.
    + apply Below_zero. exact N1'.
    + exfalso. pose proof (val_pos mx ex). cbn [val] in *. lra.
    + apply of_Q_mono.
      * apply Qlt_le_weak, Qmult_lt_0_compat; [exact Pc | apply val_pos].
      * apply Qmult_le_l; [exact Pc | exact V].
Qed.

Lemma Nonneg_add (c x : number) (m : positive) (e : Z) :
  c = S754_finite false m e -> Nonneg x -> Nonneg (add c x).
Proof.
  intros -> N.
  destruct x as [[|]|[|]| |[|] mx ex]; try contradiction; cbn [add];
    try exact I.
  apply Nonneg_of_Q, Qlt_le_weak.
  pose proof (val_pos m e). pose proof (val_pos mx ex). lra.
Qed.

(** Adding to a number that rounding leaves as it is. *)
Lemma add_mono_l (c x x' : number) (m : positive) (e : Z) :
  c = S754_finite false m e -> of_Q (val c) = c ->
  Below x x' -> Below (add c x) (add c x').
Proof.
  intros Hc Hr H. pose proof H as (Nx & Nx' & Hxx).
  pose proof (Nonneg_add c x m e Hc Nx) as N1.
  pose proof (Nonneg_add c x' m e Hc Nx') as N1'.
  subst c. pose proof (val_pos m e) as Pc.
  set (c := S754_finite false m e) in *.
  destruct Hxx as [-> | (Fx & Fx' & V)].
  - change (add c (S754_infinity false)) with (S754_infinity false).
    now apply Below_infinity.
  - destruct x as [[|]|[|]| |[|] mx ex]; try contradiction;
      try discriminate Fx;
      destruct x' as [[|]|[|]| |[|] mx' ex']; try contradiction;
      try discriminate Fx'; cbn [add c]; fold c.
    + apply Below_refl. exact I.
    + rewrite <- Hr at 1. pose proof (val_pos mx' ex').
      apply of_Q_mono; lra.
    + exfalso. pose proof (val_pos mx ex). cbn [val] in *. lra.
    + pose proof (val_pos mx ex). apply of_Q_mono; lra.
Qed.

(** ** [Math.round] stays within one half *)

Lemma round_near (x : number) :
  canonical x -> is_finite x = true ->
  is_finite (round x) = true /\
  val x - (1 # 2) < val (round x) /\ val (round x) <= val x + (1 # 2).
Proof.
  destruct x as [s | s | | s m e]; cbn [canonical round]; intros Hc Hf;
    try discriminate Hf.
  - split; [reflexivity|]. cbn [val]. lra.
  - destruct (0 <=? e)%Z eqn:E.
    + split; [reflexivity|]. lra.
    + apply Z.leb_gt in E.
      destruct (val_finite_bound s m e Hc E) as [B1 B2].
      set (v := val (S754_finite s m e)) in *.
      pose proof (Qfloor_le (v + (1 # 2))) as F1.
      pose proof (Qlt_floor (v + (1 # 2))) as F2.
      set (n := Qfloor (v + (1 # 2))) in *.
      rewrite inject_Z_plus in F2. change (inject_Z 1) with 1 in F2.
      destruct (n =? 0)%Z eqn:En.
      * apply Z.eqb_eq in En. rewrite En in F1, F2.
        change (inject_Z 0) with 0 in F1, F2.
        split; [reflexivity|]. cbn [val]. lra.
      * assert (Hn : (- 2 ^ 53 < n < 2 ^ 53)%Z).
        { change (pow2 52) with (inject_Z (2 ^ 52)) in B1, B2.
          assert (G1 : inject_Z (- 2 ^ 52 - 1) < inject_Z n).
          { change (inject_Z (- 2 ^ 52 - 1)) with (- inject_Z (2 ^ 52) - 1).
            lra. }
          assert (G2 : inject_Z n < inject_Z (2 ^ 52 + 1)).
          { change (inject_Z (2 ^ 52 + 1)) with (inject_Z (2 ^ 52) + 1). lra. }
          rewrite <- Zlt_Qlt in G1, G2. lia. }
        destruct (of_Z_integral n Hn) as [Hfin Hv].
        split; [exact Hfin|]. rewrite Hv. lra.
Qed.

(** ** The clamp to [[5, 30]] *)

Lemma clamp_value (t : number) (n : Z) :
  is_finite t = true -> val t == inject_Z n ->
  is_finite (max (literal 5) (min (literal 30) t)) = true /\
  val (max (literal 5) (min (literal 30) t))
  == inject_Z (Z.max 5 (Z.min 30 n)).
Proof.
  intros Hf Hn.
  assert (F5 : is_finite (literal 5) = true) by reflexivity.
  assert (F30 : is_finite (literal 30) = true) by reflexivity.
  pose proof val_literal_5 as V5. pose proof val_literal_30 as V30.
  assert (S5 : sign_of (literal 5) = false) by reflexivity.
  assert (S30 : sign_of (literal 30) = false) by reflexivity.
  assert (C530 : compare (literal 5) (literal 30) = Some Lt) by reflexivity.
  unfold min. rewrite (compare_finite_finite _ _ F30 Hf), S30.
  destruct (Qcompare_spec (val (literal 30)) (val t)) as [E | L | G].
  - unfold max. rewrite (compare_finite_finite _ _ F5 Hf).
    assert (L5 : val (literal 5) < val t) by (rewrite <- E, V5, V30; reflexivity).
    assert (L5' : (val (literal 5) ?= val t) = Lt) by (apply Qlt_alt; exact L5).
    rewrite L5'. split; [assumption|].
    rewrite Hn in E. rewrite V30 in E.
    assert (En : (30 <= n <= 30)%Z)
      by (split; rewrite Zle_Qle; change (inject_Z 30) with 30; lra).
    assert (n = 30%Z) by lia. subst n. exact Hn.
  - unfold max. rewrite C530. split; [assumption|].
    rewrite V30. rewrite Hn, V30 in L. change 30 with (inject_Z 30) in L.
    rewrite <- Zlt_Qlt in L. rewrite Z.min_l, Z.max_r by lia. reflexivity.
  - unfold max. rewrite (compare_finite_finite _ _ F5 Hf), S5.
    rewrite Hn, V30 in G. change 30 with (inject_Z 30) in G.
    rewrite <- Zlt_Qlt in G. rewrite (Z.min_r 30 n) by lia.
    destruct (Qcompare_spec (val (literal 5)) (val t)) as [E' | L' | G'].
    + split; [assumption|]. rewrite Hn, V5 in E'.
      assert (En : (5 <= n <= 5)%Z)
        by (split; rewrite Zle_Qle; change (inject_Z 5) with 5; lra).
      assert (n = 5%Z) by lia. subst n. exact V5.
    + split; [assumption|]. rewrite Hn, V5 in L'.
      change 5 with (inject_Z 5) in L'. rewrite <- Zlt_Qlt in L'.
      rewrite Z.max_r by lia. exact Hn.
    + split; [assumption|]. rewrite Hn, V5 in G'.
      change 5 with (inject_Z 5) in G'. rewrite <- Zlt_Qlt in G'.
      rewrite Z.max_l by lia. exact V5.
Qed.

(** ** Amounts *)

Lemma scale10_nonneg (m k : Z) : (0 <= m)%Z -> 0 <= scale10 m k.
Proof.
  intros Hm. destruct k as [|p|p]; cbn [scale10].
  - change 0 with (inject_Z 0). now rewrite <- Zle_Qle.
  - change 0 with (inject_Z 0). rewrite <- Zle_Qle.
    apply Z.mul_nonneg_nonneg; [assumption|]. apply Z.pow_nonneg. lia.
  - unfold Qle. cbn. lia.
Qed.

Lemma unsigned_value_nonneg (a : string) :
  NumericFormat a -> 0 <= unsigned_value a.
Proof.
  intros H. unfold unsigned_value. apply scale10_nonneg.
  apply ConvFacts.digits_val_nonneg, RoundTrip.NumericFormat_parts, H.
Qed.

Lemma balance_ETH :
  balance (CURRENCIES ETH) = S754_finite false 6710363444782039 (-51).
Proof. vm_compute. reflexivity. Qed.

Lemma balance_USDT :
  balance (CURRENCIES USDT) = S754_finite false 5497558138880000 (-39).
Proof. vm_compute. reflexivity. Qed.

Lemma balance_finite (c : CurrencyKey) :
  exists m e, balance (CURRENCIES c) = S754_finite false m e.
Proof. destruct c; [rewrite balance_ETH | rewrite balance_USDT]; eauto. Qed.

Lemma smallest_positive :
  of_Q (pow2 (- 1074)) = S754_finite false 1 (-1074).
Proof. vm_compute. reflexivity. Qed.

(** A parsed amount that is at least the smallest positive number is
    positive. *)
Lemma parsed_positive (u : Q) :
  pow2 (- 1074) <= u ->
  of_Q u = S754_infinity false \/
  (exists m e, of_Q u = S754_finite false m e /\ 0 < val (of_Q u)).
Proof.
  intros Hu. pose proof (pow2_pos (- 1074)) as P.
  pose proof (of_Q_mono (pow2 (- 1074)) u ltac:(lra) Hu) as B.
  rewrite smallest_positive in B.
  destruct (Below_positive _ _ _ _ eq_refl B) as [E | (m & e & E & V)];
    [now left | right].
  exists m, e. split; [exact E|]. rewrite E. apply val_pos.
Qed.

Lemma validateAmount_within (a : string) (c : CurrencyKey) :
  isNumericInput a = true -> a <> "" ->
  validateAmount a c
  = if isWithinBalance a (balance (CURRENCIES c)) then ""
    else insufficientBalance c.
Proof.
  intros Hn He. unfold validateAmount. rewrite Hn. cbn [negb].
  apply StrFacts.truthy_true in He. rewrite He. cbn [andb].
  destruct (isWithinBalance _ _), c; reflexivity.
Qed.

Lemma has_digit_nonempty (a : string) : has_digit a = true -> a <> "".
Proof. intros H ->. discriminate H. Qed.

End Order.

Import Num Conv NumFacts RoundFacts Monotone Order ParseFacts.

(** ** The balance check in decimal terms *)

Lemma parsed_amount (a : string) :
  isNumericInput a = true -> has_digit a = true ->
  a <> "" /\ NumericFormat a /\ parseFloat a = of_Q (unsigned_value a) /\
  (0 <= unsigned_value a)%Q.
Proof.
  intros Hn Hd. pose proof (has_digit_nonempty a Hd) as He.
  apply isNumericInput_spec in Hn. destruct Hn as [-> | Hf]; [congruence|].
  split; [exact He|]. split; [exact Hf|].
  split; [now apply parseFloat_numeric | now apply unsigned_value_nonneg].
Qed.

Lemma literal_above_balance (c : CurrencyKey) :
  exists m e,
    of_Q (aboveBalance c) = S754_finite false m e /\
    (val (balance (CURRENCIES c)) < val (of_Q (aboveBalance c)))%Q.
Proof.
  destruct c.
  - exists 6710363444782041%positive, (-51)%Z. split; vm_compute; reflexivity.
  - exists 5497558138880005%positive, (-39)%Z. split; vm_compute; reflexivity.
Qed.

Lemma balance_decimal :
  forall (a : string) (c : CurrencyKey),
    isNumericInput a = true -> has_digit a = true ->
    ((pow2 (- 1074) <= unsigned_value a)%Q ->
     (unsigned_value a <= decimalBalance c)%Q ->
     validateAmount a c = "") /\
    ((aboveBalance c <= unsigned_value a)%Q ->
     validateAmount a c = insufficientBalance c).
Proof.
  intros a c Hn Hd.
  destruct (parsed_amount a Hn Hd) as (He & Hf & Hp & H0).
  rewrite (validateAmount_within a c Hn He).
  destruct (balance_finite c) as (mb & eb & Eb).
  pose proof (isWithinBalance_finite a false mb eb) as W. cbv zeta in W.
  rewrite <- Eb in W. rewrite Hp in W.
  set (u := unsigned_value a) in *. split.
  - intros Hlo Hhi.
    assert (B : Below (of_Q u) (balance (CURRENCIES c))).
    { assert (E : balance (CURRENCIES c) = of_Q (decimalBalance c))
        by (destruct c; reflexivity).
      rewrite E. now apply of_Q_mono. }
    destruct (Below_finite _ _ B) as [Fx Vx]; [rewrite Eb; reflexivity|].
    assert (P : (0 < val (of_Q u))%Q).
    { destruct (parsed_positive u Hlo) as [E | (m & e & _ & V)]; [|exact V].
      rewrite E in Fx. discriminate Fx. }
    replace (isWithinBalance a (balance (CURRENCIES c))) with true;
      [reflexivity|].
    symmetry. apply W. right. repeat split; assumption.
  - intros Hhi.
    destruct (literal_above_balance c) as (m & e & Ea & Va).
    pose proof (of_Q_mono (aboveBalance c) u) as B.
    assert (0 <= aboveBalance c)%Q by (destruct c; discriminate).
    specialize (B ltac:(assumption) Hhi).
    destruct (isWithinBalance a (balance (CURRENCIES c))) eqn:Wb;
      [exfalso | reflexivity].
    destruct (proj1 W eq_refl) as [-> | (Fx & _ & Vx)]; [congruence|].
    destruct (Below_finite _ _ B Fx) as [_ V]. lra.
Qed.

(** X13. In terms of the decimal number that was typed: every amount
    from [2^-1074] (the smallest positive number) up to the balance
    written in the source, 2.98 ETH or 10000 USDT, passes validation,
    and every amount from 2.980000000000001 ETH or 10000.00000000001
    USDT on is answered with the insufficient-balance error. *)
Theorem balance_check_in_decimal :
  forall (a : string) (c : CurrencyKey),
    isNumericInput a = true -> has_digit a = true ->
    ((pow2 (- 1074) <= unsigned_value a)%Q ->
     (unsigned_value a <= decimalBalance c)%Q ->
     validateAmount a c = "") /\
    ((aboveBalance c <= unsigned_value a)%Q ->
     validateAmount a c = insufficientBalance c).
Proof. exact balance_decimal. Qed.

Lemma balance_check_in_decimal_witness :
  validateAmount "2.98" ETH = "" /\
  validateAmount "2.980000000000001" ETH = "Insufficient ETH balance".
Proof.
  assert (H1 : isNumericInput "2.98" = true) by (vm_compute; reflexivity).
  assert (H2 : has_digit "2.98" = true) by (vm_compute; reflexivity).
  assert (H3 : isNumericInput "2.980000000000001" = true)
    by (vm_compute; reflexivity).
  assert (H4 : has_digit "2.980000000000001" = true)
    by (vm_compute; reflexivity).
  destruct (balance_check_in_decimal "2.98" ETH H1 H2) as [T1 _].
  destruct (balance_check_in_decimal "2.980000000000001" ETH H3 H4) as [_ T2].
  split.
  - apply T1; vm_compute; discriminate.
  - apply T2. vm_compute. discriminate.
Defined.

(** X14. The amounts that pass validation are closed downwards: when an
    amount passes, every smaller amount that is at least [2^-1074]
    passes too. *)
Theorem accepted_amounts_downward_closed :
  forall (a1 a2 : string) (c : CurrencyKey),
    isNumericInput a1 = true -> has_digit a1 = true ->
    isNumericInput a2 = true -> has_digit a2 = true ->
    (pow2 (- 1074) <= unsigned_value a1)%Q ->
    (unsigned_value a1 <= unsigned_value a2)%Q ->
    validateAmount a2 c = "" ->
    validateAmount a1 c = "".
Proof.
  intros a1 a2 c Hn1 Hd1 Hn2 Hd2 Hlo Hle Hv.
  destruct (parsed_amount a1 Hn1 Hd1) as (He1 & Hf1 & Hp1 & H01).
  destruct (parsed_amount a2 Hn2 Hd2) as (He2 & Hf2 & Hp2 & H02).
  rewrite (validateAmount_within a2 c Hn2 He2) in Hv.
  rewrite (validateAmount_within a1 c Hn1 He1).
  destruct (balance_finite c) as (mb & eb & Eb).
  pose proof (isWithinBalance_finite a1 false mb eb) as W1.
  pose proof (isWithinBalance_finite a2 false mb eb) as W2.
  cbv zeta in W1, W2. rewrite <- Eb in W1, W2. rewrite Hp1 in W1.
  rewrite Hp2 in W2.
  destruct (isWithinBalance a2 (balance (CURRENCIES c))) eqn:Wb;
    [|destruct c; discriminate Hv].
  destruct (proj1 W2 eq_refl) as [-> | (F2 & _ & V2)]; [congruence|].
  pose proof (of_Q_mono _ _ H01 Hle) as B.
  destruct (Below_finite _ _ B F2) as [F1 V1].
  assert (P : (0 < val (of_Q (unsigned_value a1)))%Q).
  { destruct (parsed_positive _ Hlo) as [E | (m & e & _ & V)]; [|exact V].
    rewrite E in F1. discriminate F1. }
  replace (isWithinBalance a1 (balance (CURRENCIES c))) with true;
    [reflexivity|].
  symmetry. apply W1. right. repeat split; try assumption. lra.
Qed.

Lemma accepted_amounts_downward_closed_witness :
  validateAmount "2.5" ETH = "" /\ validateAmount "0.3" ETH = "".
Proof.
  assert (V : validateAmount "2.5" ETH = "") by (vm_compute; reflexivity).
  split; [exact V|].
  apply (accepted_amounts_downward_closed "0.3" "2.5" ETH);
    try (vm_compute; reflexivity); try exact V; vm_compute; discriminate.
Defined.

Import Num Conv NumFacts RoundFacts RoundAll Minutes Monotone Order.

(** ** Bounds of the estimated time *)

Module Estimate.
Local Open Scope Q_scope.

Lemma leb_zero_cases (v : number) :
  leb (of_Z 0) v = true ->
  (exists s, v = S754_zero s) \/
  (exists m e, v = S754_finite false m e) \/
  v = S754_infinity false.
Proof.
  change (of_Z 0) with (S754_zero false). unfold leb.
  destruct v as [s | [|] | | [|] m e]; cbn [compare]; intros H;
    try discriminate H; eauto.
  exfalso.
  destruct (Qcompare_spec (val (S754_zero false)) (val (S754_finite true m e)))
    as [E | L | G]; try discriminate H; cbn [val] in *;
    change (inject_Z (Z.neg m)) with (- inject_Z (Z.pos m)) in *;
    pose proof (val_pos m e) as P; cbn [val] in P; lra.
Qed.

Lemma leb_Below (c x : number) (m : positive) (e : Z) :
  c = S754_finite false m e -> leb c x = true -> Below c x.
Proof.
  intros -> H. pose proof (val_pos m e) as P. unfold leb in H.
  destruct x as [s | [|] | | [|] mx ex]; cbn [compare] in H;
    try discriminate H.
  - exfalso.
    destruct (Qcompare_spec (val (S754_finite false m e)) (val (S754_zero s)))
      as [E | L | G]; try discriminate H; cbn [val] in *; lra.
  - apply Below_infinity. exact I.
  - exfalso.
    destruct (Qcompare_spec (val (S754_finite false m e))
                (val (S754_finite true mx ex)))
      as [E | L | G]; try discriminate H; cbn [val] in *;
      change (inject_Z (Z.neg mx)) with (- inject_Z (Z.pos mx)) in *;
      pose proof (val_pos mx ex) as P'; cbn [val] in P'; lra.
  - split; [exact I|]. split; [exact I|]. right. repeat split.
    destruct (Qcompare_spec (val (S754_finite false m e))
                (val (S754_finite false mx ex)))
      as [E | L | G]; try discriminate H; lra.
Qed.

Lemma rounded_10 : of_Q (val (literal 10)) = literal 10.
Proof. vm_compute. reflexivity. Qed.

Lemma rounded_07 : of_Q (val (literal (7 # 10))) = literal (7 # 10).
Proof. vm_compute. reflexivity. Qed.

Lemma rounded_06 : of_Q (val (literal (6 # 10))) = literal (6 # 10).
Proof. vm_compute. reflexivity. Qed.

(** The random factor lies between the numbers 0.7 and 0.7 + 0.6. *)
Lemma randomFactor_bounds (r : number) :
  isRandom r = true ->
  let rf := add (literal (7 # 10)) (mul r (literal (6 # 10))) in
  Below (literal (7 # 10)) rf /\
  Below rf (add (literal (7 # 10)) (literal (6 # 10))).
Proof.
  intros Hr rf.
  assert (Hm : Below (S754_zero false) (mul r (literal (6 # 10))) /\
               Below (mul r (literal (6 # 10))) (literal (6 # 10)) \/
               exists s, mul r (literal (6 # 10)) = S754_zero s).
  { destruct (isRandom_cases r Hr) as [[s ->] | (m & e & -> & H0 & H1)].
    - right. exists s. rewrite literal_06. cbn [mul sign_of xorb].
      destruct s; reflexivity.
    - left. rewrite literal_06. cbn [mul].
      set (c := S754_finite false 5404319552844595 (-53)).
      pose proof (val_pos 5404319552844595 (-53)) as Pc. fold c in Pc.
      assert (Q0 : 0 <= val (S754_finite false m e) * val c).
      { apply Qlt_le_weak, Qmult_lt_0_compat; assumption. }
      split.
      + apply Below_zero, Nonneg_of_Q, Q0.
      + assert (E : c = of_Q (val c)) by (vm_compute; reflexivity).
        rewrite E at 2. apply of_Q_mono; [exact Q0|].
        rewrite <- (Qmult_1_l (val c)) at 2.
        apply Qmult_le_compat_r; lra. }
  destruct Hm as [[B0 B1] | [s E]].
  - split.
    + change (literal (7 # 10))
        with (add (literal (7 # 10)) (S754_zero false)) at 1.
      apply (add_mono_l _ _ _ _ _ literal_07 rounded_07 B0).
    + apply (add_mono_l _ _ _ _ _ literal_07 rounded_07 B1).
  - unfold rf. rewrite E.
    assert (E7 : add (literal (7 # 10)) (S754_zero s) = literal (7 # 10))
      by (rewrite literal_07; reflexivity).
    rewrite E7. split.
    + apply Below_refl. rewrite literal_07. exact I.
    + change (literal (7 # 10))
        with (add (literal (7 # 10)) (S754_zero false)) at 1.
      apply (add_mono_l _ _ _ _ _ literal_07 rounded_07).
      apply Below_zero. rewrite literal_06. exact I.
Qed.

(** The sum of the base time and the effect of a value that is not
    negative: at least 10. *)
Lemma base_bounds (value : number) :
  leb (of_Z 0) value = true ->
  let base := add (literal 10) (mul value (literal (5 # 100))) in
  Below (literal 10) base /\
  (forall c, Below c value ->
             Below (add (literal 10) (mul c (literal (5 # 100)))) base) /\
  ((exists s, value = S754_zero s) -> base = literal 10).
Proof.
  intros Hv base.
  assert (Z10 : forall s, add (literal 10)
                            (mul (S754_zero s) (literal (5 # 100)))
                          = literal 10).
  { intros s. rewrite literal_10, literal_005. reflexivity. }
  destruct (leb_zero_cases value Hv) as [[s ->] | Hpos].
  - unfold base. rewrite Z10.
    split; [apply Below_refl; rewrite literal_10; exact I|].
    split; [|reflexivity].
    intros c (Nc & _ & [E | (Fc & _ & V)]); [discriminate E|].
    assert (Ec : c = S754_zero false).
    { destruct c as [[|]|[|]| |[|] m e]; try contradiction;
        try discriminate Fc; [reflexivity|].
      exfalso. pose proof (val_pos m e). cbn [val] in *. lra. }
    rewrite Ec, Z10. apply Below_refl. rewrite literal_10. exact I.
  - assert (N : Nonneg value)
      by (destruct Hpos as [(m & e & ->) | ->]; exact I).
    split; [|split].
    + rewrite <- (Z10 false) at 1.
      apply (add_mono_l _ _ _ _ _ literal_10 rounded_10).
      apply (mul_mono_r _ _ _ _ _ literal_005). now apply Below_zero.
    + intros c Bc.
      apply (add_mono_l _ _ _ _ _ literal_10 rounded_10).
      apply (mul_mono_r _ _ _ _ _ literal_005 Bc).
    + intros [s E]. subst value.
      destruct Hpos as [(m & e & E) | E]; discriminate E.
Qed.

(** The clamped rounding of a product that is not negative. *)
Lemma clamp_round (P : number) :
  canonical P -> Nonneg P ->
  exists n : Z,
    is_finite (max (literal 5) (min (literal 30) (round P))) = true /\
    val (max (literal 5) (min (literal 30) (round P)))
    == inject_Z (Z.max 5 (Z.min 30 n)) /\
    ((P = S754_infinity false /\ n = 30%Z) \/
     (is_finite P = true /\
      val P - (1 # 2) < inject_Z n /\ inject_Z n <= val P + (1 # 2))).
Proof.
  intros Hc N.
  destruct (is_finite P) eqn:F.
  - destruct (round_near P Hc F) as (Fr & L & U).
    destruct (round_integral P Hc) as [[s E] | [_ [n Hn]]].
    + rewrite E in Fr. discriminate Fr.
    + exists n. destruct (clamp_value (round P) n Fr Hn) as [C1 C2].
      split; [exact C1|]. split; [exact C2|]. right.
      split; [reflexivity|]. rewrite <- Hn. split; assumption.
  - assert (E : P = S754_infinity false)
      by (destruct P as [[|]|[|]| |[|] m e];
          try contradiction; try discriminate F; reflexivity).
    subst P. exists 30%Z. cbn [round].
    split; [vm_compute; reflexivity|]. split; [vm_compute; reflexivity|].
    left. split; reflexivity.
Qed.

Lemma Qle_Zle (a b : Z) : inject_Z a <= inject_Z b -> (a <= b)%Z.
Proof. intros H. now rewrite Zle_Qle. Qed.

Lemma Qlt_Zlt (a b : Z) : inject_Z a < inject_Z b -> (a < b)%Z.
Proof. intros H. now rewrite Zlt_Qlt. Qed.

(** The estimate of a value that is not negative. *)
Lemma estimate_bounds (value random : number) :
  leb (of_Z 0) value = true -> isRandom random = true ->
  exists n : Z,
    (7 <= n <= 30)%Z /\
    is_finite (calculateTransactionMinutes value random) = true /\
    val (calculateTransactionMinutes value random) == inject_Z n /\
    (leb (of_Z 658) value = true -> n = 30%Z) /\
    ((exists s, value = S754_zero s) -> (n <= 13)%Z).
Proof.
  intros Hv Hr. unfold calculateTransactionMinutes. cbv zeta.
  destruct (randomFactor_bounds random Hr) as [R0 R1]. cbv zeta in R0, R1.
  destruct (randomFactor_finite random Hr) as (mf & ef & Ef).
  destruct (base_bounds value Hv) as (B0 & Bc & Bz). cbv zeta in B0, Bc, Bz.
  set (rf := add (literal (7 # 10)) (mul random (literal (6 # 10)))) in *.
  set (base := add (literal 10) (mul value (literal (5 # 100)))) in *.
  clearbody rf base.
  set (P := mul base rf).
  assert (NP : Nonneg P).
  { destruct B0 as (_ & Nb & _).
    exact (proj1 (Nonneg_mul base rf mf ef Nb Ef)). }
  assert (CP : canonical P).
  { unfold P. rewrite Ef.
    destruct B0 as (_ & Nb & _).
    destruct base as [[|]|[|]| |[|] mb eb]; try contradiction; cbn [mul];
      try exact I. apply of_Q_canonical. }
  assert (L0 : Below (mul (literal 10) (literal (7 # 10))) P).
  { apply Below_trans with (mul (literal 10) rf).
    - apply (mul_mono_l _ _ _ _ _ literal_10 R0).
    - apply (mul_mono_r _ _ _ _ _ Ef B0). }
  assert (V0 : val (mul (literal 10) (literal (7 # 10))) == 7)
    by (vm_compute; reflexivity).
  assert (F0 : mul (literal 10) (literal (7 # 10))
               = S754_finite false 7881299347898368 (-50))
    by (vm_compute; reflexivity).
  destruct (clamp_round P CP NP) as (n & C1 & C2 & C3).
  exists (Z.max 5 (Z.min 30 n)).
  assert (Hn7 : (7 <= n)%Z).
  { destruct C3 as [[_ ->] | (FP & Ln & Un)]; [lia|].
    destruct (Below_finite _ _ L0 FP) as [_ V]. rewrite V0 in V.
    assert (H : inject_Z 6 < inject_Z n)
      by (change (inject_Z 6) with 6; lra).
    apply Qlt_Zlt in H. lia. }
  split; [lia|]. split; [exact C1|]. split; [exact C2|]. split.
  - intros H658.
    assert (L658 : literal 658 = S754_finite false 5787829208612864 (-43))
      by (vm_compute; reflexivity).
    change (of_Z 658) with (literal 658) in H658.
    pose proof (leb_Below _ _ _ _ L658 H658) as B658.
    set (b1 := add (literal 10) (mul (literal 658) (literal (5 # 100)))).
    assert (Fb1 : b1 = S754_finite false 6037638250443571 (-47))
      by (vm_compute; reflexivity).
    assert (L1 : Below (mul b1 (literal (7 # 10))) P).
    { apply Below_trans with (mul b1 rf).
      - apply (mul_mono_l _ _ _ _ _ Fb1 R0).
      - apply (mul_mono_r _ _ _ _ _ Ef). apply Bc, B658. }
    assert (V1 : 30 + (1 # 2) < val (mul b1 (literal (7 # 10))) + (1 # 2))
      by (vm_compute; reflexivity).
    assert (Hn30 : (30 <= n)%Z).
    { destruct C3 as [[_ ->] | (FP & Ln & Un)]; [lia|].
      destruct (Below_finite _ _ L1 FP) as [_ V].
      assert (H : inject_Z 29 < inject_Z n)
        by (change (inject_Z 29) with 29; lra).
      apply Qlt_Zlt in H. lia. }
    lia.
  - intros Hz. pose proof (Bz Hz) as Eb. subst base.
    assert (L2 : Below P (mul (literal 10)
                            (add (literal (7 # 10)) (literal (6 # 10))))).
    { apply (mul_mono_l _ _ _ _ _ literal_10 R1). }
    assert (F2 : is_finite (mul (literal 10)
                              (add (literal (7 # 10)) (literal (6 # 10))))
                 = true) by (vm_compute; reflexivity).
    assert (V2 : val (mul (literal 10)
                        (add (literal (7 # 10)) (literal (6 # 10))))
                 < 13 + (1 # 4)) by (vm_compute; reflexivity).
    destruct (Below_finite _ _ L2 F2) as [FP VP].
    destruct C3 as [[E _] | (_ & Ln & Un)].
    + change (is_finite P = true) in FP. rewrite E in FP. discriminate FP.
    + assert (H : inject_Z n < inject_Z 14)
        by (change (inject_Z 14) with 14; lra).
      apply Qlt_Zlt in H. lia.
Qed.

Lemma mount_minutes (r : number) :
  transactionMinutes (mount r)
  = calculateTransactionMinutes (literal (218433 # 100)) r.
Proof.
  unfold mount, sendEffect, receiveEffect, resetSendError.
  repeat break_if; cbn [transactionMinutes]; unfold updateTransactionMinutes;
    cbn [sendCurrency receiveCurrency sendAmount receiveAmount initialState];
    replace (max (mul (parseFloat (orZero "1.00")) RATES.ETH_TO_USDT)
               (parseFloat (orZero "2184.33")))
      with (literal (218433 # 100)) by (vm_compute; reflexivity);
    reflexivity.
Qed.

End Estimate.

Import Estimate.

(** X15. For a value that is not negative the estimated time is a whole
    number between 7 and 30: the lower end 5 of the clamp is never
    reached. *)
Theorem estimate_is_at_least_seven :
  forall value random : number,
    leb (of_Z 0) value = true -> isRandom random = true ->
    exists n : Z,
      (7 <= n <= 30)%Z /\
      is_finite (calculateTransactionMinutes value random) = true /\
      (val (calculateTransactionMinutes value random) == inject_Z n)%Q.
Proof.
  intros value random Hv Hr.
  destruct (estimate_bounds value random Hv Hr) as (n & H1 & H2 & H3 & _).
  exists n. repeat split; try assumption; lia.
Qed.

Lemma estimate_is_at_least_seven_witness :
  calculateTransactionMinutes (literal 0) (literal 0) = literal 7 /\
  exists n : Z,
    (7 <= n <= 30)%Z /\
    is_finite (calculateTransactionMinutes (literal 0) (literal 0)) = true /\
    (val (calculateTransactionMinutes (literal 0) (literal 0)) == inject_Z n)%Q.
Proof.
  split; [vm_compute; reflexivity|].
  apply (estimate_is_at_least_seven (literal 0) (literal 0));
    vm_compute; reflexivity.
Defined.

(** X16. For a value of 658 or more the estimated time is 30 minutes,
    whatever the random number; the mounted form, whose amounts are
    worth 2184.33, therefore always starts with 30 minutes and never
    with the 15 of its initial state. *)
Theorem estimate_of_large_value_is_thirty :
  (forall value random : number,
      leb (of_Z 658) value = true -> isRandom random = true ->
      is_finite (calculateTransactionMinutes value random) = true /\
      (val (calculateTransactionMinutes value random) == 30)%Q) /\
  (forall random : number,
      isRandom random = true ->
      is_finite (transactionMinutes (mount random)) = true /\
      (val (transactionMinutes (mount random)) == 30)%Q).
Proof.
  assert (A : forall value random : number,
             leb (of_Z 658) value = true -> isRandom random = true ->
             is_finite (calculateTransactionMinutes value random) = true /\
             (val (calculateTransactionMinutes value random) == 30)%Q).
  { intros value random H658 Hr.
    assert (Hv : leb (of_Z 0) value = true).
    { change (of_Z 658) with (literal 658) in H658.
      assert (L658 : literal 658 = S754_finite false 5787829208612864 (-43))
        by (vm_compute; reflexivity).
      pose proof (leb_Below _ _ _ _ L658 H658) as B.
      apply Below_leb. apply Below_trans with (literal 658); [|exact B].
      change (of_Z 0) with (S754_zero false). apply Below_zero.
      rewrite L658. exact I. }
    destruct (estimate_bounds value random Hv Hr) as (n & _ & H2 & H3 & H4 & _).
    rewrite (H4 H658) in H3. split; [exact H2 | exact H3]. }
  split; [exact A|].
  intros random Hr. rewrite mount_minutes. apply A; [|exact Hr].
  vm_compute. reflexivity.
Qed.

Lemma estimate_of_large_value_is_thirty_witness :
  is_finite (calculateTransactionMinutes (literal 658) (literal 0)) = true /\
  (val (calculateTransactionMinutes (literal 658) (literal 0)) == 30)%Q.
Proof.
  pose proof estimate_of_large_value_is_thirty as T. destruct T as [T _].
  apply (T (literal 658) (literal 0)); vm_compute; reflexivity.
Defined.

(** X17. Emptying a field (also with a text of commas only) empties both
    amounts and clears both errors, so the confirm button is enabled
    unless a confirmation is under way; the estimate is computed for the
    value zero and lies between 7 and 13 minutes. *)
Theorem clearing_a_field_empties_the_form :
  forall (st : State) (v : string) (r : number),
    stripCommas v = "" -> isRandom r = true ->
    forall ev : Event,
      ev = ChangeSend v r \/ ev = ChangeReceive v r ->
      let st' := step st ev in
      sendAmount st' = "" /\ receiveAmount st' = "" /\
      sendError st' = "" /\ receiveError st' = "" /\
      confirmDisabled st' = isLoading st /\
      exists n : Z,
        (7 <= n <= 13)%Z /\
        is_finite (transactionMinutes st') = true /\
        (val (transactionMinutes st') == inject_Z n)%Q.
Proof.
  intros st v r Hv Hr ev Hev st'.
  assert (Z0 : forall c, (match c with
                          | USDT => parseFloat "0"
                          | ETH => mul (parseFloat "0") RATES.ETH_TO_USDT
                          end) = S754_zero false)
    by (intros c; destruct c; vm_compute; reflexivity).
  assert (M : exists n : Z,
             (7 <= n <= 13)%Z /\
             is_finite (calculateTransactionMinutes (S754_zero false) r) = true /\
             (val (calculateTransactionMinutes (S754_zero false) r)
              == inject_Z n)%Q).
  { destruct (estimate_bounds (S754_zero false) r eq_refl Hr)
      as (n & H1 & H2 & H3 & _ & H5).
    exists n. split; [|split; assumption].
    split; [lia|]. apply H5. now exists false. }
  assert (E : st' = handle st ev /\
              transactionMinutes (handle st ev)
              = calculateTransactionMinutes (S754_zero false) r /\
              sendAmount (handle st ev) = "" /\
              receiveAmount (handle st ev) = "" /\
              sendError (handle st ev) = "" /\
              receiveError (handle st ev) = "" /\
              isLoading (handle st ev) = isLoading st).
  { assert (Hh : sendAmount (handle st ev) = "" /\
                 receiveAmount (handle st ev) = "" /\
                 sendError (handle st ev) = "" /\
                 receiveError (handle st ev) = "" /\
                 isLoading (handle st ev) = isLoading st /\
                 transactionMinutes (handle st ev)
                 = calculateTransactionMinutes (S754_zero false) r).
    { destruct Hev as [-> | ->]; cbn [handle].
      - unfold handleSendAmountChange. rewrite Hv.
        change (validateAmount "" (sendCurrency st)) with "".
        unfold trackError. cbn [Str.truthy andb String.eqb negb].
        cbn [sendAmount receiveAmount sendError receiveError isLoading
               transactionMinutes].
        change (calculateExchangeAmount "" (sendCurrency st)
                  (receiveCurrency st)) with "".
        repeat split. unfold updateTransactionMinutes.
        change (orZero "") with "0". rewrite !Z0. reflexivity.
      - unfold handleReceiveAmountChange. rewrite Hv.
        cbn [isNumericInput Str.truthy negb].
        cbn [sendAmount receiveAmount sendError receiveError isLoading
               transactionMinutes].
        repeat split. unfold updateTransactionMinutes.
        change (orZero "0") with "0". rewrite !Z0. reflexivity. }
    destruct Hh as (A1 & A2 & A3 & A4 & A5 & A6).
    repeat split; try assumption.
    unfold st', step, runEffects, sendEffect, receiveEffect.
    rewrite A1, A2. cbn [Str.truthy String.eqb andb].
    repeat break_if; reflexivity. }
  destruct E as (-> & Em & E1 & E2 & E3 & E4 & E5).
  rewrite Em. repeat (split; [assumption|]).
  split; [|exact M].
  unfold confirmDisabled. rewrite E3, E4, E5. reflexivity.
Qed.

Lemma clearing_a_field_empties_the_form_witness :
  sendAmount (step (mount (literal (1 # 2)))
                (ChangeReceive "" (literal (1 # 2)))) = "" /\
  confirmDisabled (step (mount (literal (1 # 2)))
                     (ChangeReceive "" (literal (1 # 2)))) = false.
Proof.
  assert (H1 : stripCommas "" = "") by reflexivity.
  assert (H2 : isRandom (literal (1 # 2)) = true) by (vm_compute; reflexivity).
  pose proof (clearing_a_field_empties_the_form (mount (literal (1 # 2))) ""
                (literal (1 # 2)) H1 H2
                (ChangeReceive "" (literal (1 # 2))) (or_intror eq_refl)) as T.
  cbv zeta in T. destruct T as (T1 & _ & _ & _ & T5 & _).
  split; [exact T1 | rewrite T5; vm_compute; reflexivity].
Defined.

Import Num Conv NumFacts RoundFacts RoundAll Monotone Order StrFacts ConvFacts
  ParseFacts FixedFacts FormatCheck StepFacts.

(** ** Conversions of amounts *)

Module ConvertFacts.
Local Open Scope Q_scope.

Lemma rate_finite (c c' : CurrencyKey) :
  exists m e, rate c c' = S754_finite false m e.
Proof.
  destruct c, c'.
  - exists 4503599627370496%positive, (-52)%Z. vm_compute. reflexivity.
  - exists 4803392467799900%positive, (-41)%Z. vm_compute. reflexivity.
  - exists 8445035353499495%positive, (-64)%Z. vm_compute. reflexivity.
  - exists 4503599627370496%positive, (-52)%Z. vm_compute. reflexivity.
Qed.

Lemma precision_S (c : CurrencyKey) :
  exists p, precision (CURRENCIES c) = S p.
Proof. destruct c; [now exists 3%nat | now exists 1%nat]. Qed.

(** [toFixed] of a number that is not negative and below [10^21]. *)
Lemma toFixed_value (x : number) (p : nat) :
  is_finite x = true -> 0 <= val x -> val x < inject_Z (10 ^ 21) ->
  exists a b : string,
    toFixed x (S p) = a ++ "." ++ b /\
    Str.all Str.is_digit a = true /\ a <> "" /\
    Str.all Str.is_digit b = true /\ String.length b = S p /\
    digits_val (a ++ b)
    = Qfloor (val x * inject_Z (10 ^ Z.of_nat (S p)) + (1 # 2)).
Proof.
  intros Hf H0 H1.
  assert (Hb : Qle_bool (inject_Z (10 ^ 21)) (Qabs (val x)) = false).
  { destruct (Qle_bool _ _) eqn:E; [|reflexivity].
    apply Qle_bool_iff in E. rewrite Qabs_pos in E by assumption. lra. }
  destruct (toFixed_digits x p Hf Hb) as (a & b & E & Ha & Hne & Hbd & Hl & Hv).
  exists a, b. destruct (Qlt_le_dec (val x) 0) as [C | _]; [lra|].
  split; [exact E|]. repeat (split; [assumption|]).
  rewrite Hv. rewrite Qabs_pos by assumption. reflexivity.
Qed.

Lemma fixed_numeric (a b : string) :
  Str.all Str.is_digit a = true -> a <> "" ->
  Str.all Str.is_digit b = true ->
  isNumericInput (a ++ "." ++ b) = true /\ has_digit (a ++ "." ++ b) = true.
Proof.
  intros Ha Hne Hb. split.
  - apply isNumericInput_spec. right. exists a, b. auto.
  - unfold has_digit. rewrite exists_app.
    destruct a as [|c a]; [congruence|]. cbn [Str.all] in Ha.
    apply andb_prop in Ha. destruct Ha as [Hc _].
    cbn [Str.exists_]. now rewrite Hc.
Qed.

Lemma fixed_value (a b : string) :
  Str.all Str.is_digit a = true -> a <> "" ->
  Str.all Str.is_digit b = true -> b <> "" ->
  decimal_value (a ++ "." ++ b)
  == inject_Z (digits_val (a ++ b)) / pow10 (String.length b) /\
  unsigned_value (a ++ "." ++ b)
  == inject_Z (digits_val (a ++ b)) / pow10 (String.length b).
Proof.
  intros Ha Hne Hb Hnb.
  destruct (RoundTrip.parseFloat_fixed a b Ha Hne Hb Hnb) as (_ & E & _).
  split; [exact E|].
  now apply FixedValue.unsigned_value_fixed.
Qed.

Lemma length_nonempty (b : string) (p : nat) :
  String.length b = S p -> b <> "".
Proof. intros H ->. discriminate H. Qed.

(** The number that [calculateExchangeAmount] formats, for an amount
    that passes the format check, has a digit and is at most
    [bound]. *)
Lemma converted_number (a : string) (c c' : CurrencyKey) (bound : Q) :
  isNumericInput a = true -> has_digit a = true ->
  unsigned_value a <= bound ->
  let y := mul (of_Q (unsigned_value a)) (rate c c') in
  Below y (mul (of_Q bound) (rate c c')) /\
  calculateExchangeAmount a c c' = toFixed y (precision (CURRENCIES c')).
Proof.
  intros Hn Hd Hb y.
  destruct (parsed_amount a Hn Hd) as (He & Hf & Hp & H0).
  destruct (rate_finite c c') as (mr & er & Er).
  split.
  - apply (mul_mono_r _ _ _ _ _ Er). now apply of_Q_mono.
  - rewrite (RoundTrip.calculateExchangeAmount_parsed a c c' He).
    + rewrite Hp. reflexivity.
    + rewrite Hp. apply of_Q_not_nan.
Qed.

Lemma large_conversion (c c' : CurrencyKey) :
  is_finite (mul (of_Q (inject_Z (10 ^ 17))) (rate c c')) = true /\
  val (mul (of_Q (inject_Z (10 ^ 17))) (rate c c')) < inject_Z (10 ^ 21).
Proof. destruct c, c'; split; vm_compute; reflexivity. Qed.

Lemma dust_conversion (c : CurrencyKey) :
  is_finite (mul (of_Q (dustLimit c)) (rate c (other c))) = true /\
  val (mul (of_Q (dustLimit c)) (rate c (other c)))
  * inject_Z (10 ^ Z.of_nat (precision (CURRENCIES (other c)))) < 1 # 2.
Proof. destruct c; split; vm_compute; reflexivity. Qed.

Lemma pow10_nonneg (p : nat) : 0 <= inject_Z (10 ^ Z.of_nat p).
Proof.
  change 0 with (inject_Z 0). rewrite <- Zle_Qle. apply Z.pow_nonneg. lia.
Qed.

End ConvertFacts.

Import ConvertFacts.

(** X18. The conversion is monotone: of two amounts that pass the format
    check, have a digit and are at most [10^17], the larger one never
    converts to the smaller result. *)
Theorem conversion_is_monotone :
  forall (a1 a2 : string) (c c' : CurrencyKey),
    isNumericInput a1 = true -> has_digit a1 = true ->
    isNumericInput a2 = true -> has_digit a2 = true ->
    (unsigned_value a1 <= unsigned_value a2)%Q ->
    (unsigned_value a2 <= inject_Z (10 ^ 17))%Q ->
    (decimal_value (calculateExchangeAmount a1 c c')
     <= decimal_value (calculateExchangeAmount a2 c c'))%Q.
Proof.
  intros a1 a2 c c' Hn1 Hd1 Hn2 Hd2 Hle Hb.
  destruct (converted_number a2 c c' _ Hn2 Hd2 Hb) as [B2 E2].
  destruct (converted_number a1 c c' _ Hn1 Hd1 Hle) as [B1 _].
  destruct (converted_number a1 c c' _ Hn1 Hd1 (Qle_refl _)) as [_ E1].
  cbv zeta in *.
  set (y1 := mul (of_Q (unsigned_value a1)) (rate c c')) in *.
  set (y2 := mul (of_Q (unsigned_value a2)) (rate c c')) in *.
  clearbody y1 y2.
  destruct (large_conversion c c') as [FY VY].
  destruct (Below_finite _ _ B2 FY) as [F2 V2].
  destruct (Below_finite _ _ B1 F2) as [F1 V1].
  assert (N1 : (0 <= val y1)%Q) by (apply Nonneg_val; exact (proj1 B1)).
  assert (N2 : (0 <= val y2)%Q) by (apply Nonneg_val; exact (proj1 B2)).
  destruct (precision_S c') as (p & Ep). rewrite E1, E2, Ep.
  destruct (toFixed_value y1 p F1 N1 ltac:(lra))
    as (i1 & f1 & T1 & Hi1 & Hne1 & Hf1 & Hl1 & D1).
  destruct (toFixed_value y2 p F2 N2 ltac:(lra))
    as (i2 & f2 & T2 & Hi2 & Hne2 & Hf2 & Hl2 & D2).
  rewrite T1, T2.
  destruct (fixed_value i1 f1 Hi1 Hne1 Hf1 (length_nonempty _ _ Hl1)) as [-> _].
  destruct (fixed_value i2 f2 Hi2 Hne2 Hf2 (length_nonempty _ _ Hl2)) as [-> _].
  rewrite Hl1, Hl2, D1, D2.
  pose proof (pow10_pos (S p)) as P10.
  apply Qmult_le_compat_r; [|apply Qlt_le_weak, Qinv_lt_0_compat, P10].
  rewrite <- Zle_Qle. apply Qfloor_resp_le.
  pose proof (pow10_nonneg (S p)) as P0.
  assert ((val y1 * inject_Z (10 ^ Z.of_nat (S p))
           <= val y2 * inject_Z (10 ^ Z.of_nat (S p)))%Q)
    by (apply Qmult_le_compat_r; assumption).
  lra.
Qed.

Lemma conversion_is_monotone_witness :
  calculateExchangeAmount "1.5" ETH USDT = "3276.49" /\
  calculateExchangeAmount "1.6" ETH USDT = "3494.93" /\
  (decimal_value (calculateExchangeAmount "1.5" ETH USDT)
   <= decimal_value (calculateExchangeAmount "1.6" ETH USDT))%Q.
Proof.
  split; [vm_compute; reflexivity|]. split; [vm_compute; reflexivity|].
  apply (conversion_is_monotone "1.5" "1.6" ETH USDT);
    try (vm_compute; reflexivity); vm_compute; discriminate.
Defined.

(** X19. An amount of at most 0.000002 ETH or 0.1 USDT converts to a
    receive amount of value zero, and when the edit changes the receive
    field the send field shows the insufficient-balance error of its
    asset, although the amount typed may be far below the balance. *)
Theorem dust_amount_is_reported_insufficient :
  forall (st : State) (v : string) (r : number),
    DistinctPair st ->
    let raw := stripCommas v in
    let converted :=
      calculateExchangeAmount raw (sendCurrency st) (receiveCurrency st) in
    isNumericInput raw = true -> has_digit raw = true ->
    (unsigned_value raw <= dustLimit (sendCurrency st))%Q ->
    converted <> receiveAmount st ->
    let st' := step st (ChangeSend v r) in
    receiveAmount st' = converted /\
    (decimal_value (receiveAmount st') == 0)%Q /\
    sendError st' = insufficientBalance (sendCurrency st).
Proof.
  intros st v r Hd raw converted Hn Hdg Hu Hch st'.
  assert (Er : receiveCurrency st = other (sendCurrency st))
    by (destruct Hd as [[-> ->] | [-> ->]]; reflexivity).
  set (c := sendCurrency st) in *.
  destruct (converted_number raw c (other c) _ Hn Hdg Hu) as [B E].
  cbv zeta in B, E.
  set (y := mul (of_Q (unsigned_value raw)) (rate c (other c))) in *.
  clearbody y.
  destruct (dust_conversion c) as [FY VY].
  destruct (Below_finite _ _ B FY) as [Fy Vy].
  assert (Ny : (0 <= val y)%Q) by (apply Nonneg_val; exact (proj1 B)).
  destruct (precision_S (other c)) as (p & Ep). rewrite Ep in E, VY.
  pose proof (pow10_nonneg (S p)) as P0.
  assert (Hs : (val y * inject_Z (10 ^ Z.of_nat (S p)) < 1 # 2)%Q).
  { apply Qle_lt_trans
      with (val (mul (of_Q (dustLimit c)) (rate c (other c)))
            * inject_Z (10 ^ Z.of_nat (S p)))%Q; [|exact VY].
    apply Qmult_le_compat_r; assumption. }
  assert (Hy21 : (val y < inject_Z (10 ^ 21))%Q).
  { assert (1 <= inject_Z (10 ^ Z.of_nat (S p)))%Q.
    { change 1%Q with (inject_Z 1). rewrite <- Zle_Qle.
      assert (0 < 10 ^ Z.of_nat (S p))%Z by (apply Z.pow_pos_nonneg; lia).
      lia. }
    assert (val y * 1 <= val y * inject_Z (10 ^ Z.of_nat (S p)))%Q.
    { rewrite (Qmult_comm (val y) 1),
        (Qmult_comm (val y) (inject_Z (10 ^ Z.of_nat (S p)))).
      apply Qmult_le_compat_r; assumption. }
    change (inject_Z (10 ^ 21)) with 1000000000000000000000%Q. lra. }
  destruct (toFixed_value y p Fy Ny Hy21)
    as (i & f & T & Hi & Hne & Hf & Hl & D).
  assert (D0 : digits_val (i ++ f) = 0%Z).
  { rewrite D. apply RoundTrip.Qfloor_unique.
    - change (inject_Z 0) with 0%Q.
      assert (0 <= val y * inject_Z (10 ^ Z.of_nat (S p)))%Q
        by (apply Qmult_le_0_compat; assumption).
      lra.
    - change (inject_Z (0 + 1)) with 1%Q. lra. }
  assert (Ec : converted = i ++ "." ++ f).
  { unfold converted. rewrite Er. fold c. rewrite E. exact T. }
  destruct (fixed_value i f Hi Hne Hf (length_nonempty _ _ Hl)) as [Vd Vu].
  destruct (fixed_numeric i f Hi Hne Hf) as [Nc Dc].
  assert (Hz : (unsigned_value converted == 0)%Q).
  { rewrite Ec, Vu, D0. unfold Qdiv. change (inject_Z 0) with 0%Q. ring. }
  assert (Hne' : converted <> "")
    by (rewrite Ec; apply has_digit_nonempty, Dc).
  destruct (send_edit_error st v r) as (_ & R2 & R3); try assumption.
  change (receiveAmount st' = converted) in R2.
  change (sendError st'
          = validateAmount (roundTrip raw c (receiveCurrency st)) c) in R3.
  split; [exact R2|]. split.
  - rewrite R2, Ec, Vd, D0. unfold Qdiv. change (inject_Z 0) with 0%Q. ring.
  - rewrite R3. unfold roundTrip. fold converted.
    assert (Pz : parseFloat converted = S754_zero false).
    { rewrite Ec.
      apply isNumericInput_spec in Nc. destruct Nc as [C | Nf].
      - rewrite <- Ec in C. congruence.
      - rewrite (parseFloat_numeric _ Nf Dc). apply of_Q_zero.
        rewrite <- Ec. exact Hz. }
    rewrite (RoundTrip.calculateExchangeAmount_parsed converted _ _ Hne')
      by (rewrite Pz; reflexivity).
    rewrite Pz, Er. fold c.
    destruct c; vm_compute; reflexivity.
Qed.

Lemma dust_amount_is_reported_insufficient_witness :
  validateAmount "0.05" USDT = "" /\
  receiveAmount (run (mount (literal (1 # 2)))
                   [ClickSwap (literal (1 # 2));
                    ChangeSend "0.05" (literal (1 # 2))]) = "0.0000" /\
  sendError (run (mount (literal (1 # 2)))
               [ClickSwap (literal (1 # 2));
                ChangeSend "0.05" (literal (1 # 2))])
  = "Insufficient USDT balance".
Proof.
  split; [vm_compute; reflexivity|].
  set (st := step (mount (literal (1 # 2))) (ClickSwap (literal (1 # 2)))).
  assert (H0 : DistinctPair st) by (right; split; vm_compute; reflexivity).
  assert (H1 : isNumericInput (stripCommas "0.05") = true)
    by (vm_compute; reflexivity).
  assert (H2 : has_digit (stripCommas "0.05") = true)
    by (vm_compute; reflexivity).
  assert (H3 : (unsigned_value (stripCommas "0.05")
                <= dustLimit (sendCurrency st))%Q)
    by (vm_compute; discriminate).
  assert (H4 : calculateExchangeAmount (stripCommas "0.05") (sendCurrency st)
                 (receiveCurrency st) <> receiveAmount st)
    by (vm_compute; discriminate).
  pose proof (dust_amount_is_reported_insufficient st "0.05"
                (literal (1 # 2)) H0 H1 H2 H3 H4) as T.
  cbv zeta in T. destruct T as (T1 & _ & T3).
  change (run (mount (literal (1 # 2)))
            [ClickSwap (literal (1 # 2)); ChangeSend "0.05" (literal (1 # 2))])
    with (step st (ChangeSend "0.05" (literal (1 # 2)))).
  split; [rewrite T1 | rewrite T3]; vm_compute; reflexivity.
Defined.

Import Num Conv StrFacts FormatFacts FormatCheck StepFacts.

(** ** What the form displays *)

(** X20. An amount that is stored with no more digits after its point
    than the precision of its asset survives the display: when the text
    shown in a field is handed back to the change handler of that field
    unchanged, the amount of the field stays what it was. *)
Theorem displayed_amount_resubmits_unchanged :
  forall (st : State) (r : number),
    (isNumericInput (sendAmount st) = true ->
     (String.length (frac_part (sendAmount st))
      <= precision (CURRENCIES (sendCurrency st)))%nat ->
     sendAmount (step st (ChangeSend (formattedSendAmount st) r))
     = sendAmount st) /\
    (isNumericInput (receiveAmount st) = true ->
     (String.length (frac_part (receiveAmount st))
      <= precision (CURRENCIES (receiveCurrency st)))%nat ->
     receiveAmount (step st (ChangeReceive (formattedReceiveAmount st) r))
     = receiveAmount st).
Proof.
  intros st r. split; intros Hn Hl.
  - pose proof (strip_formatted _ _ Hn Hl) as E.
    fold (formattedSendAmount st) in E.
    destruct (numeric_edit_stores_amount (formattedSendAmount st) st r)
      as [-> _]; [rewrite E; exact Hn | exact E].
  - pose proof (strip_formatted _ _ Hn Hl) as E.
    fold (formattedReceiveAmount st) in E.
    destruct (numeric_edit_stores_amount (formattedReceiveAmount st) st r)
      as [_ ->]; [rewrite E; exact Hn | exact E].
Qed.

Lemma displayed_amount_resubmits_unchanged_witness :
  formattedReceiveAmount (mount (literal (1 # 2))) = "2,184.33" /\
  receiveAmount (step (mount (literal (1 # 2)))
                   (ChangeReceive "2,184.33" (literal (1 # 2)))) = "2184.33".
Proof.
  assert (F : formattedReceiveAmount (mount (literal (1 # 2))) = "2,184.33")
    by (vm_compute; reflexivity).
  split; [exact F|].
  pose proof (displayed_amount_resubmits_unchanged (mount (literal (1 # 2)))
                (literal (1 # 2))) as T.
  destruct T as [_ T]. rewrite F in T. rewrite T.
  - vm_compute; reflexivity.
  - vm_compute; reflexivity.
  - vm_compute. lia.
Defined.

(** X21. The rate that the form displays is the number 2184.33 whichever
    asset is on the send side: computing [1 / RATES.USDT_TO_ETH] gives
    back [RATES.ETH_TO_USDT] exactly, so the inverse rate is never
    shown. *)
Theorem displayed_rate_is_the_same_in_both_directions :
  forall st : State,
    currentRate st = RATES.ETH_TO_USDT /\
    currentRate st = literal (218433 # 100).
Proof.
  intros st. unfold currentRate.
  destruct (sendCurrency st); split; vm_compute; reflexivity.
Qed.

(** X22. After an edit that passes the format check, the estimated time
    is computed from the larger of the two USD equivalents that the form
    then displays. After a swap it is not: the handler runs with the
    assets of the render before the swap, so each of the swapped amounts
    is valued as the asset of the other side. *)
Theorem estimate_follows_displayed_values_except_after_swap :
  forall (st : State) (r : number),
    (forall (v : string) (ev : Event),
        isNumericInput (stripCommas v) = true ->
        ev = ChangeSend v r \/ ev = ChangeReceive v r ->
        let st' := step st ev in
        transactionMinutes st'
        = calculateTransactionMinutes
            (max (sendUsdValue st') (receiveUsdValue st')) r) /\
    (sendError st <> ERROR_MESSAGES.NUMBERS_ONLY ->
     receiveError st <> ERROR_MESSAGES.NUMBERS_ONLY ->
     let st' := step st (ClickSwap r) in
     transactionMinutes st'
     = calculateTransactionMinutes
         (max (usdValue (receiveCurrency st') (sendAmount st'))
              (usdValue (sendCurrency st') (receiveAmount st'))) r).
Proof.
  intros st r. split.
  - intros v ev Hn Hev st'. unfold st', step, sendUsdValue, receiveUsdValue.
    destruct (runEffects_amounts st (handle st ev)) as [-> ->].
    destruct (runEffects_currencies st (handle st ev)) as [-> ->].
    destruct (runEffects_flags st (handle st ev)) as (_ & _ & _ & ->).
    destruct Hev as [-> | ->]; cbn [handle].
    + unfold handleSendAmountChange.
      rewrite (validateAmount_numeric _ (sendCurrency st) Hn).
      destruct (trackError _ _ _ _). cbn [negb].
      cbn [transactionMinutes sendAmount receiveAmount sendCurrency
             receiveCurrency].
      reflexivity.
    + unfold handleReceiveAmountChange. rewrite Hn. cbn [negb].
      destruct (Str.truthy (stripCommas v)) eqn:T.
      * destruct (trackError _ _ _ _).
        cbn [transactionMinutes sendAmount receiveAmount sendCurrency
               receiveCurrency].
        reflexivity.
      * apply truthy_false in T. rewrite T.
        cbn [transactionMinutes sendAmount receiveAmount sendCurrency
               receiveCurrency].
        reflexivity.
  - intros Hs Hr st'. unfold st', step, usdValue.
    destruct (runEffects_amounts st (handle st (ClickSwap r))) as [-> ->].
    destruct (runEffects_currencies st (handle st (ClickSwap r))) as [-> ->].
    destruct (runEffects_flags st (handle st (ClickSwap r))) as (_ & _ & _ & ->).
    cbn [handle]. unfold handleSwap.
    rewrite (not_format_error _ Hs), (not_format_error _ Hr). cbn [orb].
    cbn [transactionMinutes sendAmount receiveAmount sendCurrency
           receiveCurrency].
    reflexivity.
Qed.

(** 0.01 ETH is shown as worth 21.84 USD, and with the random number 0
    its estimate is 8 minutes; after the swap the same two amounts are
    valued as 21.84 ETH, and the estimate is 30 minutes. *)
Lemma estimate_follows_displayed_values_except_after_swap_witness :
  transactionMinutes
    (step (mount (literal 0)) (ChangeSend "0.01" (literal 0))) = literal 8 /\
  transactionMinutes
    (run (mount (literal 0))
       [ChangeSend "0.01" (literal 0); ClickSwap (literal 0)]) = literal 30.
Proof.
  set (st := step (mount (literal 0)) (ChangeSend "0.01" (literal 0))).
  pose proof (estimate_follows_displayed_values_except_after_swap
                (mount (literal 0)) (literal 0)) as T1.
  destruct T1 as [T1 _].
  pose proof (estimate_follows_displayed_values_except_after_swap
                st (literal 0)) as T2.
  destruct T2 as [_ T2].
  split.
  - unfold st. cbv zeta in T1.
    rewrite (T1 "0.01" (ChangeSend "0.01" (literal 0)));
      [vm_compute; reflexivity | vm_compute; reflexivity | left; reflexivity].
  - change (run (mount (literal 0))
              [ChangeSend "0.01" (literal 0); ClickSwap (literal 0)])
      with (step st (ClickSwap (literal 0))).
    cbv zeta in T2.
    rewrite T2; [vm_compute; reflexivity | | ]; vm_compute; discriminate.
Defined.

Import Num Conv NumFacts Monotone Order StrFacts ConvFacts ParseFacts
  FormatCheck StepFacts ConvertFacts.

(** ** Text after a number *)

Module PrefixFacts.

Lemma terminator_cases (c : ascii) :
  is_terminator c = true ->
  Str.is_digit c = false /\ c <> "."%char /\
  Ascii.eqb c "e" = false /\ Ascii.eqb c "E" = false /\
  is_foreign c = true.
Proof.
  unfold is_terminator, is_foreign. intros H. apply negb_true_iff in H.
  repeat (apply orb_false_elim in H; destruct H as [H ?]).
  repeat split; try assumption.
  - intros ->. discriminate.
  - rewrite H.
    match goal with E : Str.is_dot c = false |- _ => rewrite E end.
    reflexivity.
Qed.

Lemma parse_exponent_terminator (c : ascii) (t : string) :
  is_terminator c = true -> parse_exponent (String c t) = 0.
Proof.
  intros H. destruct (terminator_cases c H) as (_ & _ & He & HE & _).
  cbn [parse_exponent]. rewrite He, HE. reflexivity.
Qed.

(** The fractional part that [parse_unsigned] reads when what follows
    the integer part does not start with a period. *)
Lemma no_fraction (c : ascii) (t : string) (ip : string) :
  c <> "."%char ->
  (match String c t with
   | String "." r1' =>
       let '(fp, r2) := Str.span Str.is_digit r1' in
       if Str.truthy ip || Str.truthy fp then (fp, r2)
       else (EmptyString, String c t)
   | _ => (EmptyString, String c t)
   end) = (EmptyString, String c t).
Proof.
  intros H. destruct c as [[] [] [] [] [] [] [] []]; try reflexivity.
  congruence.
Qed.

Lemma parse_unsigned_prefix (a r : string) (c : ascii) (t : string) :
  Str.all Str.is_digit a = true ->
  (r = "" \/ exists b, r = String "." b /\ Str.all Str.is_digit b = true) ->
  has_digit (a ++ r) = true ->
  is_terminator c = true ->
  parse_unsigned ((a ++ r) ++ String c t) = parse_unsigned (a ++ r).
Proof.
  intros Ha Hr Hd Hc.
  destruct (terminator_cases c Hc) as (Hcd & Hcn & _ & _ & _).
  pose proof (parse_exponent_terminator c t Hc) as Hexp.
  assert (Hps : plain_start (a ++ r)).
  { destruct a as [|x a]; cbn in *.
    - destruct Hr as [-> | (b & -> & _)]; [discriminate Hd | now right].
    - apply andb_prop in Ha as [Hx _]. auto. }
  assert (Hps' : plain_start ((a ++ r) ++ String c t)).
  { destruct (a ++ r) as [|x s]; [discriminate Hd | exact Hps]. }
  assert (Hspan : Str.span Str.is_digit (a ++ r) = (a, r)).
  { apply span_all_app; [assumption|].
    destruct Hr as [-> | (b & -> & _)]; [exact I | reflexivity]. }
  assert (Hspan' : Str.span Str.is_digit ((a ++ r) ++ String c t)
                   = (a, r ++ String c t)).
  { rewrite append_assoc. apply span_all_app; [assumption|].
    destruct Hr as [-> | (b & -> & _)]; [exact Hcd | reflexivity]. }
  unfold parse_unsigned.
  rewrite (strip_Infinity_plain _ Hps), (strip_Infinity_plain _ Hps').
  rewrite Hspan, Hspan'.
  destruct Hr as [-> | (b & -> & Hb)].
  - cbn [append]. rewrite (no_fraction c t a Hcn).
    rewrite Hexp. reflexivity.
  - cbn [append].
    assert (Hsb : Str.span Str.is_digit b = (b, "")).
    { rewrite <- (append_nil_r b) at 1. now apply span_all_app. }
    assert (Hsb' : Str.span Str.is_digit (b ++ String c t) = (b, String c t)).
    { now apply span_all_app. }
    rewrite Hsb, Hsb'.
    assert (Ht : Str.truthy a || Str.truthy b = true).
    { unfold has_digit in Hd. rewrite exists_app in Hd. cbn in Hd.
      destruct a; [|reflexivity]. destruct b; [discriminate | reflexivity]. }
    rewrite Ht. rewrite Hexp. reflexivity.
Qed.

Lemma parseFloat_prefix (s : string) (c : ascii) (t : string) :
  NumericFormat s -> has_digit s = true -> is_terminator c = true ->
  parseFloat (s ++ String c t) = parseFloat s.
Proof.
  intros Hf Hd Hc.
  pose proof (NumericFormat_plain s Hf) as Hps.
  assert (Hps' : plain_start (s ++ String c t)).
  { destruct s as [|x s]; [discriminate Hd | exact Hps]. }
  rewrite (parseFloat_plain _ Hps), (parseFloat_plain _ Hps').
  destruct (NumericFormat_split s Hf) as (a & r & -> & Ha & Hr).
  now rewrite parse_unsigned_prefix.
Qed.

End PrefixFacts.

Import PrefixFacts.

(** X23. [isWithinBalance] reads only the number a text starts with:
    text appended to an amount that holds a digit, starting with a
    character that cannot continue the number, does not change its
    answer, although [isNumericInput] rejects the longer text. The
    balance check alone therefore does not validate the format;
    [validateAmount] calls the format check first. *)
Theorem isWithinBalance_reads_numeric_prefix :
  forall (s : string) (c : ascii) (t : string) (maxBalance : number),
    isNumericInput s = true -> has_digit s = true ->
    is_terminator c = true ->
    isWithinBalance (s ++ String c t) maxBalance
    = isWithinBalance s maxBalance /\
    isNumericInput (s ++ String c t) = false.
Proof.
  intros s c t b Hn Hd Hc.
  destruct (parsed_amount s Hn Hd) as (He & Hf & _ & _).
  split.
  - unfold isWithinBalance. rewrite (parseFloat_prefix s c t Hf Hd Hc).
    destruct s as [|x s]; [congruence | reflexivity].
  - destruct (isNumericInput (s ++ String c t)) eqn:E; [|reflexivity].
    apply isNumericInput_chars in E. destruct E as [E _].
    rewrite exists_app in E. cbn [Str.exists_] in E.
    destruct (terminator_cases c Hc) as (_ & _ & _ & _ & Fc).
    rewrite Fc in E. rewrite orb_true_r in E. discriminate E.
Qed.

Lemma isWithinBalance_reads_numeric_prefix_witness :
  isWithinBalance "1.5 ETH" (literal (298 # 100)) = true /\
  isNumericInput "1.5 ETH" = false.
Proof.
  assert (H1 : isNumericInput "1.5" = true) by (vm_compute; reflexivity).
  assert (H2 : has_digit "1.5" = true) by (vm_compute; reflexivity).
  assert (H3 : is_terminator " " = true) by (vm_compute; reflexivity).
  destruct (isWithinBalance_reads_numeric_prefix "1.5" " " "ETH"
              (literal (298 # 100)) H1 H2 H3) as [T1 T2].
  split; [|exact T2].
  change ("1.5 ETH") with ("1.5" ++ String " " "ETH"). rewrite T1.
  vm_compute. reflexivity.
Defined.

(** ** Converted amounts and the format check *)

Lemma converted_is_numeric (a : string) (c c' : CurrencyKey) :
  isNumericInput a = true -> has_digit a = true ->
  (unsigned_value a <= inject_Z (10 ^ 17))%Q ->
  isNumericInput (calculateExchangeAmount a c c') = true /\
  has_digit (calculateExchangeAmount a c c') = true.
Proof.
  intros Hn Hd Hb.
  destruct (converted_number a c c' _ Hn Hd Hb) as [B E]. cbv zeta in B, E.
  set (y := mul (of_Q (unsigned_value a)) (rate c c')) in *. clearbody y.
  destruct (large_conversion c c') as [FY VY].
  destruct (Below_finite _ _ B FY) as [F V].
  assert (N : (0 <= val y)%Q) by (apply Nonneg_val; exact (proj1 B)).
  destruct (precision_S c') as (p & Ep). rewrite E, Ep.
  destruct (toFixed_value y p F N ltac:(lra))
    as (i & f & T & Hi & Hne & Hf & _ & _).
  rewrite T. now apply fixed_numeric.
Qed.

(** X24. The conversion of an amount that passes the format check, holds
    a digit and is at most [10^17] passes the format check again. That
    is not so for every amount: a receive amount of [10^25] USDT, typed
    with digits only, converts to a send amount in exponent notation,
    and the send field shows the "numbers only" error. *)
Theorem conversion_output_passes_format_check_below_limit :
  (forall (a : string) (c c' : CurrencyKey),
      isNumericInput a = true -> has_digit a = true ->
      (unsigned_value a <= inject_Z (10 ^ 17))%Q ->
      isNumericInput (calculateExchangeAmount a c c') = true /\
      validateAmount (calculateExchangeAmount a c c') c
      <> ERROR_MESSAGES.NUMBERS_ONLY) /\
  (forall (st : State) (r : number),
      sendCurrency st = ETH -> receiveCurrency st = USDT ->
      let st' := step st (ChangeReceive "10000000000000000000000000" r) in
      sendAmount st' = "4.5780628384905214e+21" /\
      sendError st' = ERROR_MESSAGES.NUMBERS_ONLY /\
      receiveError st' = "").
Proof.
  split.
  - intros a c c' Hn Hd Hb.
    destruct (converted_is_numeric a c c' Hn Hd Hb) as [N _].
    split; [exact N|]. intros C.
    apply validateAmount_NUMBERS_ONLY in C. congruence.
  - intros st r Hs Hr st'.
    assert (H1 : isNumericInput (stripCommas "10000000000000000000000000")
                 = true) by (vm_compute; reflexivity).
    assert (H2 : stripCommas "10000000000000000000000000" <> "")
      by (vm_compute; discriminate).
    destruct (receive_edit_result st "10000000000000000000000000" r H1 H2)
      as (_ & T2 & T3 & T4).
    fold st' in T2, T3, T4. rewrite Hs, Hr in T2.
    assert (E : calculateExchangeAmount
                  (stripCommas "10000000000000000000000000") USDT ETH
                = "4.5780628384905214e+21") by (vm_compute; reflexivity).
    rewrite E in T2.
    split; [exact T2|]. split; [|exact T4].
    rewrite T3, T2. apply validateAmount_NUMBERS_ONLY.
    vm_compute. reflexivity.
Qed.

Lemma conversion_output_passes_format_check_below_limit_witness :
  isNumericInput (calculateExchangeAmount "123.45" USDT ETH) = true /\
  sendError (step (mount (literal 0))
               (ChangeReceive "10000000000000000000000000" (literal 0)))
  = "Please enter numbers only".
Proof.
  pose proof conversion_output_passes_format_check_below_limit as T.
  destruct T as [T1 T2]. split.
  - apply (T1 "123.45" USDT ETH); try (vm_compute; reflexivity).
    vm_compute. discriminate.
  - apply (T2 (mount (literal 0)) (literal 0)); vm_compute; reflexivity.
Defined.

(** ** The send error after a swap *)

(** X25. After a swap that is not blocked, the error shown for the send
    field is the validation of the conversion of the amount that the
    swap moved to the receive side (the effect on the receive amount
    overrides the handler, which validated the new send amount), unless
    that amount is empty or the amounts are those of the first render. *)
Theorem swap_error_follows_converted_amount :
  forall (st : State) (r : number),
    DistinctPair st ->
    sendError st <> ERROR_MESSAGES.NUMBERS_ONLY ->
    receiveError st <> ERROR_MESSAGES.NUMBERS_ONLY ->
    sendAmount st <> "" ->
    ~ (sendAmount st = "2184.33" /\ receiveAmount st = "1.00") ->
    let st' := step st (ClickSwap r) in
    sendAmount st' = receiveAmount st /\
    sendCurrency st' = receiveCurrency st /\
    sendError st'
    = validateAmount
        (calculateExchangeAmount (sendAmount st) (sendCurrency st)
           (receiveCurrency st))
        (receiveCurrency st).
Proof.
  intros st r Hd Hs Hr Hne Hni st'.
  assert (Hh : handle st (ClickSwap r)
               = {| sendAmount := receiveAmount st;
                    receiveAmount := sendAmount st;
                    sendCurrency := receiveCurrency st;
                    receiveCurrency := sendCurrency st;
                    sendError :=
                      validateAmount (receiveAmount st) (receiveCurrency st);
                    receiveError := "";
                    focused := focused st;
                    transactionMinutes :=
                      updateTransactionMinutes st (receiveAmount st)
                        (sendAmount st) r;
                    isLoading := isLoading st;
                    isSuccess := isSuccess st;
                    sendErrorCount := sendErrorCount st;
                    receiveErrorCount := receiveErrorCount st;
                    shakeSendError := shakeSendError st;
                    shakeReceiveError := shakeReceiveError st;
                    prevSendErrorRef := prevSendErrorRef st;
                    prevReceiveErrorRef := prevReceiveErrorRef st |}).
  { cbn [handle]. unfold handleSwap.
    rewrite (not_format_error _ Hs), (not_format_error _ Hr). reflexivity. }
  unfold st', step. rewrite Hh. clear Hh st'.
  set (next := {| sendAmount := receiveAmount st |}).
  destruct (runEffects_amounts st next) as [-> _].
  destruct (runEffects_currencies st next) as [-> _].
  split; [reflexivity|]. split; [reflexivity|].
  unfold runEffects.
  rewrite (sendEffect_validated next next) by reflexivity.
  assert (Hch : negb (CurrencyKey_eqb (sendCurrency st) (sendCurrency next))
                = true).
  { cbn [sendCurrency next].
    destruct Hd as [[-> ->] | [-> ->]]; reflexivity. }
  rewrite Hch, !orb_true_r.
  unfold receiveEffect.
  cbn [receiveAmount sendAmount receiveCurrency sendCurrency sendError next].
  apply truthy_true in Hne. rewrite Hne.
  assert (Hi : String.eqb (sendAmount st) "2184.33"
               && String.eqb (receiveAmount st) "1.00" = false).
  { destruct (String.eqb_spec (sendAmount st) "2184.33") as [E1 | N1];
      [|reflexivity].
    destruct (String.eqb_spec (receiveAmount st) "1.00") as [E2 | N2];
      [|reflexivity].
    exfalso. apply Hni. now split. }
  rewrite Hi.
  set (ne := validateAmount
               (calculateExchangeAmount (sendAmount st) (sendCurrency st)
                  (receiveCurrency st)) (receiveCurrency st)).
  destruct (String.eqb ne
              (validateAmount (receiveAmount st) (receiveCurrency st))) eqn:Heq;
    cbn [negb].
  - apply String.eqb_eq in Heq. rewrite Heq. reflexivity.
  - reflexivity.
Qed.

(** From the mount: 10000 typed in the receive field needs 4.5781 ETH;
    after the swap the send field holds 10000 USDT, the whole balance,
    and still shows the insufficient-balance error, because 4.5781 ETH
    converts to 10000.08 USDT. *)
Lemma swap_error_follows_converted_amount_witness :
  sendAmount (run (mount (literal 0))
                [ChangeReceive "10000" (literal 0); ClickSwap (literal 0)])
  = "10000" /\
  validateAmount "10000" USDT = "" /\
  sendError (run (mount (literal 0))
               [ChangeReceive "10000" (literal 0); ClickSwap (literal 0)])
  = "Insufficient USDT balance".
Proof.
  set (st := step (mount (literal 0)) (ChangeReceive "10000" (literal 0))).
  assert (H0 : DistinctPair st) by (left; split; vm_compute; reflexivity).
  assert (H1 : sendError st <> ERROR_MESSAGES.NUMBERS_ONLY)
    by (vm_compute; discriminate).
  assert (H2 : receiveError st <> ERROR_MESSAGES.NUMBERS_ONLY)
    by (vm_compute; discriminate).
  assert (H3 : sendAmount st <> "") by (vm_compute; discriminate).
  assert (H4 : ~ (sendAmount st = "2184.33" /\ receiveAmount st = "1.00")).
  { intros [E _]. vm_compute in E. discriminate E. }
  pose proof (swap_error_follows_converted_amount st (literal 0)
                H0 H1 H2 H3 H4) as T.
  cbv zeta in T. destruct T as (T1 & _ & T3).
  change (run (mount (literal 0))
            [ChangeReceive "10000" (literal 0); ClickSwap (literal 0)])
    with (step st (ClickSwap (literal 0))).
  split; [rewrite T1; vm_compute; reflexivity|].
  split; [vm_compute; reflexivity|].
  rewrite T3. vm_compute. reflexivity.
Defined.

Import Num Conv NumFacts RoundFacts Monotone Order StrFacts ConvFacts ParseFacts
  FormatCheck ConvertFacts.

(** ** The earlier component *)

Module LegacyFacts.
Local Open Scope Q_scope.

Lemma ethPrice_eq :
  Legacy.ethPrice = S754_finite false 4803392467799900 (-41).
Proof. vm_compute. reflexivity. Qed.

Lemma usdtToEthRate_eq :
  Legacy.usdtToEthRate = S754_finite false 8485502273906394 (-64).
Proof. vm_compute. reflexivity. Qed.

Lemma val_ethPrice :
  val Legacy.ethPrice == 4803392467799900 # 2199023255552.
Proof. vm_compute. reflexivity. Qed.

Lemma val_usdtToEthRate :
  val Legacy.usdtToEthRate == 8485502273906394 # 18446744073709551616.
Proof. vm_compute. reflexivity. Qed.

(** The four roundings and the two formattings of the way there and
    back, for an amount between 0.011 and 2.98. *)
Lemma there_and_back (U X0 Y N1 X1 Zv N2 : Q) :
  11 # 1000 <= U -> U <= 298 # 100 ->
  U - U * (1 # 9007199254740992) <= X0 ->
  X0 * (4803392467799900 # 2199023255552)
  - X0 * (4803392467799900 # 2199023255552) * (1 # 9007199254740992) <= Y ->
  Y * 10000 + (1 # 2) < N1 + 1 ->
  N1 * (1 # 10000) - N1 * (1 # 10000) * (1 # 9007199254740992) <= X1 ->
  X1 * (8485502273906394 # 18446744073709551616)
  - X1 * (8485502273906394 # 18446744073709551616)
    * (1 # 9007199254740992) <= Zv ->
  Zv * 10000 + (1 # 2) < N2 + 1 ->
  U < N2 * (1 # 10000).
Proof. intros. lra. Qed.

Lemma floor_bounds (x : Q) :
  inject_Z (Qfloor x) <= x /\ x < inject_Z (Qfloor x) + 1.
Proof.
  split; [apply Qfloor_le|].
  pose proof (Qlt_floor x) as H. rewrite inject_Z_plus in H. exact H.
Qed.

Lemma within_legacy_balance (v : string) :
  isNumericInput v = true -> has_digit v = true ->
  11 # 1000 <= unsigned_value v -> unsigned_value v <= 298 # 100 ->
  isWithinBalance v Legacy.maxEthBalance = true.
Proof.
  intros Hn Hd Hlo Hhi.
  destruct (balance_decimal v ETH Hn Hd) as [A _].
  assert (Hp : pow2 (- 1074) <= unsigned_value v).
  { apply Qle_trans with (pow2 (- 7)); [apply pow2_le; lia|].
    change (pow2 (- 7)) with (1 # 128). lra. }
  specialize (A Hp Hhi).
  rewrite (validateAmount_within v ETH Hn (has_digit_nonempty v Hd)) in A.
  change Legacy.maxEthBalance with (balance (CURRENCIES ETH)).
  destruct (isWithinBalance v (balance (CURRENCIES ETH)));
    [reflexivity | discriminate A].
Qed.

(** A number formatted with four digits and parsed again. *)
Lemma formatted_and_parsed (y : number) :
  is_finite y = true -> 1 <= val y -> val y <= 1000000 ->
  exists (r : string) (n : Z),
    toFixed y 4 = r /\ r <> "" /\ isNumericInput r = true /\
    Str.truthy r = true /\
    decimal_value r == inject_Z n * (1 # 10000) /\
    parseFloat r = of_Q (inject_Z n * (1 # 10000)) /\
    inject_Z n <= val y * 10000 + (1 # 2) /\
    val y * 10000 + (1 # 2) < inject_Z n + 1.
Proof.
  intros F L U.
  destruct (toFixed_value y 3 F ltac:(lra))
    as (i & f & T & Hi & Hne & Hf & Hl & D).
  { change (inject_Z (10 ^ 21)) with 1000000000000000000000. lra. }
  change (inject_Z (10 ^ Z.of_nat 4)) with 10000 in D.
  exists (i ++ "." ++ f), (digits_val (i ++ f)).
  destruct (fixed_numeric i f Hi Hne Hf) as [Nn Nd].
  destruct (fixed_value i f Hi Hne Hf (length_nonempty _ _ Hl)) as [Vd _].
  destruct (RoundTrip.parseFloat_fixed i f Hi Hne Hf (length_nonempty _ _ Hl))
    as (Pf & _ & Pne).
  rewrite Hl in Vd, Pf. change (pow10 4) with 10000 in Vd, Pf.
  destruct (floor_bounds (val y * 10000 + (1 # 2))) as [F1 F2].
  rewrite <- D in F1, F2.
  split; [exact T|]. split; [exact Pne|]. split; [exact Nn|].
  split; [apply truthy_true; exact Pne|].
  split; [rewrite Vd; unfold Qdiv; reflexivity|].
  split; [|split; assumption].
  rewrite Pf. apply of_Q_compat. unfold Qdiv. reflexivity.
Qed.

End LegacyFacts.

Import LegacyFacts.

(** X26. In the earlier component the two rates are not inverse to each
    other (2184.33 times 0.00046 is about 1.0048): an amount between
    0.011 and 2.98 typed in the send field is accepted and converted,
    and when the receive amount this produced is typed in the receive
    field, the send amount that comes back is strictly larger than the
    one that was typed. *)
Theorem legacy_round_trip_inflates :
  forall (st : Legacy.State) (v : string),
    isNumericInput v = true -> has_digit v = true ->
    (11 # 1000 <= unsigned_value v)%Q -> (unsigned_value v <= 298 # 100)%Q ->
    let st1 := Legacy.handleSendAmountChange st v in
    let st2 := Legacy.handleReceiveAmountChange st1 (Legacy.receiveAmount st1) in
    Legacy.sendAmount st1 = v /\ Legacy.sendError st1 = "" /\
    (unsigned_value v < decimal_value (Legacy.sendAmount st2))%Q.
Proof.
  intros st v Hn Hd Hlo Hhi st1 st2.
  destruct (parsed_amount v Hn Hd) as (He & Hf & Hp & H0).
  pose proof (within_legacy_balance v Hn Hd Hlo Hhi) as Hw.
  set (u := unsigned_value v) in *.
  (* the parsed amount *)
  destruct (RoundTrip.of_Q_bounds u) as (m0 & e0 & E0 & L0 & U0);
    [lra | change (inject_Z (10 ^ 20)) with 100000000000000000000%Q; lra |].
  (* times the price *)
  pose proof val_ethPrice as VP. pose proof val_usdtToEthRate as VK.
  set (y := mul (of_Q u) Legacy.ethPrice).
  assert (Ey : y = of_Q (val (of_Q u) * val Legacy.ethPrice))
    by (apply (RoundTrip.mul_finite _ _ _ _ _ _ E0 ethPrice_eq)).
  destruct (RoundTrip.of_Q_bounds (val (of_Q u) * val Legacy.ethPrice))
    as (m1 & e1 & E1 & L1 & U1);
    [rewrite VP; lra
    | rewrite VP; change (inject_Z (10 ^ 20)) with 100000000000000000000%Q; lra
    |].
  rewrite <- Ey in E1, L1, U1. rewrite VP in L1, U1.
  destruct (formatted_and_parsed y) as (r & n1 & Tr & Rne & Rn & Rt & _ & Rp & F1 & F2);
    [rewrite E1; reflexivity | lra | lra |].
  (* the receive amount, typed again *)
  assert (E1' : Legacy.receiveAmount st1 = r /\ Legacy.sendAmount st1 = v /\
                Legacy.sendError st1 = "").
  { unfold st1, Legacy.handleSendAmountChange. rewrite Hn, Hw.
    apply truthy_true in He. rewrite He. cbn [negb andb].
    cbn [Legacy.receiveAmount Legacy.sendAmount Legacy.sendError].
    rewrite Hp. fold y. rewrite Tr. auto. }
  destruct E1' as (Er & Es & Ee).
  split; [exact Es|]. split; [exact Ee|].
  unfold st2. rewrite Er. unfold Legacy.handleReceiveAmountChange.
  rewrite Rn, Rt. cbn [negb Legacy.sendAmount]. rewrite Rp.
  set (q1 := (inject_Z n1 * (1 # 10000))%Q) in *.
  destruct (RoundTrip.of_Q_bounds q1) as (m2 & e2 & E2 & L2 & U2);
    [unfold q1; lra
    | unfold q1; change (inject_Z (10 ^ 20)) with 100000000000000000000%Q; lra
    |].
  set (z := mul (of_Q q1) Legacy.usdtToEthRate).
  assert (Ez : z = of_Q (val (of_Q q1) * val Legacy.usdtToEthRate))
    by (apply (RoundTrip.mul_finite _ _ _ _ _ _ E2 usdtToEthRate_eq)).
  destruct (RoundTrip.of_Q_bounds (val (of_Q q1) * val Legacy.usdtToEthRate))
    as (m3 & e3 & E3 & L3 & U3);
    [unfold q1 in *; rewrite VK; lra
    | unfold q1 in *; rewrite VK;
      change (inject_Z (10 ^ 20)) with 100000000000000000000%Q; lra
    |].
  rewrite <- Ez in E3, L3, U3. rewrite VK in L3, U3.
  assert (Fz : is_finite z = true) by (rewrite E3; reflexivity).
  assert (Nz : (0 <= val z)%Q) by (unfold q1 in *; lra).
  destruct (toFixed_value z 3 Fz Nz) as (i & f & T & Hi & Hne & Hfd & Hl & D).
  { unfold q1 in *.
    change (inject_Z (10 ^ 21)) with 1000000000000000000000%Q. lra. }
  change (inject_Z (10 ^ Z.of_nat 4)) with 10000%Q in D.
  rewrite T.
  destruct (fixed_value i f Hi Hne Hfd (length_nonempty _ _ Hl)) as [Vd _].
  rewrite Vd, Hl, D. change (pow10 4) with 10000%Q.
  destruct (floor_bounds (val z * 10000 + (1 # 2))) as [_ G2].
  set (N2 := inject_Z (Qfloor (val z * 10000 + (1 # 2)))) in *.
  assert (R : (u < N2 * (1 # 10000))%Q).
  { apply (there_and_back u (val (of_Q u)) (val y) (inject_Z n1)
             (val (of_Q q1)) (val z) N2); assumption. }
  unfold Qdiv. exact R.
Qed.

Lemma legacy_round_trip_inflates_witness :
  Legacy.receiveAmount (Legacy.handleSendAmountChange Legacy.initialState "2.98")
  = "6509.3034" /\
  Legacy.sendAmount
    (Legacy.handleReceiveAmountChange
       (Legacy.handleSendAmountChange Legacy.initialState "2.98") "6509.3034")
  = "2.9943" /\
  (unsigned_value "2.98"
   < decimal_value
       (Legacy.sendAmount
          (Legacy.handleReceiveAmountChange
             (Legacy.handleSendAmountChange Legacy.initialState "2.98")
             (Legacy.receiveAmount
                (Legacy.handleSendAmountChange Legacy.initialState "2.98")))))%Q.
Proof.
  split; [vm_compute; reflexivity|]. split; [vm_compute; reflexivity|].
  apply (legacy_round_trip_inflates Legacy.initialState "2.98");
    try (vm_compute; reflexivity); vm_compute; discriminate.
Defined.

(** X27. In the earlier component a receive text that passes the format
    check without holding a digit (a lone period) puts the text "NaN" in
    the send field, with the insufficient-balance error; the later
    component converts the same text to the empty string. *)
Theorem legacy_receive_without_digit_shows_NaN :
  forall (st : Legacy.State) (v : string),
    isNumericInput v = true -> v <> "" -> has_digit v = false ->
    let st' := Legacy.handleReceiveAmountChange st v in
    Legacy.sendAmount st' = "NaN" /\
    Legacy.sendError st' = ERROR_MESSAGES.INSUFFICIENT_ETH /\
    Legacy.receiveAmount st' = v /\ Legacy.receiveError st' = "" /\
    forall c c' : CurrencyKey, calculateExchangeAmount v c c' = "".
Proof.
  intros st v Hn He Hd st'.
  assert (Hp : parseFloat v = NaN).
  { apply isNumericInput_spec in Hn. destruct Hn as [-> | Hf]; [congruence|].
    now apply parseFloat_no_digit. }
  apply truthy_true in He.
  unfold st', Legacy.handleReceiveAmountChange. rewrite Hn, He. cbn [negb].
  cbn [Legacy.sendAmount Legacy.sendError Legacy.receiveAmount
         Legacy.receiveError].
  rewrite Hp.
  split; [reflexivity|]. split; [reflexivity|]. split; [reflexivity|].
  split; [reflexivity|].
  intros c c'. unfold calculateExchangeAmount. rewrite He, Hp. reflexivity.
Qed.

Lemma legacy_receive_without_digit_shows_NaN_witness :
  Legacy.sendAmount (Legacy.handleReceiveAmountChange Legacy.initialState ".")
  = "NaN".
Proof.
  apply (legacy_receive_without_digit_shows_NaN Legacy.initialState ".");
    [vm_compute; reflexivity | discriminate | vm_compute; reflexivity].
Defined.

(** X28. In every reachable state of the earlier component each side
    shows the icon of the currency it names, and the two sides name the
    two different currencies. *)
Theorem legacy_icons_follow_currencies :
  forall st : Legacy.State, Legacy.Reachable st -> LegacyPaired st.
Proof.
  induction 1 as [|st ev _ IH _].
  - left. repeat split; reflexivity.
  - destruct ev; cbn [Legacy.step].
    + unfold Legacy.handleSendAmountChange.
      repeat break_if; exact IH.
    + unfold Legacy.handleReceiveAmountChange.
      repeat break_if; exact IH.
    + unfold Legacy.handleSwap. break_if; [exact IH|].
      destruct IH as [(A & B & C & D) | (A & B & C & D)]; [right | left];
        repeat split; assumption.
    + exact IH.
Qed.

Lemma legacy_icons_follow_currencies_witness :
  Legacy.Reachable (Legacy.step Legacy.initialState Legacy.ClickSwap) /\
  LegacyPaired (Legacy.step Legacy.initialState Legacy.ClickSwap).
Proof.
  assert (R : Legacy.Reachable (Legacy.step Legacy.initialState Legacy.ClickSwap))
    by (apply Legacy.ReachStep; [apply Legacy.ReachInit | reflexivity]).
  split; [exact R | exact (legacy_icons_follow_currencies _ R)].
Defined.

Import Num Conv NumFacts Minutes StepFacts.

(** ** Every estimate that is shown *)

Lemma EstimateShown_calculated (value r : number) :
  isRandom r = true -> EstimateShown (calculateTransactionMinutes value r).
Proof.
  intros Hr. destruct (isNaN value) eqn:E.
  - left. destruct value; try discriminate E.
    change S754_nan with NaN. rewrite calculateTransactionMinutes_nan.
    reflexivity.
  - right. exact (calculateTransactionMinutes_integral value r E Hr).
Qed.

Lemma EstimateShown_mount (r : number) :
  isRandom r = true -> EstimateShown (transactionMinutes (mount r)).
Proof.
  intros Hr.
  assert (E : transactionMinutes (mount r)
              = updateTransactionMinutes initialState "1.00" "2184.33" r).
  { unfold mount, sendEffect, receiveEffect, resetSendError.
    repeat break_if; reflexivity. }
  rewrite E. now apply EstimateShown_calculated.
Qed.

(** X29. In every reachable state the estimated time is NaN or a whole
    number between 5 and 30: the 15 of the initial state is replaced at
    the mount, and every later value comes from
    [calculateTransactionMinutes]. *)
Theorem every_estimate_is_NaN_or_whole_in_range :
  forall st : State, Reachable st -> EstimateShown (transactionMinutes st).
Proof.
  induction 1 as [r Hr | st ev _ IH Hen].
  - now apply EstimateShown_mount.
  - unfold step.
    destruct (runEffects_flags st (handle st ev)) as (_ & _ & _ & ->).
    destruct ev; cbn [enabled] in Hen; cbn [handle];
      try (apply andb_prop in Hen; destruct Hen as [_ Hr]);
      unfold handleSendAmountChange, handleReceiveAmountChange, handleSwap,
        handleConfirm, confirmTimeout, handleNewExchange, setFocused,
        shakeTimeout;
      repeat break_if; cbn [transactionMinutes]; try exact IH;
      unfold updateTransactionMinutes; now apply EstimateShown_calculated.
Qed.

Lemma every_estimate_is_NaN_or_whole_in_range_witness :
  Reachable (step (mount (literal 0)) (ChangeSend "." (literal 0))) /\
  isNaN (transactionMinutes
           (step (mount (literal 0)) (ChangeSend "." (literal 0)))) = true /\
  EstimateShown
    (transactionMinutes (step (mount (literal 0)) (ChangeSend "." (literal 0)))).
Proof.
  assert (R : Reachable (step (mount (literal 0)) (ChangeSend "." (literal 0)))).
  { apply ReachStep; [apply ReachMount|]; vm_compute; reflexivity. }
  split; [exact R|]. split; [vm_compute; reflexivity|].
  exact (every_estimate_is_NaN_or_whole_in_range _ R).
Defined.

Import Num Conv NumFacts RoundAll Minutes StepFacts FormatCheck Monotone Order Estimate.

(** ** A click on the swap button *)

Module SwapFacts.

(** What [handleSwap] hands to the next render. *)
Lemma handleSwap_blocked (st : State) (r : number) :
  sendError st = ERROR_MESSAGES.NUMBERS_ONLY \/
  receiveError st = ERROR_MESSAGES.NUMBERS_ONLY ->
  handleSwap st r = st.
Proof.
  unfold handleSwap. intros [E | E]; rewrite E; [reflexivity|].
  rewrite orb_true_r. reflexivity.
Qed.

Lemma handleSwap_fields (st : State) (r : number) :
  sendError st <> ERROR_MESSAGES.NUMBERS_ONLY ->
  receiveError st <> ERROR_MESSAGES.NUMBERS_ONLY ->
  sendAmount (handleSwap st r) = receiveAmount st /\
  sendCurrency (handleSwap st r) = receiveCurrency st /\
  receiveAmount (handleSwap st r) = sendAmount st /\
  receiveCurrency (handleSwap st r) = sendCurrency st /\
  sendError (handleSwap st r)
  = validateAmount (receiveAmount st) (receiveCurrency st) /\
  receiveError (handleSwap st r) = "" /\
  transactionMinutes (handleSwap st r)
  = updateTransactionMinutes st (receiveAmount st) (sendAmount st) r.
Proof.
  intros Hs Hr. apply String.eqb_neq in Hs, Hr. unfold handleSwap.
  rewrite Hs, Hr. cbn. repeat split.
Qed.

(** An upper bound of the estimate, from the largest random factor. *)
Lemma estimate_at_most (value random : number) (mb : positive) (eb : Z) :
  isRandom random = true ->
  add (literal 10) (mul value (literal (5 # 100))) = S754_finite false mb eb ->
  is_finite (mul (S754_finite false mb eb)
               (add (literal (7 # 10)) (literal (6 # 10)))) = true ->
  (val (mul (S754_finite false mb eb)
          (add (literal (7 # 10)) (literal (6 # 10)))) < 13 + (1 # 2))%Q ->
  exists n : Z,
    5 <= n <= 13 /\
    is_finite (calculateTransactionMinutes value random) = true /\
    (val (calculateTransactionMinutes value random) == inject_Z n)%Q.
Proof.
  intros Hr Hb F2 V2. unfold calculateTransactionMinutes. cbv zeta.
  destruct (randomFactor_bounds random Hr) as [_ R1]. cbv zeta in R1.
  destruct (randomFactor_finite random Hr) as (mf & ef & Ef).
  rewrite Hb.
  set (rf := add (literal (7 # 10)) (mul random (literal (6 # 10)))) in *.
  clearbody rf.
  set (base := S754_finite false mb eb) in *.
  set (P := mul base rf).
  assert (NP : Nonneg P)
    by exact (proj1 (Nonneg_mul base rf mf ef I Ef)).
  assert (CP : canonical P).
  { unfold P, base. rewrite Ef. cbn [mul]. apply of_Q_canonical. }
  assert (L2 : Below P (mul base (add (literal (7 # 10)) (literal (6 # 10)))))
    by exact (mul_mono_l _ _ _ _ _ eq_refl R1).
  destruct (Below_finite _ _ L2 F2) as [FP VP].
  destruct (clamp_round P CP NP) as (n & C1 & C2 & C3).
  exists (Z.max 5 (Z.min 30 n)).
  split; [|split; [exact C1 | exact C2]].
  destruct C3 as [[E _] | (_ & _ & Un)].
  - rewrite E in FP. discriminate FP.
  - assert (H : (inject_Z n < inject_Z 14)%Q)
      by (change (inject_Z 14) with 14%Q; lra).
    apply Qlt_Zlt in H. lia.
Qed.

Lemma largeOrder_swapped (r : number) :
  let st' := step largeOrder (ClickSwap r) in
  sendAmount st' = "2.98001" /\ sendCurrency st' = ETH /\
  receiveAmount st' = "6509.33" /\ receiveCurrency st' = USDT /\
  validateAmount (sendAmount st') (sendCurrency st')
  = "Insufficient ETH balance" /\
  sendError (handleSwap largeOrder r) = "Insufficient ETH balance" /\
  sendError st' = "" /\ receiveError st' = "" /\
  confirmDisabled st' = false.
Proof.
  vm_compute. repeat split.
Qed.

Lemma smallOrder_swapped (r : number) :
  let st' := step smallOrder (ClickSwap r) in
  sendAmount st' = "2.18" /\ sendCurrency st' = USDT /\
  receiveAmount st' = "0.001" /\ receiveCurrency st' = ETH /\
  sendError st' = "" /\ receiveError st' = "" /\
  displayedValue st' = S754_finite false 4918673887027098 (-51).
Proof.
  vm_compute. repeat split.
Qed.

(** The estimate that the swap of the small order stores values the
    2.18 of the new send side as ETH. *)
Lemma smallOrder_minutes (r : number) :
  transactionMinutes (step smallOrder (ClickSwap r))
  = calculateTransactionMinutes
      (S754_finite false 5235697789901891 (-40)) r.
Proof.
  unfold step. cbn [handle]. rewrite runEffects_minutes.
  assert (Hs : sendError smallOrder <> ERROR_MESSAGES.NUMBERS_ONLY)
    by (vm_compute; discriminate).
  assert (Hr : receiveError smallOrder <> ERROR_MESSAGES.NUMBERS_ONLY)
    by (vm_compute; discriminate).
  destruct (handleSwap_fields smallOrder r Hs Hr)
    as (_ & _ & _ & _ & _ & _ & ->).
  unfold updateTransactionMinutes. cbv zeta.
  f_equal; vm_compute; reflexivity.
Qed.

(** The state of the render that follows a swap. *)
Lemma swap_step_fields (st : State) (r : number) :
  sendError st <> ERROR_MESSAGES.NUMBERS_ONLY ->
  receiveError st <> ERROR_MESSAGES.NUMBERS_ONLY ->
  sendAmount (step st (ClickSwap r)) = receiveAmount st /\
  sendCurrency (step st (ClickSwap r)) = receiveCurrency st /\
  receiveAmount (step st (ClickSwap r)) = sendAmount st /\
  receiveCurrency (step st (ClickSwap r)) = sendCurrency st /\
  receiveError (step st (ClickSwap r)) = "" /\
  sendError (handleSwap st r)
  = validateAmount (sendAmount (step st (ClickSwap r)))
      (sendCurrency (step st (ClickSwap r))).
Proof.
  intros Hs Hr. unfold step. cbn [handle].
  destruct (runEffects_amounts st (handleSwap st r)) as [-> ->].
  destruct (runEffects_currencies st (handleSwap st r)) as [-> ->].
  destruct (runEffects_errors st (handleSwap st r)) as (_ & -> & _).
  destruct (handleSwap_fields st r Hs Hr)
    as (-> & -> & -> & -> & -> & -> & _).
  repeat split.
Qed.

Lemma Reachable_largeOrder : Reachable largeOrder.
Proof.
  unfold largeOrder.
  apply ReachStep; [apply ReachStep; [apply ReachMount|]|];
    vm_compute; reflexivity.
Qed.

Lemma Reachable_smallOrder : Reachable smallOrder.
Proof.
  unfold smallOrder. apply ReachStep; [apply ReachMount|];
    vm_compute; reflexivity.
Qed.

Lemma swap_enabled (st : State) (r : number) :
  isSuccess st = false -> isRandom r = true ->
  enabled st (ClickSwap r) = true.
Proof. intros Hs Hr. cbn [enabled]. rewrite Hs, Hr. reflexivity. Qed.

End SwapFacts.

Import SwapFacts.

(** C3.  With a "numbers only" error on either field a click on swap
    leaves the state as it is.  Otherwise, also with a balance error, it
    exchanges the amounts and the currencies of the two sides and clears
    the receive error, and [handleSwap] sets the send error to the
    validation of the new send amount.  The next render does not show
    what the comments of [handleSwap] announce.  The effect on the
    receive amount replaces the send error: after the swap of 6509.33
    USDT against 2.98001 ETH the send side holds 2.98001 ETH, more than
    the balance, without an error and with the confirm button enabled.
    The estimate is computed with the currencies of the render before
    the swap: after the swap of 0.001 ETH against 2.18 USDT it is 30
    whatever the random draw, while the values then displayed give at
    most 13. *)
Theorem swap_shows_neither_validation_nor_estimate_of_new_values :
  (forall (st : State) (r : number),
      sendError st = ERROR_MESSAGES.NUMBERS_ONLY \/
      receiveError st = ERROR_MESSAGES.NUMBERS_ONLY ->
      step st (ClickSwap r) = st) /\
  (forall (st : State) (r : number),
      sendError st <> ERROR_MESSAGES.NUMBERS_ONLY ->
      receiveError st <> ERROR_MESSAGES.NUMBERS_ONLY ->
      let st' := step st (ClickSwap r) in
      sendAmount st' = receiveAmount st /\
      sendCurrency st' = receiveCurrency st /\
      receiveAmount st' = sendAmount st /\
      receiveCurrency st' = sendCurrency st /\
      receiveError st' = "" /\
      sendError (handleSwap st r)
      = validateAmount (sendAmount st') (sendCurrency st')) /\
  (forall (st : State) (r : number) (c : CurrencyKey),
      sendError st = insufficientBalance c -> receiveError st = "" ->
      let st' := step st (ClickSwap r) in
      sendAmount st' = receiveAmount st /\
      sendCurrency st' = receiveCurrency st /\
      receiveAmount st' = sendAmount st /\
      receiveCurrency st' = sendCurrency st) /\
  (Reachable largeOrder /\
   forall r : number,
     isRandom r = true ->
     let st' := step largeOrder (ClickSwap r) in
     enabled largeOrder (ClickSwap r) = true /\
     sendAmount st' = "2.98001" /\ sendCurrency st' = ETH /\
     receiveAmount st' = "6509.33" /\ receiveCurrency st' = USDT /\
     validateAmount (sendAmount st') (sendCurrency st')
     = "Insufficient ETH balance" /\
     sendError st' = "" /\
     confirmDisabled st' = false) /\
  (Reachable smallOrder /\
   forall r : number,
     isRandom r = true ->
     let st' := step smallOrder (ClickSwap r) in
     enabled smallOrder (ClickSwap r) = true /\
     sendAmount st' = "2.18" /\ sendCurrency st' = USDT /\
     receiveAmount st' = "0.001" /\ receiveCurrency st' = ETH /\
     is_finite (transactionMinutes st') = true /\
     (val (transactionMinutes st') == 30)%Q /\
     forall r' : number,
       isRandom r' = true ->
       exists n : Z,
         5 <= n <= 13 /\
         is_finite (calculateTransactionMinutes (displayedValue st') r')
         = true /\
         (val (calculateTransactionMinutes (displayedValue st') r')
          == inject_Z n)%Q).
Proof.
  split; [|split; [|split; [|split]]].
  - intros st r H. unfold step. cbn [handle].
    rewrite (handleSwap_blocked st r H).
    apply runEffects_same_deps; reflexivity.
  - intros st r Hs Hr st'. exact (swap_step_fields st r Hs Hr).
  - intros st r c Hs Hr st'.
    destruct (insufficientBalance_not_format c) as [Hc _].
    destruct (swap_step_fields st r) as (A & B & C & D & _).
    + rewrite Hs. apply String.eqb_neq. exact Hc.
    + rewrite Hr. discriminate.
    + repeat split; assumption.
  - split; [exact Reachable_largeOrder|]. intros r Hr st'.
    destruct (largeOrder_swapped r) as (A & B & C & D & E & _ & F & _ & G).
    split; [apply swap_enabled; [vm_compute; reflexivity | exact Hr]|].
    repeat split; assumption.
  - split; [exact Reachable_smallOrder|]. intros r Hr st'.
    destruct (smallOrder_swapped r) as (A & B & C & D & _ & _ & V).
    split; [apply swap_enabled; [vm_compute; reflexivity | exact Hr]|].
    do 4 (split; [assumption|]).
    unfold st' at 1 2. rewrite smallOrder_minutes.
    destruct (estimate_bounds (S754_finite false 5235697789901891 (-40)) r)
      as (n & _ & Fn & Vn & H658 & _);
      [vm_compute; reflexivity | exact Hr |].
    rewrite (H658 eq_refl) in Vn.
    split; [exact Fn|]. split; [exact Vn|].
    intros r' Hr'. fold st' in V. rewrite V.
    apply (estimate_at_most _ r' 5690982957800959 (-49) Hr');
      vm_compute; reflexivity.
Qed.

Lemma swap_shows_neither_validation_nor_estimate_of_new_values_witness :
  step (step (mount (literal (1 # 2))) (ChangeSend "x" (literal (1 # 2))))
    (ClickSwap (literal (1 # 2)))
  = step (mount (literal (1 # 2))) (ChangeSend "x" (literal (1 # 2))) /\
  sendCurrency (step (mount (literal (1 # 2))) (ClickSwap (literal (1 # 2))))
  = USDT /\
  sendError (step (mount (literal (1 # 2))) (ChangeSend "5" (literal (1 # 2))))
  = "Insufficient ETH balance" /\
  sendAmount
    (step (step (mount (literal (1 # 2))) (ChangeSend "5" (literal (1 # 2))))
       (ClickSwap (literal (1 # 2))))
  = "10921.65" /\
  sendError (step largeOrder (ClickSwap (literal 0))) = "" /\
  (val (transactionMinutes (step smallOrder (ClickSwap (literal 0)))) == 30)%Q.
Proof.
  pose proof swap_shows_neither_validation_nor_estimate_of_new_values as T.
  destruct T as (T1 & T2 & TB & [_ T3] & [_ T4]).
  split; [|split; [|split; [|split; [|split]]]].
  - apply T1. left. vm_compute. reflexivity.
  - destruct (T2 (mount (literal (1 # 2))) (literal (1 # 2)))
      as (_ & E & _).
    + vm_compute. discriminate.
    + vm_compute. discriminate.
    + rewrite E. vm_compute. reflexivity.
  - vm_compute. reflexivity.
  - destruct (TB (step (mount (literal (1 # 2)))
                    (ChangeSend "5" (literal (1 # 2))))
                (literal (1 # 2)) ETH)
      as (E & _).
    + vm_compute. reflexivity.
    + vm_compute. reflexivity.
    + rewrite E. vm_compute. reflexivity.
  - destruct (T3 (literal 0)) as (_ & _ & _ & _ & _ & _ & E & _);
      [vm_compute; reflexivity | exact E].
  - destruct (T4 (literal 0)) as (_ & _ & _ & _ & _ & _ & E & _);
      [vm_compute; reflexivity | exact E].
Defined.

